(** * NVDLA queue and task management (nvdla_queue.c): a shallow embedding

    The development follows the driver file function by function.

    - Part I models task-descriptor construction: the action records, the
      fence resolver ([nvdla_fill_wait_fence_action],
      [nvdla_fill_signal_fence_action]), the action-list builder
      ([nvdla_fill_preactions], [nvdla_fill_postactions]), the address list
      ([nvdla_map_task_memory]), the unwind ([nvdla_unmap_task_memory]) and
      [nvdla_fill_task_desc].
    - Part II models the signal-fence assignment ([nvdla_get_signal_fences],
      [nvdla_emulator_submit]).
    - Part III models the queue operations over an explicit driver state:
      [nvdla_queue_submit_op], [nvdla_queue_update], [nvdla_queue_abort_op].
    - Part IV models the remaining functions: [nvdla_compute_task_id],
      [nvdla_get_task_mem], [nvdla_get_task_desc_size],
      [nvdla_set_queue_state].

    C integers are [Z] with the wrap-around of their width written out.
    The collaborators the file calls but does not define (buffer registry,
    syncpoint service, power management, command dispatch) are fields of an
    environment record [env]; their results are inputs of the model.
    The memory behind a task descriptor is one buffer: the descriptor
    keeps the stores made into it, and what the buffer holds is read off
    them.

    The second half of the file states and proves the properties of these
    functions, each with a run of the model on a sample configuration. *)

From stdpp Require Import gmap list.
From Stdlib Require Import ZArith Lia.

Local Open Scope Z_scope.

(** ** Machine integers and error codes *)

Definition u16 (x : Z) : Z := x mod 2 ^ 16.
Definition u32 (x : Z) : Z := x mod 2 ^ 32.
Definition u64 (x : Z) : Z := x mod 2 ^ 64.

(** The cast [(s32)x] of a 32-bit value. *)
Definition s32 (x : Z) : Z :=
  let y := u32 x in if y <? 2 ^ 31 then y else y - 2 ^ 32.

Definition UINT_MAX : Z := 2 ^ 32 - 1.
Definition EINVAL : Z := 22.
Definition EFAULT : Z := 14.

Definition NVDLA_QUEUE_ABORT_TIMEOUT : Z := 10000.
Definition NVDLA_QUEUE_ABORT_RETRY_PERIOD : Z := 500.

(** [roundup(x, y)] of the kernel, for positive [y]. *)
Definition roundup (x y : Z) : Z := ((x + (y - 1)) / y) * y.

(** ** Data model *)

Inductive fence_type :=
| NVDEV_FENCE_TYPE_SYNCPT
| NVDEV_FENCE_TYPE_SYNC_FD
| NVDEV_FENCE_TYPE_SEMAPHORE
| NVDEV_FENCE_TYPE_SEMAPHORE_TS
| NVDEV_FENCE_TYPE_UNKNOWN (raw : Z).

Inductive fence_action :=
| NVDEV_FENCE_WAIT
| NVDEV_FENCE_SIGNAL
| NVDEV_FENCE_SIGNAL_STRIDE
| NVDEV_FENCE_ACTION_UNKNOWN (raw : Z).

Inductive buffer_type :=
| NVDLA_BUFFER_TYPE_MC
| NVDLA_BUFFER_TYPE_INTERNAL.

Inductive submit_mode_t :=
| NVDLA_SUBMIT_MODE_MMIO
| NVDLA_SUBMIT_MODE_CHANNEL.

#[global] Instance fence_type_eq_dec : EqDecision fence_type.
Proof. solve_decision. Defined.
#[global] Instance fence_action_eq_dec : EqDecision fence_action.
Proof. solve_decision. Defined.
#[global] Instance buffer_type_eq_dec : EqDecision buffer_type.
Proof. solve_decision. Defined.
#[global] Instance submit_mode_eq_dec : EqDecision submit_mode_t.
Proof. solve_decision. Defined.

(** [struct nvdev_fence]. *)
Record nvdev_fence := Fence {
  type : fence_type;
  action : fence_action;
  syncpoint_index : Z;
  syncpoint_value : Z;
  sync_fd : Z;
  semaphore_handle : Z;
  semaphore_offset : Z;
  semaphore_value : Z
}.

(** [struct nvdla_mem_handle]. *)
Record nvdla_mem_handle := MemHandle {
  mh_handle : Z;
  mh_offset : Z;
  mh_type : buffer_type
}.

(** [struct nvdla_status_notify]. *)
Record nvdla_status_notify := StatusNotify {
  sn_handle : Z;
  sn_offset : Z;
  sn_status : Z
}.

(** Action opcodes of the engine firmware. *)
Inductive opcode :=
| ACTION_TERMINATE
| ACTION_SEM_GE
| ACTION_WRITE_SEM
| ACTION_INCREMENT_SEM
| ACTION_WRITE_TS_SEM
| ACTION_TASK_STATUS_EQ
| ACTION_WRITE_TASK_STATUS
| ACTION_WRITE_TIMESTAMP.

#[global] Instance opcode_eq_dec : EqDecision opcode.
Proof. solve_decision. Defined.

(** One record of an action list: a [dla_action_opcode] followed by its
    operand structure ([dla_action_semaphore], [dla_action_task_status],
    [dla_action_timestamp]) or by nothing. *)
Inductive dla_action :=
| action_semaphore (op : opcode) (address value : Z)
| action_task_status (op : opcode) (address status : Z)
| action_timestamp (op : opcode) (address : Z)
| action_opcode (op : opcode).

#[global] Instance dla_action_eq_dec : EqDecision dla_action.
Proof. solve_decision. Defined.

Definition action_op (a : dla_action) : opcode :=
  match a with
  | action_semaphore op _ _ => op
  | action_task_status op _ _ => op
  | action_timestamp op _ => op
  | action_opcode op => op
  end.

(** [struct dla_action_list]: the header of one list. *)
Record dla_action_list := ActionList {
  al_offset : Z;
  al_size : Z
}.

(** What one store into the task memory writes: an action record, a list
    header, an entry of the address list. *)
Inductive dla_cell :=
| cell_action (a : dla_action)
| cell_list (l : dla_action_list)
| cell_address (addr : Z).

#[global] Instance dla_action_list_eq_dec : EqDecision dla_action_list.
Proof. solve_decision. Defined.
#[global] Instance dla_cell_eq_dec : EqDecision dla_cell.
Proof. solve_decision. Defined.

(** The fields of [struct dla_task_descriptor] the file writes after the
    constant header (version, engine id, size, list counts, which nothing
    here reads), and the memory behind the descriptor.  The descriptor,
    the two list headers, the two action regions and the address list
    are one buffer: [td_mem] holds the stores made into it behind the
    descriptor, each with its offset from the base, in program order.
    The cursors of the three fill stages start at fixed offsets and
    nothing bounds them, so a store lands wherever its cursor stands;
    what the buffer holds at an offset is worked out by [load].  The
    fields [preactionl], [postactionl], [preaction_mem], [postaction_mem]
    and [address_mem] keep what the last run of each stage stored as
    header and through its cursor, in the order stored. *)
Record dla_task_descriptor := TaskDesc {
  td_timeout : Z;
  td_flags : Z;
  td_sequence : Z;
  td_queue_id : Z;
  td_preactions : Z;
  td_postactions : Z;
  td_next : Z;
  td_address_list : Z;
  td_num_addresses : Z;
  preactionl : option dla_action_list;
  postactionl : option dla_action_list;
  preaction_mem : list dla_action;
  postaction_mem : list dla_action;
  address_mem : list Z;
  td_mem : list (Z * dla_cell)
}.

(** [struct nvdla_task].  The arrays with their [num_*] counts are lists. *)
Record nvdla_task := Task {
  prefences : list nvdev_fence;
  postfences : list nvdev_fence;
  in_task_status : list nvdla_status_notify;
  sof_task_status : list nvdla_status_notify;
  eof_task_status : list nvdla_status_notify;
  sof_timestamps : list nvdla_mem_handle;
  eof_timestamps : list nvdla_mem_handle;
  memory_handles : list nvdla_mem_handle;
  timeout : Z;
  fence : Z;
  fence_counter : Z;
  task_desc : dla_task_descriptor;
  task_desc_pa : Z;
  ref : nat
}.

Definition set_fence_counter (c : Z) (t : nvdla_task) : nvdla_task :=
  Task (prefences t) (postfences t) (in_task_status t) (sof_task_status t)
    (eof_task_status t) (sof_timestamps t) (eof_timestamps t)
    (memory_handles t) (timeout t) (fence t) c (task_desc t)
    (task_desc_pa t) (ref t).

Definition set_fence (v : Z) (t : nvdla_task) : nvdla_task :=
  Task (prefences t) (postfences t) (in_task_status t) (sof_task_status t)
    (eof_task_status t) (sof_timestamps t) (eof_timestamps t)
    (memory_handles t) (timeout t) v (fence_counter t) (task_desc t)
    (task_desc_pa t) (ref t).

Definition set_task_desc (d : dla_task_descriptor) (t : nvdla_task)
  : nvdla_task :=
  Task (prefences t) (postfences t) (in_task_status t) (sof_task_status t)
    (eof_task_status t) (sof_timestamps t) (eof_timestamps t)
    (memory_handles t) (timeout t) (fence t) (fence_counter t) d
    (task_desc_pa t) (ref t).

Definition set_ref (n : nat) (t : nvdla_task) : nvdla_task :=
  Task (prefences t) (postfences t) (in_task_status t) (sof_task_status t)
    (eof_task_status t) (sof_timestamps t) (eof_timestamps t)
    (memory_handles t) (timeout t) (fence t) (fence_counter t) (task_desc t)
    (task_desc_pa t) n.

Definition set_fences (pre post : list nvdev_fence) (t : nvdla_task)
  : nvdla_task :=
  Task pre post (in_task_status t) (sof_task_status t)
    (eof_task_status t) (sof_timestamps t) (eof_timestamps t)
    (memory_handles t) (timeout t) (fence t) (fence_counter t) (task_desc t)
    (task_desc_pa t) (ref t).

Definition set_syncpoint (index value : Z) (f : nvdev_fence) : nvdev_fence :=
  Fence (type f) (action f) index value (sync_fd f) (semaphore_handle f)
    (semaphore_offset f) (semaphore_value f).

(** ** Environment *)

(** Sizes of the firmware interface structures and the per-task maxima
    (dla_os_interface.h and nvdla.h), taken as parameters. *)
Record dla_abi := Abi {
  sizeof_task_descriptor : Z;
  sizeof_action_list : Z;
  sizeof_action_opcode : Z;
  sizeof_action_semaphore : Z;
  sizeof_action_task_status : Z;
  sizeof_action_timestamp : Z;
  sizeof_mem_addr : Z;
  MAX_NVDLA_PREFENCES_PER_TASK : Z;
  MAX_NVDLA_POSTFENCES_PER_TASK : Z;
  MAX_NVDLA_IN_STATUS_PER_TASK : Z;
  MAX_NVDLA_OUT_STATUS_PER_TASK : Z;
  MAX_NVDLA_OUT_TIMESTAMPS_PER_TASK : Z;
  MAX_NUM_NVDLA_BUFFERS_PER_TASK : Z;
  MAX_NUM_ACTION_LIST : Z;
  NUM_PROFILING_POSTACTION : Z;
  DLA_DESC_FLAGS_BYPASS_EXEC : Z
}.

(** The queue's constants and the results of the collaborators. *)
Record env := Env {
  abi : dla_abi;
  (** [queue->id], [queue->syncpt_id], [nvdla_dev->submit_mode] *)
  queue_id : Z;
  syncpt_id : Z;
  submit_mode : submit_mode_t;
  (** buffer registry: the DMA address of a handle it can pin *)
  buffer_lookup : Z -> option Z;
  (** syncpoint service *)
  nvhost_syncpt_address : Z -> Z;
  nvhost_syncpt_is_valid_pt_ext : Z -> bool;
  (** [nvhost_fence_get]: the (id, thresh) pairs of a sync fd *)
  nvhost_fence_get : Z -> option (list (Z * Z));
  (** results of the power and dispatch services for one operation *)
  nvhost_module_busy_ret : Z;
  nvdla_send_cmd_channel_ret : Z;
  nvdla_send_cmd_channel_fence : Z;
  nvhost_intr_register_notifier_ret : Z;
  nvdla_send_cmd_ret : nat -> Z;
  DLA_ERR_PROCESSOR_BUSY : Z
}.

(** ** Buffer registry *)

(** Modelled from the spec: the buffer mapping service
    ([nvdla_buffer_submit_pin], [nvdla_buffer_submit_unpin]) is not in this
    file.  Section 4.1: pinning increments a per-handle reference count,
    unpinning decrements it and releases the mapping at zero; pin fails
    when the handle is invalid.  The registry state is the count of every
    pinned handle. *)
Definition pin_count (m : gmap Z nat) (h : Z) : nat :=
  default 0%nat (m !! h).

(** Returns the error code, the DMA address and the new registry. *)
Definition nvdla_buffer_submit_pin (e : env) (h : Z) (m : gmap Z nat)
  : Z * Z * gmap Z nat :=
  match buffer_lookup e h with
  | Some dma_addr => (0, dma_addr, <[h := S (pin_count m h)]> m)
  | None => (- EINVAL, 0, m)
  end.

Definition nvdla_buffer_submit_unpin (h : Z) (m : gmap Z nat) : gmap Z nat :=
  match m !! h with
  | Some (S (S n)) => <[h := S n]> m
  | Some _ => delete h m
  | None => m
  end.

(** ** Part I: task descriptor construction *)

(** What a construction leaves with the two services it takes resources
    from: the buffer registry, and the sync fds on whose fence it holds a
    reference ([nvhost_fence_get] without [nvhost_fence_put]), in the
    order taken. *)
Record resources := Res {
  bufs :> gmap Z nat;
  fence_refs : list Z
}.

(** What the fill functions mutate: the registry, [task->fence_counter],
    the records written from [start] up to the cursor [*mem_next], and
    the fence references taken and not given back. *)
Record fill_ctx := Ctx {
  pins : gmap Z nat;
  counter : Z;
  mem_next : list dla_action;
  held : list Z
}.

Definition add_address (mem : list Z) (addr : Z) : list Z :=
  mem ++ [u64 addr].

Definition add_opcode (mem : list dla_action) (op : opcode)
  : list dla_action :=
  mem ++ [action_opcode op].

Definition add_fence_action (mem : list dla_action) (op : opcode)
  (addr val : Z) : list dla_action :=
  mem ++ [action_semaphore op (u64 addr) (u32 val)].

Definition add_status_action (mem : list dla_action) (op : opcode)
  (addr status : Z) : list dla_action :=
  mem ++ [action_task_status op (u64 addr) (u16 status)].

Definition add_timestamp_action (mem : list dla_action) (op : opcode)
  (addr : Z) : list dla_action :=
  mem ++ [action_timestamp op (u64 addr)].

Section Build.

Variable e : env.

Definition action_size (a : dla_action) : Z :=
  sizeof_action_opcode (abi e) +
  match a with
  | action_semaphore _ _ _ => sizeof_action_semaphore (abi e)
  | action_task_status _ _ _ => sizeof_action_task_status (abi e)
  | action_timestamp _ _ => sizeof_action_timestamp (abi e)
  | action_opcode _ => 0
  end.

(** [next - start] for a cursor that wrote the records [mem]. *)
Definition region_size (mem : list dla_action) : Z :=
  foldr (fun a n => action_size a + n) 0 mem.

(** The bytes one store writes. *)
Definition cell_size (c : dla_cell) : Z :=
  match c with
  | cell_action a => action_size a
  | cell_list _ => sizeof_action_list (abi e)
  | cell_address _ => sizeof_mem_addr (abi e)
  end.

(** The stores of a cursor that starts at offset [start]. *)
Fixpoint place_actions (start : Z) (mem : list dla_action)
  : list (Z * dla_cell) :=
  match mem with
  | [] => []
  | a :: rest =>
      (start, cell_action a) :: place_actions (start + action_size a) rest
  end.

Fixpoint place_addresses (start : Z) (mem : list Z)
  : list (Z * dla_cell) :=
  match mem with
  | [] => []
  | addr :: rest =>
      (start, cell_address addr) ::
      place_addresses (start + sizeof_mem_addr (abi e)) rest
  end.

(** The store of a list header. *)
Definition place_list (offset : Z) (l : option dla_action_list)
  : list (Z * dla_cell) :=
  match l with
  | Some hdr => [(offset, cell_list hdr)]
  | None => []
  end.

Definition nvdla_get_max_preaction_size : Z :=
  let a := abi e in
  (MAX_NVDLA_PREFENCES_PER_TASK a + MAX_NVDLA_IN_STATUS_PER_TASK a +
     MAX_NVDLA_OUT_STATUS_PER_TASK a + MAX_NVDLA_OUT_TIMESTAMPS_PER_TASK a) *
    sizeof_action_opcode a +
  MAX_NVDLA_PREFENCES_PER_TASK a * sizeof_action_semaphore a +
  (MAX_NVDLA_IN_STATUS_PER_TASK a + MAX_NVDLA_OUT_STATUS_PER_TASK a) *
    sizeof_action_task_status a +
  MAX_NVDLA_OUT_TIMESTAMPS_PER_TASK a * sizeof_action_timestamp a +
  sizeof_action_opcode a.

Definition nvdla_get_max_postaction_size : Z :=
  let a := abi e in
  (MAX_NVDLA_POSTFENCES_PER_TASK a + MAX_NVDLA_OUT_STATUS_PER_TASK a +
     MAX_NVDLA_OUT_TIMESTAMPS_PER_TASK a + NUM_PROFILING_POSTACTION a) *
    sizeof_action_opcode a +
  MAX_NVDLA_POSTFENCES_PER_TASK a * sizeof_action_semaphore a +
  (MAX_NVDLA_OUT_STATUS_PER_TASK a + NUM_PROFILING_POSTACTION a) *
    sizeof_action_task_status a +
  MAX_NVDLA_OUT_TIMESTAMPS_PER_TASK a * sizeof_action_timestamp a +
  sizeof_action_opcode a.

Definition nvdla_profile_status_offset : Z :=
  let a := abi e in
  let offset := sizeof_task_descriptor a in
  let offset := offset + 2 * MAX_NUM_ACTION_LIST a * sizeof_action_list a in
  let offset := offset + nvdla_get_max_preaction_size in
  let offset := offset + nvdla_get_max_postaction_size in
  let offset := roundup offset 8 in
  let offset := offset + MAX_NUM_NVDLA_BUFFERS_PER_TASK a * sizeof_mem_addr a in
  roundup offset 8.

(** The callback of [nvhost_fence_foreach_pt]; [next] is [*args->mem]. *)
Definition nvdla_add_fence_action_cb (info : Z * Z) (next : list dla_action)
  : Z * list dla_action :=
  let '(id, thresh) := info in
  if (id =? 0) || negb (nvhost_syncpt_is_valid_pt_ext e id)
  then (- EINVAL, next)
  else (0, add_fence_action next ACTION_SEM_GE (nvhost_syncpt_address e id)
             thresh).

(** Modelled from the spec: [nvhost_fence_foreach_pt] is not in this file.
    Section 4.2: each counter of a sync fd yields its own wait action; the
    iteration stops at the first callback that reports an error. *)
Fixpoint nvhost_fence_foreach_pt (pts : list (Z * Z))
  (next : list dla_action) : Z * list dla_action :=
  match pts with
  | [] => (0, next)
  | info :: rest =>
      let '(err, next') := nvdla_add_fence_action_cb info next in
      if err =? 0 then nvhost_fence_foreach_pt rest next' else (err, next')
  end.

(** [nvhost_fence_get] takes a reference on the fence of a sync fd;
    [nvhost_fence_put] gives it back, and is called only when the
    iteration over the fence fails. *)
Definition nvdla_fill_wait_fence_action (fence : nvdev_fence) (c : fill_ctx)
  : Z * fill_ctx :=
  let next := mem_next c in
  match type fence with
  | NVDEV_FENCE_TYPE_SYNC_FD =>
      match nvhost_fence_get e (sync_fd fence) with
      | None => (0, Ctx (pins c) (counter c) next (held c))
      | Some f =>
          let held_f := held c ++ [sync_fd fence] in
          let '(err, next) := nvhost_fence_foreach_pt f next in
          if negb (err =? 0)
          then (err, Ctx (pins c) (counter c) next (held c))
          else (err, Ctx (pins c) (counter c) next held_f)
      end
  | NVDEV_FENCE_TYPE_SYNCPT =>
      let syncpt_addr := nvhost_syncpt_address e (syncpoint_index fence) in
      let next := add_fence_action next ACTION_SEM_GE syncpt_addr
                    (syncpoint_value fence) in
      (0, Ctx (pins c) (counter c) next (held c))
  | NVDEV_FENCE_TYPE_SEMAPHORE
  | NVDEV_FENCE_TYPE_SEMAPHORE_TS =>
      let '(perr, dma_addr, pins') :=
        nvdla_buffer_submit_pin e (semaphore_handle fence) (pins c) in
      if negb (perr =? 0) then (0, Ctx pins' (counter c) next (held c))
      else
        let next := add_fence_action next ACTION_SEM_GE
                      (dma_addr + semaphore_offset fence)
                      (semaphore_value fence) in
        (0, Ctx pins' (counter c) next (held c))
  | NVDEV_FENCE_TYPE_UNKNOWN _ => (- EINVAL, c)
  end.

Definition nvdla_fill_signal_fence_action (fence : nvdev_fence) (c : fill_ctx)
  : Z * fill_ctx :=
  let next := mem_next c in
  match type fence with
  | NVDEV_FENCE_TYPE_SYNC_FD
  | NVDEV_FENCE_TYPE_SYNCPT =>
      let syncpt_addr := nvhost_syncpt_address e (syncpt_id e) in
      let next := add_fence_action next ACTION_WRITE_SEM syncpt_addr 1 in
      (0, Ctx (pins c) (u32 (counter c + 1)) next (held c))
  | NVDEV_FENCE_TYPE_SEMAPHORE =>
      let '(perr, dma_addr, pins') :=
        nvdla_buffer_submit_pin e (semaphore_handle fence) (pins c) in
      if negb (perr =? 0) then (0, Ctx pins' (counter c) next (held c))
      else if decide (action fence = NVDEV_FENCE_SIGNAL_STRIDE) then
        let next := add_fence_action next ACTION_INCREMENT_SEM
                      (dma_addr + semaphore_offset fence)
                      (semaphore_value fence) in
        (0, Ctx pins' (counter c) next (held c))
      else
        let next := add_fence_action next ACTION_WRITE_SEM
                      (dma_addr + semaphore_offset fence)
                      (semaphore_value fence) in
        (0, Ctx pins' (counter c) next (held c))
  | NVDEV_FENCE_TYPE_SEMAPHORE_TS =>
      let '(perr, dma_addr, pins') :=
        nvdla_buffer_submit_pin e (semaphore_handle fence) (pins c) in
      if negb (perr =? 0) then (0, Ctx pins' (counter c) next (held c))
      else
        let next := add_fence_action next ACTION_WRITE_TS_SEM
                      (dma_addr + semaphore_offset fence)
                      (semaphore_value fence) in
        (0, Ctx pins' (counter c) next (held c))
  | NVDEV_FENCE_TYPE_UNKNOWN _ => (- EINVAL, c)
  end.

Definition nvdla_fill_taskstatus_read_action (task_status : nvdla_status_notify)
  (c : fill_ctx) : Z * fill_ctx :=
  let '(perr, dma_addr, pins') :=
    nvdla_buffer_submit_pin e (sn_handle task_status) (pins c) in
  if negb (perr =? 0)
  then (- EINVAL, Ctx pins' (counter c) (mem_next c) (held c))
  else
    let next := add_status_action (mem_next c) ACTION_TASK_STATUS_EQ
                  (dma_addr + sn_offset task_status) (sn_status task_status) in
    (0, Ctx pins' (counter c) next (held c)).

Definition nvdla_fill_taskstatus_write_action
  (task_status : nvdla_status_notify) (c : fill_ctx) : Z * fill_ctx :=
  let '(perr, dma_addr, pins') :=
    nvdla_buffer_submit_pin e (sn_handle task_status) (pins c) in
  if negb (perr =? 0)
  then (- EINVAL, Ctx pins' (counter c) (mem_next c) (held c))
  else
    let next := add_status_action (mem_next c) ACTION_WRITE_TASK_STATUS
                  (dma_addr + sn_offset task_status) (sn_status task_status) in
    (0, Ctx pins' (counter c) next (held c)).

Definition nvdla_fill_timestamp_write_action (timestamp : nvdla_mem_handle)
  (c : fill_ctx) : Z * fill_ctx :=
  let '(perr, dma_addr, pins') :=
    nvdla_buffer_submit_pin e (mh_handle timestamp) (pins c) in
  if negb (perr =? 0)
  then (- EINVAL, Ctx pins' (counter c) (mem_next c) (held c))
  else
    let next := add_timestamp_action (mem_next c) ACTION_WRITE_TIMESTAMP
                  (dma_addr + mh_offset timestamp) in
    (0, Ctx pins' (counter c) next (held c)).

(** A [for] loop whose body is [err = f(...); if (err < 0) goto fail;].
    The result says whether control left through [goto fail], and carries
    the value of [err]. *)
Fixpoint for_each {A : Type} (body : A -> fill_ctx -> Z * fill_ctx)
  (l : list A) (err : Z) (c : fill_ctx) : bool * Z * fill_ctx :=
  match l with
  | [] => (false, err, c)
  | x :: rest =>
      let '(err', c') := body x c in
      if err' <? 0 then (true, err', c') else for_each body rest err' c'
  end.

(** Sequencing of loops that share the [fail] label. *)
Definition and_then (a b : Z -> fill_ctx -> bool * Z * fill_ctx)
  : Z -> fill_ctx -> bool * Z * fill_ctx :=
  fun err c =>
    let '(failed, err', c') := a err c in
    if failed then (true, err', c') else b err' c'.

Definition is_wait (f : nvdev_fence) : bool :=
  bool_decide (action f = NVDEV_FENCE_WAIT).

Definition is_signal (f : nvdev_fence) : bool :=
  negb (negb (bool_decide (action f = NVDEV_FENCE_SIGNAL)) &&
        negb (bool_decide (action f = NVDEV_FENCE_SIGNAL_STRIDE))).

(** The stores of a fill function whose cursor started at [start] and
    wrote [mem]; [hdr] is the list header it stored at the end, if it got
    that far. *)
Definition set_preactions (start : Z) (mem : list dla_action)
  (hdr : option dla_action_list) (d : dla_task_descriptor)
  : dla_task_descriptor :=
  TaskDesc (td_timeout d) (td_flags d) (td_sequence d) (td_queue_id d)
    (td_preactions d) (td_postactions d) (td_next d) (td_address_list d)
    (td_num_addresses d)
    (match hdr with Some _ => hdr | None => preactionl d end) (postactionl d)
    mem (postaction_mem d) (address_mem d)
    (td_mem d ++ place_actions start mem ++ place_list (td_preactions d) hdr).

Definition set_postactions (start : Z) (mem : list dla_action)
  (hdr : option dla_action_list) (d : dla_task_descriptor)
  : dla_task_descriptor :=
  TaskDesc (td_timeout d) (td_flags d) (td_sequence d) (td_queue_id d)
    (td_preactions d) (td_postactions d) (td_next d) (td_address_list d)
    (td_num_addresses d)
    (preactionl d) (match hdr with Some _ => hdr | None => postactionl d end)
    (preaction_mem d) mem (address_mem d)
    (td_mem d ++ place_actions start mem ++
     place_list (td_postactions d) hdr).

(** [nvdla_fill_preactions]: the task and the registry in, the error code,
    the task, the registry and the fence references taken out. *)
Definition nvdla_fill_preactions (task : nvdla_task) (m : gmap Z nat)
  : Z * nvdla_task * resources :=
  let task_desc := task_desc task in
  let preactionlist_of :=
    u16 (td_postactions task_desc + sizeof_action_list (abi e)) in
  let loops :=
    and_then
      (for_each nvdla_fill_wait_fence_action
         (filter (fun f => is_wait f = true) (prefences task)))
    (and_then
      (for_each nvdla_fill_taskstatus_read_action (in_task_status task))
    (and_then
      (for_each nvdla_fill_taskstatus_write_action (sof_task_status task))
    (and_then
      (for_each nvdla_fill_timestamp_write_action (sof_timestamps task))
      (for_each nvdla_fill_signal_fence_action
         (filter (fun f => is_signal f = true) (prefences task)))))) in
  let '(failed, err, c) := loops 0 (Ctx m (fence_counter task) [] []) in
  if failed then
    (err,
     set_task_desc
       (set_preactions preactionlist_of (mem_next c) None task_desc)
       (set_fence_counter (counter c) task),
     Res (pins c) (held c))
  else
    let next := add_opcode (mem_next c) ACTION_TERMINATE in
    let preactionl := ActionList preactionlist_of (region_size next) in
    (err,
     set_task_desc
       (set_preactions preactionlist_of next (Some preactionl) task_desc)
       (set_fence_counter (counter c) task),
     Res (pins c) (held c)).

Definition nvdla_fill_postactions (task : nvdla_task) (m : gmap Z nat)
  : Z * nvdla_task * gmap Z nat :=
  let task_desc := task_desc task in
  let postactionlist_of :=
    u16 (td_postactions task_desc + sizeof_action_list (abi e) +
         nvdla_get_max_preaction_size) in
  let next := add_status_action [] ACTION_WRITE_TASK_STATUS
                (task_desc_pa task + nvdla_profile_status_offset) 0 in
  let loops :=
    and_then
      (for_each nvdla_fill_timestamp_write_action (eof_timestamps task))
    (and_then
      (for_each nvdla_fill_taskstatus_write_action (eof_task_status task))
      (for_each nvdla_fill_signal_fence_action (postfences task))) in
  let '(failed, err, c) := loops 0 (Ctx m (fence_counter task) next []) in
  if failed then
    (err,
     set_task_desc
       (set_postactions postactionlist_of (mem_next c) None task_desc)
       (set_fence_counter (counter c) task),
     pins c)
  else
    let next := add_opcode (mem_next c) ACTION_TERMINATE in
    let postactionl := ActionList postactionlist_of (region_size next) in
    (err,
     set_task_desc
       (set_postactions postactionlist_of next (Some postactionl) task_desc)
       (set_fence_counter (counter c) task),
     pins c).

(** The loop of [nvdla_map_task_memory] over [task->memory_handles];
    [next] is the address list written so far. *)
Fixpoint map_address_list (hs : list nvdla_mem_handle) (err : Z)
  (m : gmap Z nat) (next : list Z) : Z * gmap Z nat * list Z :=
  match hs with
  | [] => (err, m, next)
  | h :: rest =>
      if decide (mh_type h = NVDLA_BUFFER_TYPE_INTERNAL) then
        map_address_list rest err m (add_address next (mh_offset h))
      else if mh_handle h =? 0 then (- EFAULT, m, next)
      else
        let '(perr, dma_addr, m') := nvdla_buffer_submit_pin e (mh_handle h) m in
        if negb (perr =? 0) then (perr, m', next)
        else map_address_list rest perr m'
               (add_address next (dma_addr + mh_offset h))
  end.

Definition set_address_list (offset address_list num : Z) (mem : list Z)
  (d : dla_task_descriptor) : dla_task_descriptor :=
  TaskDesc (td_timeout d) (td_flags d) (td_sequence d) (td_queue_id d)
    (td_preactions d) (td_postactions d) (td_next d) address_list num
    (preactionl d) (postactionl d) (preaction_mem d) (postaction_mem d) mem
    (td_mem d ++ place_addresses offset mem).

Definition nvdla_map_task_memory (task : nvdla_task) (m : gmap Z nat)
  : Z * nvdla_task * gmap Z nat :=
  let task_desc := task_desc task in
  let offset :=
    td_postactions task_desc +
    sizeof_action_list (abi e) + nvdla_get_max_preaction_size +
    sizeof_action_list (abi e) + nvdla_get_max_postaction_size in
  let offset := roundup offset 256 in
  let '(err, m', next) := map_address_list (memory_handles task) 0 m [] in
  (err,
   set_task_desc
     (set_address_list offset (u64 (task_desc_pa task + offset))
        (Z.of_nat (length (memory_handles task))) next task_desc)
     task,
   m').

(** [if (handle) nvdla_buffer_submit_unpin(..., &handle, 1);] *)
Definition unpin_handle (m : gmap Z nat) (h : Z) : gmap Z nat :=
  if h =? 0 then m else nvdla_buffer_submit_unpin h m.

Definition is_semaphore_fence (f : nvdev_fence) : bool :=
  bool_decide (type f = NVDEV_FENCE_TYPE_SEMAPHORE) ||
  bool_decide (type f = NVDEV_FENCE_TYPE_SEMAPHORE_TS).

Definition unpin_fence (m : gmap Z nat) (f : nvdev_fence) : gmap Z nat :=
  if is_semaphore_fence f then unpin_handle m (semaphore_handle f) else m.

Definition unpin_buffer (m : gmap Z nat) (h : nvdla_mem_handle)
  : gmap Z nat :=
  if decide (mh_type h = NVDLA_BUFFER_TYPE_INTERNAL) then m
  else unpin_handle m (mh_handle h).

Definition unpin_status (m : gmap Z nat) (s : nvdla_status_notify)
  : gmap Z nat :=
  unpin_handle m (sn_handle s).

Definition unpin_timestamp (m : gmap Z nat) (h : nvdla_mem_handle)
  : gmap Z nat :=
  unpin_handle m (mh_handle h).

(** [nvdla_unmap_task_memory]: eight loops, in the order of the source. *)
Definition nvdla_unmap_task_memory (task : nvdla_task) (m : gmap Z nat)
  : gmap Z nat :=
  let m := foldl unpin_buffer m (memory_handles task) in
  let m := foldl unpin_fence m (prefences task) in
  let m := foldl unpin_status m (in_task_status task) in
  let m := foldl unpin_fence m (postfences task) in
  let m := foldl unpin_status m (sof_task_status task) in
  let m := foldl unpin_status m (eof_task_status task) in
  let m := foldl unpin_timestamp m (sof_timestamps task) in
  foldl unpin_timestamp m (eof_timestamps task).

Definition init_task_desc (task : nvdla_task) (flags sequence : Z)
  (d : dla_task_descriptor) : dla_task_descriptor :=
  TaskDesc (timeout task) flags sequence (queue_id e)
    (sizeof_task_descriptor (abi e))
    (sizeof_task_descriptor (abi e) + sizeof_action_list (abi e))
    (td_next d) (td_address_list d) (td_num_addresses d)
    (preactionl d) (postactionl d) (preaction_mem d) (postaction_mem d)
    (address_mem d) (td_mem d).

(** [nvdla_fill_task_desc]; [sequence] is [queue->sequence].  The unwind
    of a failed construction is [nvdla_unmap_task_memory], which works on
    the buffer registry alone. *)
Definition nvdla_fill_task_desc (task : nvdla_task) (bypass_exec : bool)
  (sequence : Z) (m : gmap Z nat) : Z * nvdla_task * Z * resources :=
  let flags := 0 in
  let flags :=
    if bypass_exec then Z.lor flags (DLA_DESC_FLAGS_BYPASS_EXEC (abi e))
    else flags in
  let sequence := u32 (sequence + 1) in
  let sequence := if sequence >=? UINT_MAX - 1 then 0 else sequence in
  let task :=
    set_task_desc (init_task_desc task flags sequence (task_desc task)) task in
  let task := set_fence_counter 0 task in
  let '(err, task, res) := nvdla_fill_preactions task m in
  let refs := fence_refs res in
  if negb (err =? 0) then
    (err, task, sequence, Res (nvdla_unmap_task_memory task res) refs)
  else
    let '(err, task, m) := nvdla_fill_postactions task res in
    if negb (err =? 0) then
      (err, task, sequence, Res (nvdla_unmap_task_memory task m) refs)
    else
      let '(err, task, m) := nvdla_map_task_memory task m in
      if negb (err =? 0) then
        (err, task, sequence, Res (nvdla_unmap_task_memory task m) refs)
      else (0, task, sequence, Res m refs).

End Build.

(** ** Part II: signal fence values *)

Definition is_syncpt_type (f : nvdev_fence) : bool :=
  bool_decide (type f = NVDEV_FENCE_TYPE_SYNCPT) ||
  bool_decide (type f = NVDEV_FENCE_TYPE_SYNC_FD).

(** One of the two "update signal fences" loops: every fence whose action
    is [NVDEV_FENCE_SIGNAL] and whose type is a syncpoint type receives
    [task_fence - counter], and [counter] goes down by one. *)
Fixpoint update_signal_fences (id task_fence : Z) (fences : list nvdev_fence)
  (counter : Z) : list nvdev_fence * Z :=
  match fences with
  | [] => ([], counter)
  | f :: rest =>
      if negb (bool_decide (action f = NVDEV_FENCE_SIGNAL)) then
        let '(rest', counter') :=
          update_signal_fences id task_fence rest counter in
        (f :: rest', counter')
      else if is_syncpt_type f then
        let f' := set_syncpoint id (u32 (task_fence - counter)) f in
        let '(rest', counter') :=
          update_signal_fences id task_fence rest (u32 (counter - 1)) in
        (f' :: rest', counter')
      else
        let '(rest', counter') :=
          update_signal_fences id task_fence rest counter in
        (f :: rest', counter')
  end.

(** [nvdla_get_signal_fences]; [maxval] is what
    [nvhost_syncpt_read_maxval] returns for the queue's syncpoint.  The
    result is the return code, the task and the local [task_fence]. *)
Definition nvdla_get_signal_fences (e : env) (maxval : Z) (task : nvdla_task)
  : Z * nvdla_task * Z :=
  let task :=
    if fence_counter task =? 0 then set_fence_counter 1 task else task in
  let task_fence := u32 (maxval + fence_counter task) in
  let counter := u32 (fence_counter task - 1) in
  let '(pre, counter) :=
    update_signal_fences (syncpt_id e) task_fence (prefences task) counter in
  let '(post, counter) :=
    update_signal_fences (syncpt_id e) task_fence (postfences task) counter in
  (0, set_fences pre post task, task_fence).

(** [struct nvdla_emu_task]. *)
Record nvdla_emu_task := EmuTask {
  emu_prefences : list nvdev_fence;
  emu_postfences : list nvdev_fence;
  emu_fence : Z;
  emu_fence_counter : Z
}.

(** One of the counting loops of [nvdla_emulator_submit]: the flag says
    whether the [default] case was reached ([return -EINVAL]). *)
Fixpoint count_signal_fences (fences : list nvdev_fence) (fence_counter : Z)
  : bool * Z :=
  match fences with
  | [] => (false, fence_counter)
  | f :: rest =>
      if negb (bool_decide (action f = NVDEV_FENCE_SIGNAL)) then
        count_signal_fences rest fence_counter
      else if is_syncpt_type f then
        count_signal_fences rest (u32 (fence_counter + 1))
      else (true, fence_counter)
  end.

(** Modelled from the spec: [nvhost_syncpt_incr_max_ext] is not in this
    file.  Section 6: [increment_max(counter_id, n)] reserves [n]
    increments of the 32-bit counter and returns the new maximum. *)
Definition nvhost_syncpt_incr_max_ext (maxval incrs : Z) : Z :=
  u32 (maxval + incrs).

(** [nvdla_emulator_submit]; [maxval] is the maximum of the queue's
    syncpoint before the call.  Returns the code, the task and the new
    maximum. *)
Definition nvdla_emulator_submit (e : env) (maxval : Z)
  (task : nvdla_emu_task) : Z * nvdla_emu_task * Z :=
  let '(invalid, fc) := count_signal_fences (emu_prefences task) 0 in
  if invalid then
    (- EINVAL,
     EmuTask (emu_prefences task) (emu_postfences task) (emu_fence task) fc,
     maxval)
  else
    let '(invalid, fc) := count_signal_fences (emu_postfences task) fc in
    if invalid then
      (- EINVAL,
       EmuTask (emu_prefences task) (emu_postfences task) (emu_fence task) fc,
       maxval)
    else
      let fence := nvhost_syncpt_incr_max_ext maxval fc in
      let counter := u32 (fc - 1) in
      let '(pre, counter) :=
        update_signal_fences (syncpt_id e) fence (emu_prefences task)
          counter in
      let '(post, counter) :=
        update_signal_fences (syncpt_id e) fence (emu_postfences task)
          counter in
      (0, EmuTask pre post fence fc, fence).

(** ** Part III: queue operations *)

(** Commands sent to the engine. *)
Inductive dla_cmd :=
| DLA_CMD_SUBMIT_TASK (task_desc_pa : Z)
| DLA_CMD_QUEUE_FLUSH (queue : Z).

(** Calls into the collaborators, in program order. *)
Inductive event :=
| ev_module_busy
| ev_module_idle
| ev_module_idle_mult (n : Z)
| ev_send_cmd (cmd : dla_cmd)
| ev_send_cmd_channel (cmd : dla_cmd)
| ev_register_notifier (thresh : Z)
| ev_syncpt_incr_max (incrs : Z)
| ev_syncpt_set_min (val : Z)
| ev_mdelay (ms : Z)
| ev_task_completed (task : Z)
| ev_task_free (task : Z).

#[global] Instance dla_cmd_eq_dec : EqDecision dla_cmd.
Proof. solve_decision. Defined.
#[global] Instance event_eq_dec : EqDecision event.
Proof. solve_decision. Defined.

(** The driver state one queue works on.  Tasks live in [heap] under
    their address; [tasklist] is [queue->tasklist], head first. *)
Record state := State {
  registry : gmap Z nat;
  syncpt_min : Z;
  syncpt_max : Z;
  power_refs : Z;
  queue_refs : Z;
  tasklist : list Z;
  heap : gmap Z nvdla_task;
  log : list event
}.

Definition set_registry (m : gmap Z nat) (s : state) : state :=
  State m (syncpt_min s) (syncpt_max s) (power_refs s) (queue_refs s)
    (tasklist s) (heap s) (log s).

Definition set_syncpt_min (v : Z) (s : state) : state :=
  State (registry s) v (syncpt_max s) (power_refs s) (queue_refs s)
    (tasklist s) (heap s) (log s).

Definition set_syncpt_max (v : Z) (s : state) : state :=
  State (registry s) (syncpt_min s) v (power_refs s) (queue_refs s)
    (tasklist s) (heap s) (log s).

Definition set_power_refs (v : Z) (s : state) : state :=
  State (registry s) (syncpt_min s) (syncpt_max s) v (queue_refs s)
    (tasklist s) (heap s) (log s).

Definition set_queue_refs (v : Z) (s : state) : state :=
  State (registry s) (syncpt_min s) (syncpt_max s) (power_refs s) v
    (tasklist s) (heap s) (log s).

Definition set_tasklist (l : list Z) (s : state) : state :=
  State (registry s) (syncpt_min s) (syncpt_max s) (power_refs s)
    (queue_refs s) l (heap s) (log s).

Definition set_heap (h : gmap Z nvdla_task) (s : state) : state :=
  State (registry s) (syncpt_min s) (syncpt_max s) (power_refs s)
    (queue_refs s) (tasklist s) h (log s).

Definition emit (ev : event) (s : state) : state :=
  State (registry s) (syncpt_min s) (syncpt_max s) (power_refs s)
    (queue_refs s) (tasklist s) (heap s) (log s ++ [ev]).

(** Modelled from the spec: [nvhost_syncpt_is_expired_ext] is not in this
    file.  Section 4.5: a wraparound-safe comparison of the 32-bit counter
    against the target; a task is complete iff its target has been reached
    or passed. *)
Definition nvhost_syncpt_is_expired_ext (s : state) (thresh : Z) : bool :=
  0 <=? s32 (syncpt_min s - thresh).

(** Modelled from the spec: [nvhost_syncpt_read_maxval] is not in this
    file.  Section 6: [read_max(counter_id)] returns the maximum reserved
    on the counter. *)
Definition nvhost_syncpt_read_maxval (s : state) : Z := syncpt_max s.

(** Modelled from the spec: [nvhost_syncpt_set_min_update] is not in this
    file.  Section 6: [set_min_to(counter_id, value)] forces the counter
    to [value]. *)
Definition nvhost_syncpt_set_min_update (val : Z) (s : state) : state :=
  emit (ev_syncpt_set_min (u32 val)) (set_syncpt_min (u32 val) s).

(** Modelled from the spec: the power service is not in this file.
    Section 6: [acquire], [release], [release_n(count)]. *)
Definition nvhost_module_busy (e : env) (s : state) : Z * state :=
  if nvhost_module_busy_ret e =? 0
  then (0, emit ev_module_busy (set_power_refs (power_refs s + 1) s))
  else (nvhost_module_busy_ret e, s).

Definition nvhost_module_idle (s : state) : state :=
  emit ev_module_idle (set_power_refs (power_refs s - 1) s).

Definition nvhost_module_idle_mult (n : Z) (s : state) : state :=
  emit (ev_module_idle_mult n) (set_power_refs (power_refs s - n) s).

(** [nvdla_task_get]: the queue reference, then the task's [kref]. *)
Definition nvdla_task_get (task : Z) (s : state) : state :=
  let s := set_queue_refs (queue_refs s + 1) s in
  set_heap (alter (fun t => set_ref (S (ref t)) t) task (heap s)) s.

(** [nvdla_task_put]: [kref_put] runs [task_free] when the count reaches
    zero, which hands the task memory back to the pool. *)
Definition nvdla_task_put (task : Z) (s : state) : state :=
  let s :=
    match heap s !! task with
    | Some t =>
        match ref t with
        | S (S n) => set_heap (<[task := set_ref (S n) t]> (heap s)) s
        | _ => emit (ev_task_free task) (set_heap (delete task (heap s)) s)
        end
    | None => s
    end in
  set_queue_refs (queue_refs s - 1) s.

(** [list_del(&task->list)]. *)
Definition list_del (task : Z) (l : list Z) : list Z :=
  filter (fun p => p ≠ task) l.

(** [nvdla_task_free_locked]; the first event is its message
    "task[%p] completed". *)
Definition nvdla_task_free_locked (task : Z) (s : state) : state :=
  let s := emit (ev_task_completed task) s in
  (* unmap all memory shared with engine *)
  let s :=
    match heap s !! task with
    | Some t => set_registry (nvdla_unmap_task_memory t (registry s)) s
    | None => s
    end in
  (* update tasklist *)
  let s := set_tasklist (list_del task (tasklist s)) s in
  (* give task refs *)
  nvdla_task_put task s.

(** The body of [list_for_each_entry_safe] in [nvdla_queue_update], run
    over the entries of the list; [n] is [n_tasks_completed]. *)
Fixpoint queue_update_scan (l : list Z) (n : Z) (s : state) : Z * state :=
  match l with
  | [] => (n, s)
  | task :: rest =>
      match heap s !! task with
      | Some t =>
          if nvhost_syncpt_is_expired_ext s (fence t)
          then queue_update_scan rest (n + 1) (nvdla_task_free_locked task s)
          else queue_update_scan rest n s
      | None => queue_update_scan rest n s
      end
  end.

Definition nvdla_queue_update (s : state) : state :=
  let '(n_tasks_completed, s) := queue_update_scan (tasklist s) 0 s in
  nvhost_module_idle_mult n_tasks_completed s.

Definition null_desc : dla_task_descriptor :=
  TaskDesc 0 0 0 0 0 0 0 0 0 None None [] [] [] [].

Definition null_task : nvdla_task :=
  Task [] [] [] [] [] [] [] [] 0 0 0 null_desc 0 0.

(** [*task] for a task pointer; the operations are only called with
    pointers to live tasks. *)
Definition task_at (s : state) (task : Z) : nvdla_task :=
  default null_task (heap s !! task).

Definition set_next (v : Z) (d : dla_task_descriptor) : dla_task_descriptor :=
  TaskDesc (td_timeout d) (td_flags d) (td_sequence d) (td_queue_id d)
    (td_preactions d) (td_postactions d) v (td_address_list d)
    (td_num_addresses d) (preactionl d) (postactionl d) (preaction_mem d)
    (postaction_mem d) (address_mem d) (td_mem d).

(** Modelled from the spec: [nvdla_send_cmd_channel] is not in this file.
    Section 6: [send_channel(cmd)] returns a result; on success the command
    stream fixes the completion value of the task it was given, which is
    an input of the model. *)
Definition nvdla_send_cmd_channel (e : env) (cmd : dla_cmd) (task : Z)
  (s : state) : Z * state :=
  let s := emit (ev_send_cmd_channel cmd) s in
  if nvdla_send_cmd_channel_ret e =? 0 then
    (0, set_heap
          (alter (set_fence (u32 (nvdla_send_cmd_channel_fence e))) task
             (heap s)) s)
  else (nvdla_send_cmd_channel_ret e, s).

(** Modelled from the spec: [nvdla_send_cmd] is not in this file.
    Section 6: [send_mmio(cmd)] returns a result, with a busy status
    distinct from failure.  [k] counts the calls of one operation. *)
Definition nvdla_send_cmd (e : env) (k : nat) (cmd : dla_cmd) (s : state)
  : Z * state :=
  (nvdla_send_cmd_ret e k, emit (ev_send_cmd cmd) s).

(** Modelled from the spec: [nvhost_intr_register_notifier] is not in this
    file.  Section 6: [register(counter_id, target_value, callback,
    context)]; its result is an input of the model. *)
Definition nvhost_intr_register_notifier (e : env) (thresh : Z) (s : state)
  : Z * state :=
  (nvhost_intr_register_notifier_ret e, emit (ev_register_notifier thresh) s).

Definition nvdla_queue_submit_op (e : env) (task : Z) (s : state)
  : Z * state :=
  let err := 0 in
  (* Get a reference before registration or submission *)
  let s := nvdla_task_get task s in
  (* get fence from nvhost for MMIO mode *)
  let s :=
    if decide (submit_mode e = NVDLA_SUBMIT_MODE_MMIO) then
      let incrs := fence_counter (task_at s task) in
      let v := nvhost_syncpt_incr_max_ext (nvhost_syncpt_read_maxval s) incrs in
      let s := emit (ev_syncpt_incr_max incrs) (set_syncpt_max v s) in
      set_heap (alter (set_fence v) task (heap s)) s
    else s in
  (* update last task desc's next *)
  let s :=
    match last (tasklist s) with
    | Some last_task =>
        let pa := u64 (task_desc_pa (task_at s task)) in
        set_heap
          (alter (fun t => set_task_desc (set_next pa (task_desc t)) t)
             last_task (heap s)) s
    | None => s
    end in
  let s := set_tasklist (tasklist s ++ [task]) s in
  let cmd := DLA_CMD_SUBMIT_TASK (task_desc_pa (task_at s task)) in
  (* get pm refcount *)
  let '(busy, s) := nvhost_module_busy e s in
  if negb (busy =? 0) then
    (* fail_to_poweron *)
    (err, nvdla_task_free_locked task s)
  else
    let '(err, s) :=
      if decide (submit_mode e = NVDLA_SUBMIT_MODE_CHANNEL)
      then nvdla_send_cmd_channel e cmd task s
      else (err, s) in
    if negb (err =? 0) then
      (* fail_to_channel_submit *)
      (err, nvdla_task_free_locked task (nvhost_module_idle s))
    else
      (* register notifier with fence *)
      let '(err, s) :=
        nvhost_intr_register_notifier e (fence (task_at s task)) s in
      if negb (err =? 0) then
        (* fail_to_register *)
        (err, nvdla_task_free_locked task (nvhost_module_idle s))
      else if decide (submit_mode e = NVDLA_SUBMIT_MODE_MMIO) then
        let '(err, s) := nvdla_send_cmd e 0 cmd s in
        if negb (err =? 0) then
          (err, nvhost_syncpt_set_min_update (fence (task_at s task)) s)
        else (err, s)
      else (err, s).

(** The flush loop of [nvdla_queue_abort_op]:
    [do { ... } while (--retry);] entered with [retry] attempts left, the
    next call of [nvdla_send_cmd] being the [k]-th.  Returns [err] and
    [retry] at the exit. *)
Fixpoint flush_engine (e : env) (retry : nat) (k : nat) (s : state)
  : Z * nat * state :=
  match retry with
  | O => (0, O, s)
  | S r =>
      let '(err, s) := nvdla_send_cmd e k (DLA_CMD_QUEUE_FLUSH (queue_id e)) s in
      if err =? DLA_ERR_PROCESSOR_BUSY e then
        let s := emit (ev_mdelay NVDLA_QUEUE_ABORT_RETRY_PERIOD) s in
        match r with
        | O => (err, O, s)
        | S _ => flush_engine e r (S k) s
        end
      else (err, S r, s)
  end.

Definition nvdla_queue_abort_op (e : env) (s : state) : Z * state :=
  let retry :=
    Z.to_nat (NVDLA_QUEUE_ABORT_TIMEOUT / NVDLA_QUEUE_ABORT_RETRY_PERIOD) in
  match tasklist s with
  | [] => (0, s)
  | _ :: _ =>
      (* get pm refcount *)
      let '(err, s) := nvhost_module_busy e s in
      if negb (err =? 0) then (err, s)
      else
        (* flush engine side queues *)
        let '(err, retry, s) := flush_engine e retry 0 s in
        if (retry =? 0)%nat || negb (err =? 0) then
          (err, nvhost_module_idle s)
        else
          (* if task present free them by reset syncpoint *)
          let s :=
            match tasklist s with
            | [] => s
            | _ :: _ =>
                let fence := nvhost_syncpt_read_maxval s in
                nvhost_syncpt_set_min_update fence s
            end in
          (err, nvhost_module_idle s)
  end.

(** The first half of [nvdla_queue_submit_op], up to [list_add_tail]. *)
Definition submit_enqueue (e : env) (task : Z) (s : state) : state :=
  let s := nvdla_task_get task s in
  let s :=
    if decide (submit_mode e = NVDLA_SUBMIT_MODE_MMIO) then
      let incrs := fence_counter (task_at s task) in
      let v := nvhost_syncpt_incr_max_ext (nvhost_syncpt_read_maxval s) incrs in
      let s := emit (ev_syncpt_incr_max incrs) (set_syncpt_max v s) in
      set_heap (alter (set_fence v) task (heap s)) s
    else s in
  let s :=
    match last (tasklist s) with
    | Some last_task =>
        let pa := u64 (task_desc_pa (task_at s task)) in
        set_heap
          (alter (fun t => set_task_desc (set_next pa (task_desc t)) t)
             last_task (heap s)) s
    | None => s
    end in
  set_tasklist (tasklist s ++ [task]) s.

(** ** Part IV: the remaining functions of the file *)

Definition EAGAIN : Z := 11.

(** [nvdla_compute_task_id]: both arguments are [u16]; the result is a
    [uint32_t]. *)
Definition nvdla_compute_task_id (sequence_id queue_id : Z) : Z :=
  u32 (Z.lor (Z.shiftl (u16 queue_id) 16) (u16 sequence_id)).

(** [struct nvdla_queue_task_mem_info]; [kmem_addr] is the task pointer,
    0 for [NULL]. *)
Record nvdla_queue_task_mem_info := TaskMemInfo {
  kmem_addr : Z;
  va : Z;
  dma_addr : Z;
  pool_index : Z
}.

(** The [do ... while] loop of [nvdla_get_task_mem].  [alloc k] is what
    the [k]-th call of [nvdla_queue_alloc_task_memory] returns (the pool
    is not in this file); [fuel] bounds the recursion and is never the
    reason to stop when it starts at [n_retries].  The result carries
    the number of calls made. *)
Fixpoint get_task_mem_retry (alloc : nat -> Z * nvdla_queue_task_mem_info)
  (fuel : nat) (n_retries : Z) (k : nat)
  : Z * nvdla_queue_task_mem_info * nat :=
  let n_retries := n_retries - 1 in
  let '(err, info) := alloc k in
  match fuel with
  | S fuel' =>
      if (0 <? n_retries) && (err =? - EAGAIN)
      then get_task_mem_retry alloc fuel' n_retries (S k)
      else (err, info, S k)
  | O => (err, info, S k)
  end.

(** [nvdla_get_task_mem]; the two constants of nvdla.h are parameters.
    Returns the code, what [*ptask] was set to (the memory whose
    [task_desc], [task_desc_pa] and [pool_index] were filled in), and the
    number of allocation calls. *)
Definition nvdla_get_task_mem
  (NVDLA_TASK_MEM_AVAIL_TIMEOUT_MS NVDLA_TASK_MEM_AVAIL_RETRY_PERIOD : Z)
  (alloc : nat -> Z * nvdla_queue_task_mem_info)
  : Z * option nvdla_queue_task_mem_info * nat :=
  let n_retries :=
    Z.quot NVDLA_TASK_MEM_AVAIL_TIMEOUT_MS NVDLA_TASK_MEM_AVAIL_RETRY_PERIOD in
  let '(err, task_mem_info, calls) :=
    get_task_mem_retry alloc (Z.to_nat n_retries) n_retries 0 in
  let task := kmem_addr task_mem_info in
  if (err <? 0) || (task =? 0) then (err, None, calls)
  else if negb (Z.land (dma_addr task_mem_info) 255 =? 0)
  then (- EFAULT, None, calls)
  else (err, Some task_mem_info, calls).

(** [nvdla_get_task_desc_size]; [sizeof(struct nvhost_notification)] is a
    parameter.  The sizes are far below the range of [size_t]. *)
Definition nvdla_get_task_desc_size (e : env)
  (sizeof_nvhost_notification : Z) : Z :=
  let a := abi e in
  let size := sizeof_task_descriptor a in
  let size := size + 2 * MAX_NUM_ACTION_LIST a * sizeof_action_list a in
  let size := size + nvdla_get_max_preaction_size e in
  let size := size + nvdla_get_max_postaction_size e in
  let size := roundup size 256 in
  let size := size + MAX_NUM_NVDLA_BUFFERS_PER_TASK a * sizeof_mem_addr a in
  let size := roundup size 256 in
  let size := size + sizeof_nvhost_notification in
  roundup size 256.

(** [nvdla_set_queue_state]; the two command codes of the firmware
    interface are parameters.  Beside the code and the state, the result
    lists the commands handed to [nvdla_send_cmd] as (method id, method
    data); the answer of the engine is [nvdla_send_cmd_ret e 0]. *)
Definition nvdla_set_queue_state (e : env)
  (DLA_CMD_QUEUE_SUSPEND DLA_CMD_QUEUE_RESUME : Z) (cmd : Z) (s : state)
  : Z * state * list (Z * Z) :=
  if negb (cmd =? DLA_CMD_QUEUE_SUSPEND) && negb (cmd =? DLA_CMD_QUEUE_RESUME)
  then (- EINVAL, s, [])
  else
    (* get pm refcount *)
    let '(err, s) := nvhost_module_busy e s in
    if negb (err =? 0) then (err, s, [])
    else
      let sent := [(cmd, queue_id e)] in
      let err := nvdla_send_cmd_ret e 0 in
      (err, nvhost_module_idle s, sent).

(** ** Notions used to state the queue properties *)

(** [task_complete] of [nvdla_queue_update] for the task at [task]. *)
Definition task_complete (s : state) (task : Z) : bool :=
  nvhost_syncpt_is_expired_ext s (fence (task_at s task)).

(** How far the counter is past the target of a task, as the 32-bit
    comparison sees it. *)
Definition age (s : state) (task : Z) : Z :=
  s32 (syncpt_min s - fence (task_at s task)).

(** The targets do not decrease along the list: no task is further behind
    the counter than a task submitted before it. *)
Fixpoint targets_in_order (s : state) (l : list Z) : Prop :=
  match l with
  | [] => True
  | p :: rest =>
      Forall (fun q => age s q <= age s p) rest /\ targets_in_order s rest
  end.

(** A kernel list holds each node once, and every node is a live task. *)
Definition queue_wf (s : state) : Prop :=
  NoDup (tasklist s) /\ Forall (fun p => is_Some (heap s !! p)) (tasklist s).

(** The tasks handed to [nvdla_task_free_locked], in order. *)
Definition completed_tasks (l : list event) : list Z :=
  omap (fun ev =>
          match ev with ev_task_completed p => Some p | _ => None end) l.

Definition is_power_event (ev : event) : bool :=
  match ev with
  | ev_module_busy | ev_module_idle | ev_module_idle_mult _ => true
  | _ => false
  end.

(** The calls into the power service, in order. *)
Definition power_events (l : list event) : list event :=
  filter (fun ev => is_power_event ev = true) l.

(** What [kref_put] leaves of a task: the task with one reference less,
    or nothing when that was the last one ([task_free] has run). *)
Definition task_put_result (t : nvdla_task) : option nvdla_task :=
  match ref t with
  | S (S n) => Some (set_ref (S n) t)
  | _ => None
  end.

(** The queue holds the last reference of the task at [p]. *)
Definition last_reference (s : state) (p : Z) : bool :=
  (ref (task_at s p) <=? 1)%nat.

(** The tasks whose memory went back to the pool, in order. *)
Definition freed_tasks (l : list event) : list Z :=
  omap (fun ev => match ev with ev_task_free p => Some p | _ => None end) l.




(** The fences the two "update signal fences" loops write to: action
    [NVDEV_FENCE_SIGNAL] and a syncpoint type. *)
Definition is_signal_syncpt (f : nvdev_fence) : bool :=
  bool_decide (action f = NVDEV_FENCE_SIGNAL) && is_syncpt_type f.

(** The values of those fences, prefences first, in array order. *)
Definition signal_values (fences : list nvdev_fence) : list Z :=
  map syncpoint_value (filter (fun f => is_signal_syncpt f = true) fences).

(** ** The records of the fill functions

    Read off the fill functions: the records each of them appends for an
    item when it does not fail (a sync fd yields one wait per syncpoint;
    a sync fd that is not there and a semaphore whose buffer does not pin
    yield none), and the segments of the two lists in the order of the
    loops. *)

Definition wait_fence_records (e : env) (f : nvdev_fence) : list dla_action :=
  match type f with
  | NVDEV_FENCE_TYPE_SYNCPT =>
      [action_semaphore ACTION_SEM_GE
         (u64 (nvhost_syncpt_address e (syncpoint_index f)))
         (u32 (syncpoint_value f))]
  | NVDEV_FENCE_TYPE_SYNC_FD =>
      match nvhost_fence_get e (sync_fd f) with
      | Some pts =>
          map (fun pt : Z * Z =>
                 action_semaphore ACTION_SEM_GE
                   (u64 (nvhost_syncpt_address e pt.1)) (u32 pt.2)) pts
      | None => []
      end
  | NVDEV_FENCE_TYPE_SEMAPHORE
  | NVDEV_FENCE_TYPE_SEMAPHORE_TS =>
      match buffer_lookup e (semaphore_handle f) with
      | Some dma_addr =>
          [action_semaphore ACTION_SEM_GE (u64 (dma_addr + semaphore_offset f))
             (u32 (semaphore_value f))]
      | None => []
      end
  | NVDEV_FENCE_TYPE_UNKNOWN _ => []
  end.

Definition signal_fence_records (e : env) (f : nvdev_fence)
  : list dla_action :=
  match type f with
  | NVDEV_FENCE_TYPE_SYNCPT
  | NVDEV_FENCE_TYPE_SYNC_FD =>
      [action_semaphore ACTION_WRITE_SEM
         (u64 (nvhost_syncpt_address e (syncpt_id e))) (u32 1)]
  | NVDEV_FENCE_TYPE_SEMAPHORE =>
      match buffer_lookup e (semaphore_handle f) with
      | Some dma_addr =>
          [action_semaphore
             (if decide (action f = NVDEV_FENCE_SIGNAL_STRIDE)
              then ACTION_INCREMENT_SEM else ACTION_WRITE_SEM)
             (u64 (dma_addr + semaphore_offset f)) (u32 (semaphore_value f))]
      | None => []
      end
  | NVDEV_FENCE_TYPE_SEMAPHORE_TS =>
      match buffer_lookup e (semaphore_handle f) with
      | Some dma_addr =>
          [action_semaphore ACTION_WRITE_TS_SEM
             (u64 (dma_addr + semaphore_offset f)) (u32 (semaphore_value f))]
      | None => []
      end
  | NVDEV_FENCE_TYPE_UNKNOWN _ => []
  end.

Definition status_records (e : env) (op : opcode) (st : nvdla_status_notify)
  : list dla_action :=
  match buffer_lookup e (sn_handle st) with
  | Some dma_addr =>
      [action_task_status op (u64 (dma_addr + sn_offset st))
         (u16 (sn_status st))]
  | None => []
  end.

Definition timestamp_records (e : env) (ts : nvdla_mem_handle)
  : list dla_action :=
  match buffer_lookup e (mh_handle ts) with
  | Some dma_addr =>
      [action_timestamp ACTION_WRITE_TIMESTAMP (u64 (dma_addr + mh_offset ts))]
  | None => []
  end.

(** The loops of [nvdla_fill_preactions], then [add_opcode]. *)
Definition preaction_records (e : env) (task : nvdla_task) : list dla_action :=
  concat (map (wait_fence_records e)
            (filter (fun f => is_wait f = true) (prefences task))) ++
  concat (map (status_records e ACTION_TASK_STATUS_EQ) (in_task_status task)) ++
  concat (map (status_records e ACTION_WRITE_TASK_STATUS)
            (sof_task_status task)) ++
  concat (map (timestamp_records e) (sof_timestamps task)) ++
  concat (map (signal_fence_records e)
            (filter (fun f => is_signal f = true) (prefences task))) ++
  [action_opcode ACTION_TERMINATE].

(** [add_status_action], the loops of [nvdla_fill_postactions], then
    [add_opcode]. *)
Definition postaction_records (e : env) (task : nvdla_task)
  : list dla_action :=
  [action_task_status ACTION_WRITE_TASK_STATUS
     (u64 (task_desc_pa task + nvdla_profile_status_offset e)) (u16 0)] ++
  concat (map (timestamp_records e) (eof_timestamps task)) ++
  concat (map (status_records e ACTION_WRITE_TASK_STATUS)
            (eof_task_status task)) ++
  concat (map (signal_fence_records e) (postfences task)) ++
  [action_opcode ACTION_TERMINATE].

(** What a loop body does to the cursor when it does not fail: it appends
    the records [out x]. *)
Definition appends {A : Type} (body : A -> fill_ctx -> Z * fill_ctx)
  (out : A -> list dla_action) : Prop :=
  forall (x : A) (c : fill_ctx),
    (body x c).1 < 0 \/
    ((body x c).1 = 0 /\ mem_next (body x c).2 = mem_next c ++ out x).

(** A loop, or a sequence of loops, entered with [err = 0]: it either
    leaves through [fail] with a negative [err], or falls through with
    [err = 0] having appended the records [out]. *)
Definition step_appends (st : Z -> fill_ctx -> bool * Z * fill_ctx)
  (out : list dla_action) : Prop :=
  forall c : fill_ctx,
    ((st 0 c).1.1 = true /\ (st 0 c).1.2 < 0) \/
    ((st 0 c).1.1 = false /\ (st 0 c).1.2 = 0 /\
     mem_next (st 0 c).2 = mem_next c ++ out).

(** ** Counting the unpins of the unwind

    How many times [nvdla_unmap_task_memory] unpins handle [h] for one
    item of a task, and for the whole task. *)

Definition unpins_handle (h' h : Z) : nat :=
  if h' =? 0 then 0%nat else if h' =? h then 1%nat else 0%nat.

Definition fence_unpins (h : Z) (f : nvdev_fence) : nat :=
  if is_semaphore_fence f then unpins_handle (semaphore_handle f) h
  else 0%nat.

Definition buffer_unpins (h : Z) (b : nvdla_mem_handle) : nat :=
  if decide (mh_type b = NVDLA_BUFFER_TYPE_INTERNAL) then 0%nat
  else unpins_handle (mh_handle b) h.

Definition status_unpins (h : Z) (st : nvdla_status_notify) : nat :=
  unpins_handle (sn_handle st) h.

Definition timestamp_unpins (h : Z) (ts : nvdla_mem_handle) : nat :=
  unpins_handle (mh_handle ts) h.

Definition task_unpins (h : Z) (task : nvdla_task) : nat :=
  (sum_list_with (buffer_unpins h) (memory_handles task) +
   sum_list_with (fence_unpins h) (prefences task) +
   sum_list_with (status_unpins h) (in_task_status task) +
   sum_list_with (fence_unpins h) (postfences task) +
   sum_list_with (status_unpins h) (sof_task_status task) +
   sum_list_with (status_unpins h) (eof_task_status task) +
   sum_list_with (timestamp_unpins h) (sof_timestamps task) +
   sum_list_with (timestamp_unpins h) (eof_timestamps task))%nat.

(** Two tasks with the same fences, status, timestamp and buffer items. *)
Definition same_items (t t' : nvdla_task) : Prop :=
  memory_handles t = memory_handles t' /\
  prefences t = prefences t' /\
  in_task_status t = in_task_status t' /\
  postfences t = postfences t' /\
  sof_task_status t = sof_task_status t' /\
  eof_task_status t = eof_task_status t' /\
  sof_timestamps t = sof_timestamps t' /\
  eof_timestamps t = eof_timestamps t'.

(** A loop, or a sequence of loops, pins handle [h] at most [n] times. *)
Definition step_pins (st : Z -> fill_ctx -> bool * Z * fill_ctx) (h : Z)
  (n : nat) : Prop :=
  forall (err : Z) (c : fill_ctx),
    (pin_count (pins (st err c).2) h <= pin_count (pins c) h + n)%nat.

(** The flush commands sent to the engine, counted in a log. *)
Definition is_flush_cmd (ev : event) : bool :=
  match ev with
  | ev_send_cmd (DLA_CMD_QUEUE_FLUSH _) => true
  | _ => false
  end.

Definition flush_attempts (l : list event) : nat :=
  length (filter (fun ev => is_flush_cmd ev = true) l).

(** What the queue holds beyond one reference per queued task: the power
    references, and the queue references, not accounted for by the tasks
    in the list. *)
Definition spare_power_refs (s : state) : Z :=
  power_refs s - Z.of_nat (length (tasklist s)).

Definition spare_queue_refs (s : state) : Z :=
  queue_refs s - Z.of_nat (length (tasklist s)).

(** ** Which items make the construction fail

    Read off the fill functions: the items for which a loop body returns
    a negative code, whatever the cursor and the registry are. *)

(** The callback of a sync fd refuses a point with id 0 or an invalid id. *)
Definition pt_rejected (e : env) (pt : Z * Z) : bool :=
  (pt.1 =? 0) || negb (nvhost_syncpt_is_valid_pt_ext e pt.1).

Definition wait_fence_rejected (e : env) (f : nvdev_fence) : bool :=
  match type f with
  | NVDEV_FENCE_TYPE_UNKNOWN _ => true
  | NVDEV_FENCE_TYPE_SYNC_FD =>
      match nvhost_fence_get e (sync_fd f) with
      | Some pts => existsb (pt_rejected e) pts
      | None => false
      end
  | _ => false
  end.

Definition signal_fence_rejected (f : nvdev_fence) : bool :=
  match type f with
  | NVDEV_FENCE_TYPE_UNKNOWN _ => true
  | _ => false
  end.

Definition handle_rejected (e : env) (h : Z) : bool :=
  bool_decide (buffer_lookup e h = None).

Definition status_rejected (e : env) (st : nvdla_status_notify) : bool :=
  handle_rejected e (sn_handle st).

Definition timestamp_rejected (e : env) (ts : nvdla_mem_handle) : bool :=
  handle_rejected e (mh_handle ts).

Definition buffer_rejected (e : env) (b : nvdla_mem_handle) : bool :=
  if decide (mh_type b = NVDLA_BUFFER_TYPE_INTERNAL) then false
  else (mh_handle b =? 0) || handle_rejected e (mh_handle b).

Definition preactions_rejected (e : env) (task : nvdla_task) : bool :=
  existsb (wait_fence_rejected e)
    (filter (fun f => is_wait f = true) (prefences task)) ||
  (existsb (status_rejected e) (in_task_status task) ||
  (existsb (status_rejected e) (sof_task_status task) ||
  (existsb (timestamp_rejected e) (sof_timestamps task) ||
   existsb signal_fence_rejected
     (filter (fun f => is_signal f = true) (prefences task))))).

Definition postactions_rejected (e : env) (task : nvdla_task) : bool :=
  existsb (timestamp_rejected e) (eof_timestamps task) ||
  (existsb (status_rejected e) (eof_task_status task) ||
   existsb signal_fence_rejected (postfences task)).

Definition task_rejected (e : env) (task : nvdla_task) : bool :=
  preactions_rejected e task || postactions_rejected e task ||
  existsb (buffer_rejected e) (memory_handles task).

(** The entry of the address list for one buffer. *)
Definition buffer_address (e : env) (b : nvdla_mem_handle) : Z :=
  if decide (mh_type b = NVDLA_BUFFER_TYPE_INTERNAL) then u64 (mh_offset b)
  else u64 (default 0 (buffer_lookup e (mh_handle b)) + mh_offset b).

(** The increments a signal reserves on the queue's syncpoint: one for a
    fence of a syncpoint type, none for a semaphore. *)
Definition signal_incrs (f : nvdev_fence) : nat :=
  if is_syncpt_type f then 1%nat else 0%nat.

Definition task_incrs (task : nvdla_task) : nat :=
  (sum_list_with signal_incrs
     (filter (fun f => is_signal f = true) (prefences task)) +
   sum_list_with signal_incrs (postfences task))%nat.

(** A loop body: it returns [-EINVAL] for a rejected item, and for any
    other returns 0 having advanced [fence_counter] by [cnt]. *)
Definition body_spec {A : Type} (body : A -> fill_ctx -> Z * fill_ctx)
  (rej : A -> bool) (cnt : A -> nat) : Prop :=
  forall (x : A) (c : fill_ctx),
    0 <= counter c < 2 ^ 32 ->
    if rej x then (body x c).1 = - EINVAL
    else (body x c).1 = 0 /\
         counter (body x c).2 = u32 (counter c + Z.of_nat (cnt x)).

(** A loop, or a sequence of loops, entered with [err = 0]. *)
Definition step_spec (st : Z -> fill_ctx -> bool * Z * fill_ctx)
  (rej : bool) (k : nat) : Prop :=
  forall c : fill_ctx,
    0 <= counter c < 2 ^ 32 ->
    if rej then (st 0 c).1.1 = true /\ (st 0 c).1.2 = - EINVAL
    else (st 0 c).1.1 = false /\ (st 0 c).1.2 = 0 /\
         counter (st 0 c).2 = u32 (counter c + Z.of_nat k).

(** The offset of the address list in the task memory, as
    [nvdla_map_task_memory] computes it for a descriptor whose headers
    [nvdla_fill_task_desc] has placed. *)
Definition address_list_offset (e : env) : Z :=
  roundup
    (sizeof_task_descriptor (abi e) + sizeof_action_list (abi e) +
     sizeof_action_list (abi e) + nvdla_get_max_preaction_size e +
     sizeof_action_list (abi e) + nvdla_get_max_postaction_size e) 256.

(** Two descriptors with the same header fields. *)
Definition same_header (d d' : dla_task_descriptor) : Prop :=
  td_timeout d = td_timeout d' /\
  td_flags d = td_flags d' /\
  td_sequence d = td_sequence d' /\
  td_queue_id d = td_queue_id d' /\
  td_preactions d = td_preactions d' /\
  td_postactions d = td_postactions d' /\
  td_next d = td_next d'.

(** ** What a construction holds

    Read off the fill functions. *)






(** ** The limits of a task

    The per-task maxima of nvdla.h bound the item counts of a task (the
    ioctl layer, which is not in this file, enforces them); the action
    records have sizes, and at least one profiling post-action is
    accounted for. *)
Definition within_limits (e : env) (task : nvdla_task) : Prop :=
  let a := abi e in
  Z.of_nat (length (prefences task)) <= MAX_NVDLA_PREFENCES_PER_TASK a /\
  Z.of_nat (length (postfences task)) <= MAX_NVDLA_POSTFENCES_PER_TASK a /\
  Z.of_nat (length (in_task_status task)) <= MAX_NVDLA_IN_STATUS_PER_TASK a /\
  Z.of_nat (length (sof_task_status task)) <=
    MAX_NVDLA_OUT_STATUS_PER_TASK a /\
  Z.of_nat (length (eof_task_status task)) <=
    MAX_NVDLA_OUT_STATUS_PER_TASK a /\
  Z.of_nat (length (sof_timestamps task)) <=
    MAX_NVDLA_OUT_TIMESTAMPS_PER_TASK a /\
  Z.of_nat (length (eof_timestamps task)) <=
    MAX_NVDLA_OUT_TIMESTAMPS_PER_TASK a.

Definition action_sizes_ok (a : dla_abi) : Prop :=
  0 <= sizeof_action_opcode a /\
  0 <= sizeof_action_semaphore a /\
  0 <= sizeof_action_task_status a /\
  0 <= sizeof_action_timestamp a /\
  1 <= NUM_PROFILING_POSTACTION a.

(** Every sync fd named by a prefence of the task holds at most one
    syncpoint. *)
Definition single_point_waits (e : env) (task : nvdla_task) : Prop :=
  forall (f : nvdev_fence) (pts : list (Z * Z)),
    f ∈ prefences task ->
    nvhost_fence_get e (sync_fd f) = Some pts ->
    (length pts <= 1)%nat.

(** A loop, or a sequence of loops, moves the cursor by at most [n]
    bytes. *)
Definition step_size (e : env) (st : Z -> fill_ctx -> bool * Z * fill_ctx)
  (n : Z) : Prop :=
  forall (err : Z) (c : fill_ctx),
    region_size e (mem_next (st err c).2) <= region_size e (mem_next c) + n.

(** A signal the emulator cannot serve: action [NVDEV_FENCE_SIGNAL] on a
    fence that is neither a syncpoint nor a sync fd. *)
Definition is_signal_other (f : nvdev_fence) : bool :=
  bool_decide (action f = NVDEV_FENCE_SIGNAL) && negb (is_syncpt_type f).

(** ** The action lists of the specification

    Sections 3 and 4.2 of the specification, written from their words:
    which record each item of a task resolves to, and the order of the
    segments of the two lists.  Where the specification makes the
    resolution fail (a kind that is not recognised, a buffer that does
    not pin) or names no record (a sync fd that is not there, a signal on
    a sync fd, an action that is neither wait nor signal), there is no
    list.  The fields of a record the specification leaves open (the
    value a syncpoint signal writes, the status of the completion write)
    are those of the code. *)

(** A wait is a [wait-semaphore-ge] record: on the counter of a
    syncpoint, on every counter of a sync fd, at [address + offset] in
    the pinned buffer of a semaphore. *)
Definition spec_wait_actions (e : env) (f : nvdev_fence)
  : option (list dla_action) :=
  match type f with
  | NVDEV_FENCE_TYPE_SYNCPT =>
      Some [action_semaphore ACTION_SEM_GE
              (u64 (nvhost_syncpt_address e (syncpoint_index f)))
              (u32 (syncpoint_value f))]
  | NVDEV_FENCE_TYPE_SYNC_FD =>
      match nvhost_fence_get e (sync_fd f) with
      | Some pts =>
          Some (map (fun pt : Z * Z =>
                       action_semaphore ACTION_SEM_GE
                         (u64 (nvhost_syncpt_address e pt.1)) (u32 pt.2))
                  pts)
      | None => None
      end
  | NVDEV_FENCE_TYPE_SEMAPHORE
  | NVDEV_FENCE_TYPE_SEMAPHORE_TS =>
      match buffer_lookup e (semaphore_handle f) with
      | Some dma_addr =>
          Some [action_semaphore ACTION_SEM_GE
                  (u64 (dma_addr + semaphore_offset f))
                  (u32 (semaphore_value f))]
      | None => None
      end
  | NVDEV_FENCE_TYPE_UNKNOWN _ => None
  end.

(** A signal is one record: [write-semaphore] on the queue's own counter
    for a syncpoint; [write-semaphore], [increment-semaphore] (stride) or
    [write-timestamped-semaphore] at [address + offset] in the pinned
    buffer of a semaphore. *)
Definition spec_signal_actions (e : env) (f : nvdev_fence)
  : option (list dla_action) :=
  match type f with
  | NVDEV_FENCE_TYPE_SYNCPT =>
      Some [action_semaphore ACTION_WRITE_SEM
              (u64 (nvhost_syncpt_address e (syncpt_id e))) (u32 1)]
  | NVDEV_FENCE_TYPE_SEMAPHORE =>
      match buffer_lookup e (semaphore_handle f) with
      | Some dma_addr =>
          Some [action_semaphore
                  (if decide (action f = NVDEV_FENCE_SIGNAL_STRIDE)
                   then ACTION_INCREMENT_SEM else ACTION_WRITE_SEM)
                  (u64 (dma_addr + semaphore_offset f))
                  (u32 (semaphore_value f))]
      | None => None
      end
  | NVDEV_FENCE_TYPE_SEMAPHORE_TS =>
      match buffer_lookup e (semaphore_handle f) with
      | Some dma_addr =>
          Some [action_semaphore ACTION_WRITE_TS_SEM
                  (u64 (dma_addr + semaphore_offset f))
                  (u32 (semaphore_value f))]
      | None => None
      end
  | NVDEV_FENCE_TYPE_SYNC_FD
  | NVDEV_FENCE_TYPE_UNKNOWN _ => None
  end.

(** A status item is one [task-status-equal] or [write-task-status]
    record, a timestamp item one [write-timestamp] record, in the pinned
    buffer of the item. *)
Definition spec_status_actions (e : env) (op : opcode)
  (st : nvdla_status_notify) : option (list dla_action) :=
  match buffer_lookup e (sn_handle st) with
  | Some dma_addr =>
      Some [action_task_status op (u64 (dma_addr + sn_offset st))
              (u16 (sn_status st))]
  | None => None
  end.

Definition spec_timestamp_actions (e : env) (ts : nvdla_mem_handle)
  : option (list dla_action) :=
  match buffer_lookup e (mh_handle ts) with
  | Some dma_addr =>
      Some [action_timestamp ACTION_WRITE_TIMESTAMP
              (u64 (dma_addr + mh_offset ts))]
  | None => None
  end.

(** One segment of a list: the records of its items, in the order of the
    items. *)
Fixpoint spec_segment {A : Type} (resolve : A -> option (list dla_action))
  (items : list A) : option (list dla_action) :=
  match items with
  | [] => Some []
  | x :: rest =>
      match resolve x, spec_segment resolve rest with
      | Some records, Some more => Some (records ++ more)
      | _, _ => None
      end
  end.

Definition known_action (f : nvdev_fence) : bool :=
  match action f with
  | NVDEV_FENCE_ACTION_UNKNOWN _ => false
  | _ => true
  end.

(** Pre-list: explicit wait fences, input status checks, start-of-frame
    status writes, start-of-frame timestamp writes, signal-type
    prefences, terminated by the sentinel opcode. *)
Definition spec_preactions (e : env) (task : nvdla_task)
  : option (list dla_action) :=
  if forallb known_action (prefences task) then
    match
      spec_segment (spec_wait_actions e)
        (filter (fun f => is_wait f = true) (prefences task)),
      spec_segment (spec_status_actions e ACTION_TASK_STATUS_EQ)
        (in_task_status task),
      spec_segment (spec_status_actions e ACTION_WRITE_TASK_STATUS)
        (sof_task_status task),
      spec_segment (spec_timestamp_actions e) (sof_timestamps task),
      spec_segment (spec_signal_actions e)
        (filter (fun f => is_signal f = true) (prefences task))
    with
    | Some waits, Some checks, Some writes, Some stamps, Some signals =>
        Some (waits ++ checks ++ writes ++ stamps ++ signals ++
              [action_opcode ACTION_TERMINATE])
    | _, _, _, _, _ => None
    end
  else None.

(** Post-list: the internal completion-status write, which targets the
    task's own notifier region, end-of-frame timestamp writes,
    end-of-frame status writes, postfence signals, terminated by the
    sentinel opcode.  Postfences are always signals. *)
Definition spec_postactions (e : env) (task : nvdla_task)
  : option (list dla_action) :=
  if forallb is_signal (postfences task) then
    match
      spec_segment (spec_timestamp_actions e) (eof_timestamps task),
      spec_segment (spec_status_actions e ACTION_WRITE_TASK_STATUS)
        (eof_task_status task),
      spec_segment (spec_signal_actions e) (postfences task)
    with
    | Some stamps, Some writes, Some signals =>
        Some ([action_task_status ACTION_WRITE_TASK_STATUS
                 (u64 (task_desc_pa task + nvdla_profile_status_offset e))
                 (u16 0)] ++
              stamps ++ writes ++ signals ++
              [action_opcode ACTION_TERMINATE])
    | _, _, _ => None
    end
  else None.

(** ** Reading the task memory

    What the buffer holds once the stores of [td_mem] are done, and the
    lists the engine finds there through the two headers.  The stores
    are those of the code; a store is taken whole, and a cell that a
    later store has gone over in part is not read back. *)

(** [start] of [nvdla_fill_preactions] and of [nvdla_fill_postactions],
    and [offset] of [nvdla_map_task_memory], from the base of the
    buffer. *)
Definition preaction_start (e : env) (d : dla_task_descriptor) : Z :=
  u16 (td_postactions d + sizeof_action_list (abi e)).

Definition postaction_start (e : env) (d : dla_task_descriptor) : Z :=
  u16 (td_postactions d + sizeof_action_list (abi e) +
       nvdla_get_max_preaction_size e).

Definition address_start (e : env) (d : dla_task_descriptor) : Z :=
  roundup
    (td_postactions d +
     sizeof_action_list (abi e) + nvdla_get_max_preaction_size e +
     sizeof_action_list (abi e) + nvdla_get_max_postaction_size e) 256.

(** Two extents of the buffer share a byte. *)
Definition overlaps (o1 n1 o2 n2 : Z) : bool :=
  (o1 <? o2 + n2) && (o2 <? o1 + n1).

(** What the buffer holds at offset [o] once [stores] are done, [cur]
    being what it held before: the last cell stored there, unless a later
    store went over a part of it. *)
Fixpoint load_from (e : env) (stores : list (Z * dla_cell)) (o : Z)
  (cur : option dla_cell) : option dla_cell :=
  match stores with
  | [] => cur
  | (o', c') :: rest =>
      let cur' :=
        if o' =? o then Some c'
        else
          match cur with
          | Some c =>
              if overlaps o (cell_size e c) o' (cell_size e c') then None
              else cur
          | None => None
          end in
      load_from e rest o cur'
  end.

Definition load (e : env) (stores : list (Z * dla_cell)) (o : Z)
  : option dla_cell :=
  load_from e stores o None.

(** Modelled from the spec: the engine firmware, which reads the lists,
    is not in this file.  Glossary and section 3: an action list is an
    ordered sequence of fixed-format records that the firmware interprets
    positionally, one record after the other.  The records found from
    offset [o] on, [size] bytes of them. *)
Fixpoint read_actions (e : env) (stores : list (Z * dla_cell)) (fuel : nat)
  (o size : Z) : option (list dla_action) :=
  if size <=? 0 then Some []
  else
    match fuel with
    | O => None
    | S fuel' =>
        match load e stores o with
        | Some (cell_action a) =>
            match
              read_actions e stores fuel' (o + action_size e a)
                (size - action_size e a)
            with
            | Some rest => Some (a :: rest)
            | None => None
            end
        | _ => None
        end
    end.

(** Modelled from the spec: section 4.3, the builder lays the lists out
    at fixed byte offsets; the header of a list records its offset and
    its size.  The list whose header is at [offset], as the engine finds
    it. *)
Definition read_list (e : env) (stores : list (Z * dla_cell)) (offset : Z)
  : option (list dla_action) :=
  match load e stores offset with
  | Some (cell_list hdr) =>
      read_actions e stores (Z.to_nat (al_size hdr)) (al_offset hdr)
        (al_size hdr)
  | _ => None
  end.

Definition built_preactions (e : env) (task : nvdla_task)
  : option (list dla_action) :=
  read_list e (td_mem (task_desc task)) (td_preactions (task_desc task)).

Definition built_postactions (e : env) (task : nvdla_task)
  : option (list dla_action) :=
  read_list e (td_mem (task_desc task)) (td_postactions (task_desc task)).

(** The sizes of the firmware interface as the layout needs them: records
    and headers take room, and the offset of the post-action region fits
    the 16 bits of a list header. *)
Definition layout_ok (e : env) : Prop :=
  let a := abi e in
  0 <= sizeof_task_descriptor a /\
  0 < sizeof_action_list a /\
  0 < sizeof_action_opcode a /\
  0 <= sizeof_action_semaphore a /\
  0 <= sizeof_action_task_status a /\
  0 <= sizeof_action_timestamp a /\
  0 <= sizeof_mem_addr a /\
  1 <= NUM_PROFILING_POSTACTION a /\
  sizeof_task_descriptor a + 2 * sizeof_action_list a +
    nvdla_get_max_preaction_size e < 2 ^ 16.

(** A store that leaves the bytes from [lo] up to [hi] alone. *)
Definition store_outside (e : env) (lo hi : Z) (st : Z * dla_cell) : Prop :=
  (st.1 < lo /\ st.1 + cell_size e st.2 <= lo) \/ hi <= st.1.

(** ** Sample configuration

    A concrete ABI, environment and tasks, used to run the model. *)

Definition abi0 : dla_abi := Abi 64 8 1 12 10 8 8 32 32 32 32 32 256 1 1 1.

(** Handles 1..100 are registered buffers; sync fd 7 holds two syncpoints. *)
Definition mk_env (mode : submit_mode_t) (busy channel register : Z)
  (send : nat -> Z) : env :=
  Env abi0 3 5 mode
    (fun h => if (1 <=? h) && (h <=? 100) then Some (4096 * h) else None)
    (fun id => 65536 + 4 * id)
    (fun id => (1 <=? id) && (id <=? 63))
    (fun fd => if fd =? 7 then Some [(2, 10); (4, 20)] else None)
    busy channel 0 register send 3.

Definition env0 : env := mk_env NVDLA_SUBMIT_MODE_MMIO 0 0 0 (fun _ => 0).

Definition wait_syncpt (index value : Z) : nvdev_fence :=
  Fence NVDEV_FENCE_TYPE_SYNCPT NVDEV_FENCE_WAIT index value 0 0 0 0.

Definition signal_syncpt (index : Z) : nvdev_fence :=
  Fence NVDEV_FENCE_TYPE_SYNCPT NVDEV_FENCE_SIGNAL index 0 0 0 0 0.

Definition semaphore_fence (ty : fence_type) (act : fence_action)
  (handle offset value : Z) : nvdev_fence :=
  Fence ty act 0 0 0 handle offset value.

(** The task of the round-trip property of the specification:
    prefences [wait(counter=5,val=3)], postfences [signal(counter=5)]. *)
Definition task0 : nvdla_task :=
  Task [wait_syncpt 5 3] [signal_syncpt 5] [] [] [] [] [] [] 0 0 0
    null_desc 4096 1.

Definition state0 : state := State ∅ 0 0 0 0 [] ∅ [].

(** Three tasks at addresses 100, 200, 300, each consuming one counter
    increment, held by their submitter ([ref = 1]). *)
Definition mk_task (pa : Z) : nvdla_task :=
  Task [wait_syncpt 5 3] [signal_syncpt 5] [] [] [] [] [] [] 0 0 1
    null_desc pa 1.

Definition heap1 : gmap Z nvdla_task :=
  {[ 100 := mk_task 4096; 200 := mk_task 8192; 300 := mk_task 12288 ]}.

Definition state1 : state := State ∅ 0 0 0 0 [] heap1 [].

(** Environments in which one collaborator fails. *)
Definition env_poweron_fails : env :=
  mk_env NVDLA_SUBMIT_MODE_MMIO (-5) 0 0 (fun _ => 0).

Definition env_channel_fails : env :=
  mk_env NVDLA_SUBMIT_MODE_CHANNEL 0 (-5) 0 (fun _ => 0).

Definition env_mmio_fails : env :=
  mk_env NVDLA_SUBMIT_MODE_MMIO 0 0 0 (fun _ => -5).

(** The three tasks submitted in order (targets 1, 2, 3), and the same
    queue once the counter has reached the target of the second task. *)
Definition state3 : state :=
  snd (nvdla_queue_submit_op env0 300
    (snd (nvdla_queue_submit_op env0 200
      (snd (nvdla_queue_submit_op env0 100 state1))))).

Definition state3_at2 : state := set_syncpt_min 2 state3.

(** Task 100 submitted, then the submission of task 200 failing at
    power-on: the reservation of task 200 stays on the counter. *)
Definition state_after_failed_submit : state :=
  snd (nvdla_queue_submit_op env_poweron_fails 200
    (snd (nvdla_queue_submit_op env0 100 state1))).

(** A task whose only prefence is a stride signal on a syncpoint and
    whose only postfence is a plain signal on a syncpoint. *)
Definition task_stride : nvdla_task :=
  Task [Fence NVDEV_FENCE_TYPE_SYNCPT NVDEV_FENCE_SIGNAL_STRIDE 5 0 0 0 0 0]
    [signal_syncpt 5] [] [] [] [] [] [] 0 0 0 null_desc 4096 1.

(** A task whose input status buffer (handle 200) is not registered and
    whose postfence is a semaphore in buffer 7; and a registry in which
    buffer 7 is pinned once, by a task in flight. *)
Definition task_bad_status : nvdla_task :=
  Task [] [semaphore_fence NVDEV_FENCE_TYPE_SEMAPHORE NVDEV_FENCE_SIGNAL 7 0 1]
    [StatusNotify 200 0 0] [] [] [] [] [] 0 0 0 null_desc 4096 1.


(** A pool that answers [-EAGAIN] twice and then hands out memory at a
    256-aligned address. *)
Definition alloc_third_time (k : nat) : Z * nvdla_queue_task_mem_info :=
  if (k <? 2)%nat then (- EAGAIN, TaskMemInfo 0 0 0 0)
  else (0, TaskMemInfo 500 600 4096 3).

(** An engine that answers every command with "processor busy". *)
Definition env_always_busy : env :=
  mk_env NVDLA_SUBMIT_MODE_MMIO 0 0 0 (fun _ => 3).

(** A task with two memory buffers: buffer 3 at offset 16, and an internal
    buffer whose offset 64 is its address. *)
Definition task_buffers : nvdla_task :=
  Task [wait_syncpt 5 3] [signal_syncpt 5] [] [] [] [] []
    [MemHandle 3 16 NVDLA_BUFFER_TYPE_MC;
     MemHandle 0 64 NVDLA_BUFFER_TYPE_INTERNAL]
    0 0 0 null_desc 4096 1.

(** An emulator task that signals a semaphore after a syncpoint. *)
Definition emu_task_semaphore : nvdla_emu_task :=
  EmuTask [signal_syncpt 5]
    [semaphore_fence NVDEV_FENCE_TYPE_SEMAPHORE NVDEV_FENCE_SIGNAL 7 0 1]
    0 0.

(** A wait on a sync fd. *)
Definition wait_sync_fd (fd : Z) : nvdev_fence :=
  Fence NVDEV_FENCE_TYPE_SYNC_FD NVDEV_FENCE_WAIT 0 0 fd 0 0 0.

(** A task that waits on sync fd 7 and checks two input status words: the
    first in buffer 3, the second in buffer 200, which is not
    registered. *)
Definition task_second_status_bad : nvdla_task :=
  Task [wait_sync_fd 7] [signal_syncpt 5]
    [StatusNotify 3 0 0; StatusNotify 200 0 0] [] [] [] [] [] 0 0 0
    null_desc 4096 1.



(** A task with every kind of item: waits on a syncpoint, on sync fd 7
    and on a semaphore, a signal and a stride signal among the prefences,
    status and timestamp items at the start and at the end of the frame,
    three postfences and two buffers. *)
Definition task_full : nvdla_task :=
  Task
    [wait_syncpt 5 3; wait_sync_fd 7;
     semaphore_fence NVDEV_FENCE_TYPE_SEMAPHORE NVDEV_FENCE_WAIT 9 16 2;
     signal_syncpt 5;
     semaphore_fence NVDEV_FENCE_TYPE_SEMAPHORE NVDEV_FENCE_SIGNAL_STRIDE
       10 0 1]
    [signal_syncpt 5;
     semaphore_fence NVDEV_FENCE_TYPE_SEMAPHORE NVDEV_FENCE_SIGNAL 7 0 1;
     semaphore_fence NVDEV_FENCE_TYPE_SEMAPHORE_TS NVDEV_FENCE_SIGNAL 8 4 1]
    [StatusNotify 3 0 1] [StatusNotify 4 8 2] [StatusNotify 5 0 3]
    [MemHandle 6 0 NVDLA_BUFFER_TYPE_MC] [MemHandle 6 8 NVDLA_BUFFER_TYPE_MC]
    [MemHandle 3 16 NVDLA_BUFFER_TYPE_MC;
     MemHandle 0 64 NVDLA_BUFFER_TYPE_INTERNAL]
    0 0 0 null_desc 4096 1.

(** An environment in which sync fd 9 holds four syncpoints, and a task
    with 32 prefences, the maximum, each a wait on that sync fd. *)
Definition env_wide_fd : env :=
  Env abi0 3 5 NVDLA_SUBMIT_MODE_MMIO
    (fun h => if (1 <=? h) && (h <=? 100) then Some (4096 * h) else None)
    (fun id => 65536 + 4 * id)
    (fun id => (1 <=? id) && (id <=? 63))
    (fun fd => if fd =? 9 then Some [(1, 10); (2, 20); (3, 30); (4, 40)]
               else None)
    0 0 0 0 (fun _ => 0) 3.

Definition task_wide : nvdla_task :=
  Task (replicate 32 (wait_sync_fd 9)) [signal_syncpt 5] [] [] [] [] [] []
    0 0 0 null_desc 4096 1.

(** * Properties *)

(** ** Basic facts about the state *)

Lemma list_del_notin (p : Z) (l : list Z) : p ∉ l -> list_del p l = l.
Proof.
  intros Hp. unfold list_del. induction l as [|x l IH]; [done|].
  rewrite filter_cons. apply not_elem_of_cons in Hp as [Hx Hl].
  destruct (decide (x ≠ p)) as [_|Hn]; [by rewrite IH|].
  exfalso. apply Hn. congruence.
Qed.

Lemma list_del_snoc (p : Z) (l : list Z) : p ∉ l -> list_del p (l ++ [p]) = l.
Proof.
  intros Hp. unfold list_del. rewrite filter_app.
  fold (list_del p l). rewrite (list_del_notin p l Hp).
  rewrite filter_cons. destruct (decide (p ≠ p)); [done|].
  by rewrite filter_nil, app_nil_r.
Qed.

Lemma tasklist_task_put (p : Z) (s : state) :
  tasklist (nvdla_task_put p s) = tasklist s.
Proof.
  unfold nvdla_task_put. destruct (heap s !! p) as [t|]; [|done].
  by destruct (ref t) as [|[|n]].
Qed.

Lemma tasklist_task_free_locked (p : Z) (s : state) :
  tasklist (nvdla_task_free_locked p s) = list_del p (tasklist s).
Proof.
  unfold nvdla_task_free_locked. rewrite tasklist_task_put. cbn.
  by destruct (heap s !! p).
Qed.

(** ** Abort on an empty queue *)

(** C8: abort on a queue whose task list is empty returns 0 and leaves the
    whole driver state, its event log included, as it was: no power
    reference, no command, no counter change.  A second abort, whatever
    the collaborators would answer, does the same. *)
Theorem abort_empty_queue_idempotent (e1 e2 : env) (s : state) :
  tasklist s = [] ->
  nvdla_queue_abort_op e1 s = (0, s) /\
  nvdla_queue_abort_op e2 (snd (nvdla_queue_abort_op e1 s)) = (0, s).
Proof.
  intros Hl. assert (H : forall e, nvdla_queue_abort_op e s = (0, s)).
  { intros e. unfold nvdla_queue_abort_op. by rewrite Hl. }
  split; [apply H|]. rewrite (H e1). apply H.
Qed.


(** ** Submission: power-on failure *)

Lemma submit_enqueue_tasklist e task s :
  tasklist (submit_enqueue e task s) = tasklist s ++ [task].
Proof.
  unfold submit_enqueue.
  destruct (decide (submit_mode e = NVDLA_SUBMIT_MODE_MMIO)); cbn;
    by destruct (last (tasklist s)).
Qed.

Lemma submit_enqueue_power e task s :
  power_refs (submit_enqueue e task s) = power_refs s.
Proof.
  unfold submit_enqueue.
  destruct (decide (submit_mode e = NVDLA_SUBMIT_MODE_MMIO)); cbn;
    by destruct (last (tasklist s)).
Qed.

Lemma submit_enqueue_queue_refs e task s :
  queue_refs (submit_enqueue e task s) = queue_refs s + 1.
Proof.
  unfold submit_enqueue.
  destruct (decide (submit_mode e = NVDLA_SUBMIT_MODE_MMIO)); cbn;
    by destruct (last (tasklist s)).
Qed.

Lemma submit_enqueue_ref e task s t :
  task ∉ tasklist s -> heap s !! task = Some t ->
  ref <$> (heap (submit_enqueue e task s) !! task) = Some (S (ref t)).
Proof.
  intros Hfresh Ht. unfold submit_enqueue.
  assert (Hlast : forall q, last (tasklist s) = Some q -> q ≠ task).
  { intros q Hq <-. apply Hfresh. apply last_Some in Hq as [l' ->].
    set_solver. }
  destruct (decide (submit_mode e = NVDLA_SUBMIT_MODE_MMIO)); cbn;
    destruct (last (tasklist s)) as [q|] eqn:Hq; cbn;
    try (rewrite lookup_alter_ne by (by apply Hlast));
    rewrite ?lookup_alter_eq, ?lookup_alter_eq, Ht; done.
Qed.

Lemma submit_op_unfold e task s :
  nvdla_queue_submit_op e task s =
  let s1 := submit_enqueue e task s in
  let cmd := DLA_CMD_SUBMIT_TASK (task_desc_pa (task_at s1 task)) in
  let '(busy, s2) := nvhost_module_busy e s1 in
  if negb (busy =? 0) then (0, nvdla_task_free_locked task s2)
  else
    let '(err, s3) :=
      if decide (submit_mode e = NVDLA_SUBMIT_MODE_CHANNEL)
      then nvdla_send_cmd_channel e cmd task s2
      else (0, s2) in
    if negb (err =? 0) then
      (err, nvdla_task_free_locked task (nvhost_module_idle s3))
    else
      let '(err, s4) :=
        nvhost_intr_register_notifier e (fence (task_at s3 task)) s3 in
      if negb (err =? 0) then
        (err, nvdla_task_free_locked task (nvhost_module_idle s4))
      else if decide (submit_mode e = NVDLA_SUBMIT_MODE_MMIO) then
        let '(err, s5) := nvdla_send_cmd e 0 cmd s4 in
        if negb (err =? 0) then
          (err, nvhost_syncpt_set_min_update (fence (task_at s5 task)) s5)
        else (err, s5)
      else (err, s4).
Proof. reflexivity. Qed.

Lemma task_put_ref p s t n :
  heap s !! p = Some t -> ref t = S (S n) ->
  ref <$> (heap (nvdla_task_put p s) !! p) = Some (S n).
Proof.
  intros Ht Hr. unfold nvdla_task_put. rewrite Ht, Hr. cbn.
  by rewrite lookup_insert_eq.
Qed.

Lemma task_free_locked_ref p s t n :
  heap s !! p = Some t -> ref t = S (S n) ->
  ref <$> (heap (nvdla_task_free_locked p s) !! p) = Some (S n).
Proof.
  intros Ht Hr. unfold nvdla_task_free_locked.
  apply task_put_ref with (t := t); [|done]. cbn. by rewrite Ht.
Qed.

Lemma queue_refs_task_put p s :
  queue_refs (nvdla_task_put p s) = queue_refs s - 1.
Proof.
  unfold nvdla_task_put. destruct (heap s !! p) as [t|]; [|done].
  by destruct (ref t) as [|[|n]].
Qed.

Lemma queue_refs_task_free_locked p s :
  queue_refs (nvdla_task_free_locked p s) = queue_refs s - 1.
Proof.
  unfold nvdla_task_free_locked. rewrite queue_refs_task_put. cbn.
  by destruct (heap s !! p).
Qed.

(** C1: when [nvhost_module_busy] fails, [nvdla_queue_submit_op] unwinds
    the submission (the task leaves the list, the references taken are
    dropped) but returns [err], which is still 0 on that path: the caller
    is told the submission succeeded. *)
Theorem submit_poweron_failure_reports_success (e : env) (task : Z)
  (s : state) (t : nvdla_task) :
  nvhost_module_busy_ret e ≠ 0 ->
  task ∉ tasklist s ->
  heap s !! task = Some t ->
  (0 < ref t)%nat ->
  fst (nvdla_queue_submit_op e task s) = 0 /\
  tasklist (snd (nvdla_queue_submit_op e task s)) = tasklist s /\
  queue_refs (snd (nvdla_queue_submit_op e task s)) = queue_refs s /\
  (ref <$> heap (snd (nvdla_queue_submit_op e task s)) !! task) = Some (ref t).
Proof.
  intros Hb Hfresh Ht Hpos. rewrite submit_op_unfold. cbv zeta.
  unfold nvhost_module_busy.
  destruct (Z.eqb_spec (nvhost_module_busy_ret e) 0) as [|_]; [done|].
  destruct (Z.eqb_spec (nvhost_module_busy_ret e) 0) as [|_]; [done|].
  cbn [negb fst snd]. split; [done|].
  rewrite tasklist_task_free_locked, submit_enqueue_tasklist.
  rewrite queue_refs_task_free_locked, submit_enqueue_queue_refs.
  split; [by apply list_del_snoc|]. split; [lia|].
  pose proof (submit_enqueue_ref e task s t Hfresh Ht) as Hr.
  destruct (heap (submit_enqueue e task s) !! task) as [t1|] eqn:H1; [|done].
  cbn in Hr. injection Hr as Hr.
  destruct (ref t) as [|n]; [lia|].
  by rewrite (task_free_locked_ref task _ t1 n H1 Hr).
Qed.

Lemma submit_poweron_failure_witness :
  fst (nvdla_queue_submit_op env_poweron_fails 100 state1) = 0 /\
  tasklist (snd (nvdla_queue_submit_op env_poweron_fails 100 state1)) = [] /\
  queue_refs (snd (nvdla_queue_submit_op env_poweron_fails 100 state1)) = 0 /\
  (ref <$> heap (snd (nvdla_queue_submit_op env_poweron_fails 100 state1))
             !! 100) = Some 1%nat.
Proof.
  apply (submit_poweron_failure_reports_success env_poweron_fails 100 state1
           (mk_task 4096)).
  - vm_compute. discriminate.
  - apply not_elem_of_nil.
  - reflexivity.
  - simpl. lia.
Defined.

Lemma abort_empty_queue_witness :
  nvdla_queue_abort_op env0 state1 = (0, state1) /\
  nvdla_queue_abort_op env_mmio_fails
    (snd (nvdla_queue_abort_op env0 state1)) = (0, state1).
Proof.
  apply (abort_empty_queue_idempotent env0 env_mmio_fails state1).
  reflexivity.
Defined.

(** ** Fence resolver *)

(** C2: for a fence of type semaphore or timestamped semaphore whose
    buffer fails to pin, both fill functions return 0 and leave the cursor
    where it was: the failure is not reported and the action is left
    out. *)
Theorem semaphore_pin_failure_reports_success (e : env) (fence : nvdev_fence)
  (c : fill_ctx) :
  is_semaphore_fence fence = true ->
  buffer_lookup e (semaphore_handle fence) = None ->
  nvdla_fill_wait_fence_action e fence c = (0, c) /\
  nvdla_fill_signal_fence_action e fence c = (0, c).
Proof.
  intros Hty Hpin. destruct c as [m fc next].
  unfold nvdla_fill_wait_fence_action, nvdla_fill_signal_fence_action,
    nvdla_buffer_submit_pin.
  rewrite Hpin. unfold is_semaphore_fence in Hty.
  destruct (type fence); try discriminate Hty; done.
Qed.

Lemma semaphore_pin_failure_witness :
  let fence :=
    semaphore_fence NVDEV_FENCE_TYPE_SEMAPHORE NVDEV_FENCE_WAIT 200 8 1 in
  nvdla_fill_wait_fence_action env0 fence (Ctx ∅ 0 [] []) =
    (0, Ctx ∅ 0 [] []) /\
  nvdla_fill_signal_fence_action env0 fence (Ctx ∅ 0 [] []) =
    (0, Ctx ∅ 0 [] []).
Proof.
  apply (semaphore_pin_failure_reports_success env0
           (semaphore_fence NVDEV_FENCE_TYPE_SEMAPHORE NVDEV_FENCE_WAIT 200 8 1)
           (Ctx ∅ 0 [] [])); reflexivity.
Defined.

(** ** Submission: failures after the task entered the list *)

Ltac reduce_branch :=
  cbn beta iota delta [negb andb orb fst snd Z.eqb Pos.eqb Nat.eqb].

Lemma power_refs_task_put p s :
  power_refs (nvdla_task_put p s) = power_refs s.
Proof.
  unfold nvdla_task_put. destruct (heap s !! p) as [t|]; [|done].
  by destruct (ref t) as [|[|n]].
Qed.

Lemma power_refs_task_free_locked p s :
  power_refs (nvdla_task_free_locked p s) = power_refs s.
Proof.
  unfold nvdla_task_free_locked. rewrite power_refs_task_put. cbn.
  by destruct (heap s !! p).
Qed.

(** C4 (amended): with power on, a submission fails in one of three
    places, and in each it returns the non-zero code of the collaborator
    that failed.  When the MMIO command fails, after the notifier was
    registered, the task stays at the tail of the list, the counter is
    forced to its target and the power reference is kept.  When the
    channel command fails, or the registration of the notifier, the
    submission is unwound: the task leaves the list, its reference and
    the queue reference taken for it are dropped and the power reference
    is released.  A submission that meets none of the three returns 0 and
    keeps the task. *)
Theorem submit_dispatch_failure (e : env) (task : Z) (s : state)
  (t : nvdla_task) :
  task ∉ tasklist s ->
  heap s !! task = Some t ->
  (0 < ref t)%nat ->
  nvhost_module_busy_ret e = 0 ->
  let r := nvdla_queue_submit_op e task s in
  let unwound :=
    tasklist r.2 = tasklist s /\
    power_refs r.2 = power_refs s /\
    queue_refs r.2 = queue_refs s /\
    ref <$> (heap r.2 !! task) = Some (ref t) /\
    last (log r.2) ≠ Some (ev_task_free task) in
  let kept :=
    tasklist r.2 = tasklist s ++ [task] /\
    power_refs r.2 = power_refs s + 1 /\
    queue_refs r.2 = queue_refs s + 1 /\
    ref <$> (heap r.2 !! task) = Some (S (ref t)) in
  (submit_mode e = NVDLA_SUBMIT_MODE_CHANNEL ->
   nvdla_send_cmd_channel_ret e ≠ 0 ->
   r.1 = nvdla_send_cmd_channel_ret e /\ r.1 ≠ 0 /\ unwound) /\
  ((submit_mode e = NVDLA_SUBMIT_MODE_CHANNEL ->
    nvdla_send_cmd_channel_ret e = 0) ->
   nvhost_intr_register_notifier_ret e ≠ 0 ->
   r.1 = nvhost_intr_register_notifier_ret e /\ r.1 ≠ 0 /\ unwound) /\
  (submit_mode e = NVDLA_SUBMIT_MODE_MMIO ->
   nvhost_intr_register_notifier_ret e = 0 ->
   nvdla_send_cmd_ret e 0 ≠ 0 ->
   r.1 = nvdla_send_cmd_ret e 0 /\ r.1 ≠ 0 /\ kept /\
   syncpt_min r.2 = u32 (fence (task_at r.2 task))) /\
  ((submit_mode e = NVDLA_SUBMIT_MODE_CHANNEL ->
    nvdla_send_cmd_channel_ret e = 0) ->
   nvhost_intr_register_notifier_ret e = 0 ->
   (submit_mode e = NVDLA_SUBMIT_MODE_MMIO -> nvdla_send_cmd_ret e 0 = 0) ->
   r.1 = 0 /\ kept).
Proof.
  intros Hfresh Ht Href Hbusy. cbv zeta.
  rewrite submit_op_unfold. cbv zeta.
  unfold nvhost_module_busy, nvdla_send_cmd_channel,
    nvhost_intr_register_notifier, nvdla_send_cmd.
  rewrite Hbusy. reduce_branch.
  pose proof (submit_enqueue_tasklist e task s) as Hl.
  pose proof (submit_enqueue_power e task s) as Hp.
  pose proof (submit_enqueue_queue_refs e task s) as Hq.
  pose proof (submit_enqueue_ref e task s t Hfresh Ht) as Hr.
  generalize dependent (submit_enqueue e task s). intros s1 Hl Hp Hq Hr.
  destruct (heap s1 !! task) as [t1|] eqn:Ht1; [|done].
  cbn in Hr. injection Hr as Hr.
  destruct (ref t) as [|n] eqn:Hn; [lia|].
  assert (Hunwind : forall s2 t2,
    tasklist s2 = tasklist s1 -> power_refs s2 = power_refs s1 + 1 ->
    queue_refs s2 = queue_refs s1 -> heap s2 !! task = Some t2 ->
    ref t2 = S (S n) ->
    tasklist (nvdla_task_free_locked task (nvhost_module_idle s2)) =
      tasklist s /\
    power_refs (nvdla_task_free_locked task (nvhost_module_idle s2)) =
      power_refs s /\
    queue_refs (nvdla_task_free_locked task (nvhost_module_idle s2)) =
      queue_refs s /\
    ref <$> (heap (nvdla_task_free_locked task (nvhost_module_idle s2))
               !! task) = Some (S n) /\
    last (log (nvdla_task_free_locked task (nvhost_module_idle s2)))
      ≠ Some (ev_task_free task)).
  { intros s2 t2 Hl2 Hp2 Hq2 Hh2 Hr2.
    rewrite tasklist_task_free_locked, power_refs_task_free_locked,
      queue_refs_task_free_locked.
    cbn. rewrite Hl2, Hp2, Hq2, Hl, Hp, Hq.
    split_and!; [by apply list_del_snoc | lia | lia | |].
    - unfold nvdla_task_free_locked, nvdla_task_put. cbn. rewrite Hh2. cbn.
      rewrite Hh2, Hr2. cbn. by rewrite lookup_insert_eq.
    - unfold nvdla_task_free_locked, nvdla_task_put. cbn. rewrite Hh2. cbn.
      rewrite Hh2, Hr2. cbn. rewrite last_snoc. discriminate. }
  destruct (submit_mode e) eqn:Hmode.
  - (* MMIO *)
    rewrite decide_False by done. reduce_branch.
    destruct (Z.eqb_spec (nvhost_intr_register_notifier_ret e) 0) as [Hg|Hg];
      reduce_branch.
    + rewrite decide_True by done. reduce_branch.
      destruct (Z.eqb_spec (nvdla_send_cmd_ret e 0) 0) as [Hs|Hs];
        reduce_branch.
      * split_and!; try done.
        intros _ _ _. cbn. rewrite Hl, Hp, Hq, Ht1. cbn. by rewrite Hr.
      * split_and!; try done; [|intros _ _ Hz; by specialize (Hz eq_refl)].
        intros _ _ _. cbn. rewrite Hl, Hp, Hq, Ht1. cbn. by rewrite Hr.
    + split_and!; try done. intros _ _.
      split; [done|]. split; [done|]. by apply (Hunwind _ t1).
  - (* CHANNEL *)
    rewrite decide_True by done. reduce_branch.
    destruct (Z.eqb_spec (nvdla_send_cmd_channel_ret e) 0) as [Hc|Hc];
      reduce_branch.
    + destruct (Z.eqb_spec (nvhost_intr_register_notifier_ret e) 0) as [Hg|Hg];
        reduce_branch.
      * rewrite decide_False by done. split_and!; try done.
        intros _ _ _. cbn. rewrite Hl, Hp, Hq.
        rewrite lookup_alter_eq, Ht1. cbn. by rewrite Hr.
      * split_and!; try done. intros _ _.
        split; [done|]. split; [done|].
        apply (Hunwind _ (set_fence (u32 (nvdla_send_cmd_channel_fence e)) t1));
          try done.
        cbn. by rewrite lookup_alter_eq, Ht1.
    + destruct (Z.eqb_spec (nvdla_send_cmd_channel_ret e) 0) as [|_]; [done|].
      reduce_branch. split_and!; try done.
      * intros _ _. split; [done|]. split; [done|].
        by apply (Hunwind _ t1).
      * intros Hz. by specialize (Hz eq_refl).
      * intros Hz. by specialize (Hz eq_refl).
Qed.

Lemma submit_dispatch_failure_witness :
  let r := nvdla_queue_submit_op env_mmio_fails 100 state1 in
  r.1 = -5 /\
  tasklist r.2 = [100] /\
  power_refs r.2 = 1 /\
  queue_refs r.2 = 1 /\
  syncpt_min r.2 = u32 (fence (task_at r.2 100)).
Proof.
  cbv zeta.
  destruct (submit_dispatch_failure env_mmio_fails 100 state1 (mk_task 4096))
    as (_ & _ & Hmmio & _).
  - apply not_elem_of_nil.
  - reflexivity.
  - cbn. lia.
  - reflexivity.
  - destruct Hmmio as (H1 & _ & (H2 & H3 & H4 & _) & H5);
      [reflexivity|reflexivity|vm_compute; discriminate|].
    split_and!; [exact H1|exact H2|exact H3|exact H4|exact H5].
Defined.

Lemma submit_channel_failure_unwinds :
  fst (nvdla_queue_submit_op env_channel_fails 100 state1) = -5 /\
  100 ∉ tasklist (snd (nvdla_queue_submit_op env_channel_fails 100 state1)).
Proof.
  split; [reflexivity|].
  replace (tasklist (snd (nvdla_queue_submit_op env_channel_fails 100 state1)))
    with (@nil Z) by reflexivity.
  apply not_elem_of_nil.
Qed.

(** ** Completion notifier *)

Lemma list_del_middle (p : Z) (pre rest : list Z) :
  NoDup (pre ++ p :: rest) -> list_del p (pre ++ p :: rest) = pre ++ rest.
Proof.
  intros Hnd. apply NoDup_app in Hnd as (_ & Hpre & Hnd).
  apply NoDup_cons in Hnd as [Hrest _].
  unfold list_del. rewrite filter_app, filter_cons.
  destruct (decide (p ≠ p)); [done|].
  fold (list_del p pre). fold (list_del p rest).
  rewrite !list_del_notin; [done|done|].
  intros Hin. apply (Hpre p Hin). left.
Qed.

Lemma heap_task_put_ne p q s :
  q ≠ p -> heap (nvdla_task_put p s) !! q = heap s !! q.
Proof.
  intros Hne. unfold nvdla_task_put. destruct (heap s !! p) as [t|]; [|done].
  destruct (ref t) as [|[|n]]; cbn;
    by rewrite ?lookup_delete_ne, ?lookup_insert_ne.
Qed.

Lemma heap_task_free_locked_ne p q s :
  q ≠ p -> heap (nvdla_task_free_locked p s) !! q = heap s !! q.
Proof.
  intros Hne. unfold nvdla_task_free_locked.
  rewrite heap_task_put_ne by done. cbn. by destruct (heap s !! p).
Qed.

Lemma syncpt_task_put p s :
  syncpt_min (nvdla_task_put p s) = syncpt_min s /\
  syncpt_max (nvdla_task_put p s) = syncpt_max s.
Proof.
  unfold nvdla_task_put. destruct (heap s !! p) as [t|]; [|done].
  by destruct (ref t) as [|[|n]].
Qed.

Lemma syncpt_task_free_locked p s :
  syncpt_min (nvdla_task_free_locked p s) = syncpt_min s /\
  syncpt_max (nvdla_task_free_locked p s) = syncpt_max s.
Proof.
  unfold nvdla_task_free_locked.
  match goal with
  | |- context [nvdla_task_put p ?x] =>
      destruct (syncpt_task_put p x) as [-> ->]
  end.
  cbn. by destruct (heap s !! p).
Qed.

Lemma log_task_put p s :
  completed_tasks (log (nvdla_task_put p s)) = completed_tasks (log s) /\
  power_events (log (nvdla_task_put p s)) = power_events (log s).
Proof.
  unfold nvdla_task_put, completed_tasks, power_events.
  destruct (heap s !! p) as [t|]; [|done].
  destruct (ref t) as [|[|n]]; cbn; rewrite ?omap_app, ?filter_app; cbn;
    by rewrite ?app_nil_r.
Qed.

Lemma log_task_free_locked p s :
  completed_tasks (log (nvdla_task_free_locked p s)) =
    completed_tasks (log s) ++ [p] /\
  power_events (log (nvdla_task_free_locked p s)) = power_events (log s).
Proof.
  unfold nvdla_task_free_locked.
  match goal with
  | |- context [nvdla_task_put p ?x] =>
      destruct (log_task_put p x) as [-> ->]
  end.
  unfold completed_tasks, power_events. cbn.
  destruct (heap s !! p); cbn; rewrite omap_app, filter_app; cbn;
    by rewrite ?app_nil_r.
Qed.

Lemma task_complete_free_locked p q s :
  q ≠ p ->
  task_complete (nvdla_task_free_locked p s) q = task_complete s q.
Proof.
  intros Hne. unfold task_complete, nvhost_syncpt_is_expired_ext, task_at.
  rewrite heap_task_free_locked_ne by done.
  by destruct (syncpt_task_free_locked p s) as [-> _].
Qed.

Lemma filter_ext_in {A : Type} (P1 P2 : A -> Prop)
  `{!forall x, Decision (P1 x), !forall x, Decision (P2 x)} (l : list A) :
  (forall x, x ∈ l -> P1 x <-> P2 x) -> filter P1 l = filter P2 l.
Proof.
  induction l as [|a l IH]; intros Hiff; [done|].
  rewrite !filter_cons.
  rewrite IH by (intros x Hx; apply Hiff; by right).
  destruct (decide (P1 a)) as [H1|H1], (decide (P2 a)) as [H2|H2];
    try done; exfalso.
  - apply H2, (Hiff a); [left | done].
  - apply H1, (Hiff a); [left | done].
Qed.

(** The scan over the part [l] of the list still to visit, [pre] being
    the entries already visited and kept. *)
Lemma queue_update_scan_spec (l : list Z) :
  forall (pre : list Z) (n : Z) (s : state),
  tasklist s = pre ++ l ->
  NoDup (pre ++ l) ->
  Forall (fun p => is_Some (heap s !! p)) l ->
  exists s',
    queue_update_scan l n s =
      (n + Z.of_nat (length (filter (fun p => task_complete s p = true) l)),
       s') /\
    tasklist s' = pre ++ filter (fun p => task_complete s p ≠ true) l /\
    syncpt_min s' = syncpt_min s /\
    syncpt_max s' = syncpt_max s /\
    power_refs s' = power_refs s /\
    completed_tasks (log s') =
      completed_tasks (log s) ++ filter (fun p => task_complete s p = true) l /\
    power_events (log s') = power_events (log s).
Proof.
  induction l as [|p rest IH]; intros pre n s Hl Hnd Hlive.
  - exists s. cbn. rewrite !app_nil_r in *. repeat split; try done.
    f_equal. lia.
  - apply Forall_cons in Hlive as [[t Ht] Hlive].
    assert (Hp : p ∉ rest).
    { apply NoDup_app in Hnd as (_ & _ & Hnd).
      by apply NoDup_cons in Hnd as [? _]. }
    cbn [queue_update_scan]. rewrite Ht.
    assert (Hc : task_complete s p =
                 nvhost_syncpt_is_expired_ext s (fence t)).
    { unfold task_complete, task_at. by rewrite Ht. }
    rewrite <- Hc. rewrite !filter_cons.
    destruct (task_complete s p) eqn:Hdone.
    + (* complete: freed, the scan goes on in the new state *)
      set (s1 := nvdla_task_free_locked p s).
      assert (Hext : forall q, q ∈ rest ->
                task_complete s1 q = task_complete s q).
      { intros q Hq. apply task_complete_free_locked. set_solver. }
      destruct (IH pre (n + 1) s1) as (s' & Hscan & Htl & Hmin & Hmax & Hpw
                                       & Hct & Hpe).
      * unfold s1. rewrite tasklist_task_free_locked, Hl.
        by apply list_del_middle.
      * apply NoDup_app in Hnd as (Hpre & Hdisj & Hnd).
        apply NoDup_cons in Hnd as [_ Hrest].
        apply NoDup_app. split_and!; [done| |done].
        intros x Hx Hx'. apply (Hdisj x Hx). by right.
      * apply Forall_forall. intros q Hq. unfold s1.
        rewrite heap_task_free_locked_ne by set_solver.
        by apply (proj1 (Forall_forall _ _) Hlive).
      * exists s'. destruct (syncpt_task_free_locked p s) as [Hmin1 Hmax1].
        destruct (log_task_free_locked p s) as [Hct1 Hpe1].
        rewrite (filter_ext_in (fun q => task_complete s1 q = true)
                   (fun q => task_complete s q = true)) in Hscan, Hct
          by (intros q Hq; by rewrite Hext).
        rewrite (filter_ext_in (fun q => task_complete s1 q ≠ true)
                   (fun q => task_complete s q ≠ true)) in Htl
          by (intros q Hq; by rewrite Hext).
        rewrite Hscan, Htl, Hmin, Hmax, Hpw, Hct, Hpe.
        unfold s1. rewrite Hmin1, Hmax1, Hct1, Hpe1.
        rewrite power_refs_task_free_locked.
        rewrite decide_True by done. rewrite decide_False by naive_solver.
        cbn [length]. rewrite <- app_assoc. cbn.
        repeat split; try done. f_equal. lia.
    + (* not complete: kept *)
      destruct (IH (pre ++ [p]) n s) as (s' & Hscan & Htl & Hmin & Hmax & Hpw
                                         & Hct & Hpe).
      * by rewrite <- app_assoc.
      * by rewrite <- app_assoc.
      * done.
      * exists s'. rewrite Hscan, Htl, Hmin, Hmax, Hpw, Hct, Hpe.
        rewrite decide_False by done. rewrite decide_True by done.
        rewrite <- app_assoc. done.
Qed.

Lemma task_complete_age (s : state) (p : Z) :
  task_complete s p = (0 <=? age s p).
Proof. reflexivity. Qed.

Lemma filter_all {A : Type} (P : A -> Prop) `{!forall x, Decision (P x)}
  (l : list A) : Forall P l -> filter P l = l.
Proof.
  induction 1 as [|x l Hx _ IH]; [done|].
  by rewrite filter_cons, decide_True, IH.
Qed.

Lemma filter_none {A : Type} (P : A -> Prop) `{!forall x, Decision (P x)}
  (l : list A) : Forall (fun x => ~ P x) l -> filter P l = [].
Proof.
  induction 1 as [|x l Hx _ IH]; [done|].
  by rewrite filter_cons, decide_False, IH.
Qed.

(** With targets in order the complete tasks are the head of the list. *)
Lemma targets_in_order_split (s : state) (l : list Z) :
  targets_in_order s l ->
  l = filter (fun p => task_complete s p = true) l ++
      filter (fun p => task_complete s p ≠ true) l.
Proof.
  induction l as [|p rest IH]; [done|]. intros [Hle Hrest].
  rewrite !filter_cons. destruct (task_complete s p) eqn:Hp.
  - rewrite decide_True by done. rewrite decide_False by naive_solver.
    cbn. f_equal. by apply IH.
  - rewrite decide_False by done. rewrite decide_True by done.
    assert (Hnone : Forall (fun q => task_complete s q ≠ true) rest).
    { eapply Forall_impl; [exact Hle|]. intros q Hq. cbn in Hq.
      rewrite task_complete_age in Hp |- *.
      destruct (Z.leb_spec 0 (age s p)); [done|].
      destruct (Z.leb_spec 0 (age s q)); [lia|done]. }
    rewrite (filter_none (fun q => task_complete s q = true)) by done.
    by rewrite (filter_all (fun q => task_complete s q ≠ true)).
Qed.

Lemma filter_length_split {A : Type} (P : A -> Prop)
  `{!forall x, Decision (P x)} (l : list A) :
  length l = (length (filter P l) + length (filter (fun x => ~ P x) l))%nat.
Proof.
  induction l as [|x l IH]; [done|]. rewrite !filter_cons.
  destruct (decide (P x)).
  - rewrite decide_False by tauto. cbn. lia.
  - rewrite decide_True by done. cbn. lia.
Qed.

(** The scan leaves alone every task it does not reclaim, and drops one
    queue reference per task it reclaims. *)
Lemma queue_update_scan_heap (l : list Z) :
  forall (pre : list Z) (n : Z) (s : state),
  tasklist s = pre ++ l ->
  NoDup (pre ++ l) ->
  Forall (fun p => is_Some (heap s !! p)) l ->
  queue_refs (queue_update_scan l n s).2 =
    queue_refs s -
    Z.of_nat (length (filter (fun p => task_complete s p = true) l)) /\
  (forall q : Z, q ∉ l \/ task_complete s q ≠ true ->
     heap (queue_update_scan l n s).2 !! q = heap s !! q).
Proof.
  induction l as [|p rest IH]; intros pre n s Hl Hnd Hlive.
  - cbn. split; [lia|done].
  - apply Forall_cons in Hlive as [[t Ht] Hlive].
    assert (Hp : p ∉ rest).
    { apply NoDup_app in Hnd as (_ & _ & Hnd).
      by apply NoDup_cons in Hnd as [? _]. }
    cbn [queue_update_scan]. rewrite Ht.
    assert (Hc : task_complete s p =
                 nvhost_syncpt_is_expired_ext s (fence t)).
    { unfold task_complete, task_at. by rewrite Ht. }
    rewrite <- Hc. rewrite filter_cons.
    destruct (task_complete s p) eqn:Hdone.
    + set (s1 := nvdla_task_free_locked p s).
      assert (Hext : forall q, q ≠ p ->
                task_complete s1 q = task_complete s q).
      { intros q Hq. by apply task_complete_free_locked. }
      destruct (IH pre (n + 1) s1) as [Hrefs Hheap].
      * unfold s1. rewrite tasklist_task_free_locked, Hl.
        by apply list_del_middle.
      * apply NoDup_app in Hnd as (Hpre & Hdisj & Hnd).
        apply NoDup_cons in Hnd as [_ Hrest].
        apply NoDup_app. split_and!; [done| |done].
        intros x Hx Hx'. apply (Hdisj x Hx). by right.
      * apply Forall_forall. intros q Hq. unfold s1.
        rewrite heap_task_free_locked_ne by set_solver.
        by apply (proj1 (Forall_forall _ _) Hlive).
      * rewrite decide_True by done. split.
        -- rewrite Hrefs. unfold s1. rewrite queue_refs_task_free_locked.
           rewrite (filter_ext_in (fun q => task_complete s1 q = true)
                      (fun q => task_complete s q = true))
             by (intros q Hq; rewrite Hext; [done|set_solver]).
           cbn [length]. lia.
        -- intros q Hq.
           assert (Hne : q ≠ p).
           { intros ->. destruct Hq as [Hq|Hq]; [|done].
             apply Hq. left. }
           rewrite Hheap.
           ++ unfold s1. by apply heap_task_free_locked_ne.
           ++ destruct Hq as [Hq|Hq]; [left; set_solver|right].
              by rewrite Hext.
    + rewrite decide_False by done.
      destruct (IH (pre ++ [p]) n s) as [Hrefs Hheap];
        [by rewrite <- app_assoc|by rewrite <- app_assoc|done|].
      split; [done|]. intros q Hq. apply Hheap.
      destruct Hq as [Hq|Hq]; [left; set_solver|by right].
Qed.

Lemma task_free_locked_release (p : Z) (s : state) (t : nvdla_task) :
  heap s !! p = Some t ->
  heap (nvdla_task_free_locked p s) !! p = task_put_result t /\
  registry (nvdla_task_free_locked p s) =
    nvdla_unmap_task_memory t (registry s) /\
  freed_tasks (log (nvdla_task_free_locked p s)) =
    freed_tasks (log s) ++ (if last_reference s p then [p] else []).
Proof.
  intros Ht. unfold nvdla_task_free_locked, nvdla_task_put, task_put_result,
    last_reference, task_at, freed_tasks.
  cbn. rewrite Ht. cbn. rewrite Ht.
  destruct (ref t) as [|[|n]]; cbn;
    rewrite ?lookup_delete_eq, ?lookup_insert_eq, ?omap_app; cbn;
    by rewrite ?app_nil_r.
Qed.

Lemma last_reference_free_locked (p q : Z) (s : state) :
  q ≠ p -> last_reference (nvdla_task_free_locked p s) q = last_reference s q.
Proof.
  intros Hne. unfold last_reference, task_at.
  by rewrite heap_task_free_locked_ne.
Qed.

Lemma foldl_ext_in {A B : Type} (f g : A -> B -> A) (l : list B) :
  (forall a x, x ∈ l -> f a x = g a x) ->
  forall a, foldl f a l = foldl g a l.
Proof.
  induction l as [|x l IH]; intros Hfg a; [done|]. cbn.
  rewrite Hfg by (by left). apply IH. intros a' y Hy. apply Hfg. by right.
Qed.

Lemma queue_update_scan_release (l : list Z) :
  forall (pre : list Z) (n : Z) (s : state),
  tasklist s = pre ++ l ->
  NoDup (pre ++ l) ->
  Forall (fun p => is_Some (heap s !! p)) l ->
  let s' := (queue_update_scan l n s).2 in
  let reclaimed := filter (fun p => task_complete s p = true) l in
  (forall (p : Z) (t : nvdla_task),
     p ∈ reclaimed -> heap s !! p = Some t ->
     heap s' !! p = task_put_result t) /\
  registry s' =
    foldl (fun m p => nvdla_unmap_task_memory (task_at s p) m) (registry s)
      reclaimed /\
  freed_tasks (log s') =
    freed_tasks (log s) ++
    filter (fun p => last_reference s p = true) reclaimed.
Proof.
  induction l as [|p rest IH]; intros pre n s Hl Hnd Hlive; cbv zeta.
  - cbn. split_and!; [|done|by rewrite app_nil_r].
    intros p t Hp. by apply not_elem_of_nil in Hp.
  - apply Forall_cons in Hlive as [[t Ht] Hlive].
    assert (Hp : p ∉ rest).
    { apply NoDup_app in Hnd as (_ & _ & Hnd).
      by apply NoDup_cons in Hnd as [? _]. }
    cbn [queue_update_scan]. rewrite Ht.
    assert (Hc : task_complete s p =
                 nvhost_syncpt_is_expired_ext s (fence t)).
    { unfold task_complete, task_at. by rewrite Ht. }
    rewrite <- Hc. rewrite filter_cons.
    destruct (task_complete s p) eqn:Hdone.
    + set (s1 := nvdla_task_free_locked p s).
      assert (Hext : forall q, q ≠ p ->
                task_complete s1 q = task_complete s q).
      { intros q Hq. by apply task_complete_free_locked. }
      assert (Hl1 : tasklist s1 = pre ++ rest).
      { unfold s1. rewrite tasklist_task_free_locked, Hl.
        by apply list_del_middle. }
      assert (Hnd1 : NoDup (pre ++ rest)).
      { apply NoDup_app in Hnd as (Hpre & Hdisj & Hnd).
        apply NoDup_cons in Hnd as [_ Hrest].
        apply NoDup_app. split_and!; [done| |done].
        intros x Hx Hx'. apply (Hdisj x Hx). by right. }
      assert (Hlive1 : Forall (fun q => is_Some (heap s1 !! q)) rest).
      { apply Forall_forall. intros q Hq. unfold s1.
        rewrite heap_task_free_locked_ne by set_solver.
        by apply (proj1 (Forall_forall _ _) Hlive). }
      destruct (IH pre (n + 1) s1 Hl1 Hnd1 Hlive1) as (Hheap & Hreg & Hfree).
      destruct (queue_update_scan_heap rest pre (n + 1) s1 Hl1 Hnd1 Hlive1)
        as [_ Hother].
      destruct (task_free_locked_release p s t Ht) as (Hp1 & Hr1 & Hf1).
      fold s1 in Hp1, Hr1, Hf1.
      rewrite (filter_ext_in (fun q => task_complete s1 q = true)
                 (fun q => task_complete s q = true)) in Hheap, Hreg, Hfree
        by (intros q Hq; rewrite Hext; [done|set_solver]).
      rewrite decide_True by done. split_and!.
      * intros q tq Hq Htq. apply elem_of_cons in Hq as [->|Hq].
        -- rewrite Hother by (by left). rewrite Hp1. congruence.
        -- assert (Hne : q ≠ p).
           { intros ->. apply list_elem_of_filter in Hq as [_ Hq]. done. }
           apply Hheap; [done|]. unfold s1.
           by rewrite heap_task_free_locked_ne.
      * rewrite Hreg, Hr1. cbn [foldl].
        replace (task_at s p) with t by (unfold task_at; by rewrite Ht).
        apply foldl_ext_in. intros m q Hq.
        unfold task_at, s1. rewrite heap_task_free_locked_ne; [done|].
        intros ->. apply list_elem_of_filter in Hq as [_ Hq]. done.
      * rewrite Hfree, Hf1, filter_cons, <- app_assoc. f_equal.
        rewrite (filter_ext_in (fun q => last_reference s1 q = true)
                   (fun q => last_reference s q = true)).
        -- by destruct (last_reference s p).
        -- intros q Hq. unfold s1. rewrite last_reference_free_locked; [done|].
           intros ->. apply list_elem_of_filter in Hq as [_ Hq]. done.
    + rewrite decide_False by done.
      destruct (IH (pre ++ [p]) n s) as (Hheap & Hreg & Hfree);
        [by rewrite <- app_assoc|by rewrite <- app_assoc|done|].
      done.
Qed.

(** C9: one pass of the completion notifier reclaims a prefix of the task
    list, in submission order.  Given a well-formed queue whose targets do
    not decrease along the list (as the 32-bit comparison against the
    current counter sees them), the tasks handed to
    [nvdla_task_free_locked] are the complete ones, they form the head of
    the list and are taken in list order, the incomplete ones stay in
    order, and the power references are released in one
    [nvhost_module_idle_mult] call after the scan, one per reclaimed
    task.  Each reclaimed task is freed as the code frees: its buffers
    are unmapped, in list order, its reference count goes down by one and
    so does the queue's, and its memory goes back to the pool when that
    was the last reference; no other task is touched. *)
Theorem queue_update_reclaims_prefix (s : state) :
  queue_wf s ->
  targets_in_order s (tasklist s) ->
  exists reclaimed : list Z,
    tasklist s = reclaimed ++ tasklist (nvdla_queue_update s) /\
    Forall (fun p => task_complete s p = true) reclaimed /\
    Forall (fun p => task_complete s p = false)
      (tasklist (nvdla_queue_update s)) /\
    completed_tasks (log (nvdla_queue_update s)) =
      completed_tasks (log s) ++ reclaimed /\
    power_events (log (nvdla_queue_update s)) =
      power_events (log s) ++
      [ev_module_idle_mult (Z.of_nat (length reclaimed))] /\
    power_refs (nvdla_queue_update s) =
      power_refs s - Z.of_nat (length reclaimed) /\
    queue_refs (nvdla_queue_update s) =
      queue_refs s - Z.of_nat (length reclaimed) /\
    (forall (p : Z) (t : nvdla_task),
       p ∈ reclaimed -> heap s !! p = Some t ->
       heap (nvdla_queue_update s) !! p = task_put_result t) /\
    (forall q : Z, q ∉ reclaimed ->
       heap (nvdla_queue_update s) !! q = heap s !! q) /\
    registry (nvdla_queue_update s) =
      foldl (fun m p => nvdla_unmap_task_memory (task_at s p) m)
        (registry s) reclaimed /\
    freed_tasks (log (nvdla_queue_update s)) =
      freed_tasks (log s) ++
      filter (fun p => last_reference s p = true) reclaimed.
Proof.
  intros [Hnd Hlive] Hord.
  exists (filter (fun p => task_complete s p = true) (tasklist s)).
  destruct (queue_update_scan_spec (tasklist s) [] 0 s)
    as (s' & Hscan & Htl & Hmin & Hmax & Hpw & Hct & Hpe); try done.
  destruct (queue_update_scan_heap (tasklist s) [] 0 s) as [Hrefs Hheap];
    try done.
  destruct (queue_update_scan_release (tasklist s) [] 0 s)
    as (Hput & Hreg & Hfree); try done.
  rewrite Hscan in Hrefs, Hheap, Hput, Hreg, Hfree.
  cbn [snd] in Hrefs, Hheap, Hput, Hreg, Hfree.
  unfold nvdla_queue_update. rewrite Hscan.
  change (tasklist (nvhost_module_idle_mult ?n s')) with (tasklist s').
  change (heap (nvhost_module_idle_mult ?n s')) with (heap s').
  change (registry (nvhost_module_idle_mult ?n s')) with (registry s').
  change (queue_refs (nvhost_module_idle_mult ?n s')) with (queue_refs s').
  change (power_refs (nvhost_module_idle_mult ?n s'))
    with (power_refs s' - n).
  change (log (nvhost_module_idle_mult ?n s'))
    with (log s' ++ [ev_module_idle_mult n]).
  unfold completed_tasks, power_events, freed_tasks in *.
  rewrite !omap_app, filter_app, Htl, Hpw, Hct, Hpe, Hfree. cbn.
  rewrite !app_nil_r, Z.add_0_l.
  split_and!; try done.
  - by apply targets_in_order_split.
  - apply Forall_forall. intros p Hp.
    by apply list_elem_of_filter in Hp as [? _].
  - apply Forall_forall. intros p Hp.
    apply list_elem_of_filter in Hp as [Hp _].
    by destruct (task_complete s p).
  - intros q Hq. apply Hheap.
    destruct (task_complete s q) eqn:Hc; [left|by right].
    intros Hin. apply Hq. by apply list_elem_of_filter.
Qed.

Lemma queue_update_witness :
  exists reclaimed : list Z,
    tasklist state3_at2 = reclaimed ++ tasklist (nvdla_queue_update state3_at2) /\
    Forall (fun p => task_complete state3_at2 p = true) reclaimed /\
    Forall (fun p => task_complete state3_at2 p = false)
      (tasklist (nvdla_queue_update state3_at2)) /\
    completed_tasks (log (nvdla_queue_update state3_at2)) =
      completed_tasks (log state3_at2) ++ reclaimed /\
    power_events (log (nvdla_queue_update state3_at2)) =
      power_events (log state3_at2) ++
      [ev_module_idle_mult (Z.of_nat (length reclaimed))] /\
    power_refs (nvdla_queue_update state3_at2) =
      power_refs state3_at2 - Z.of_nat (length reclaimed) /\
    queue_refs (nvdla_queue_update state3_at2) =
      queue_refs state3_at2 - Z.of_nat (length reclaimed) /\
    (forall (p : Z) (t : nvdla_task),
       p ∈ reclaimed -> heap state3_at2 !! p = Some t ->
       heap (nvdla_queue_update state3_at2) !! p = task_put_result t) /\
    (forall q : Z, q ∉ reclaimed ->
       heap (nvdla_queue_update state3_at2) !! q = heap state3_at2 !! q) /\
    registry (nvdla_queue_update state3_at2) =
      foldl (fun m p => nvdla_unmap_task_memory (task_at state3_at2 p) m)
        (registry state3_at2) reclaimed /\
    freed_tasks (log (nvdla_queue_update state3_at2)) =
      freed_tasks (log state3_at2) ++
      filter (fun p => last_reference state3_at2 p = true) reclaimed.
Proof.
  apply (queue_update_reclaims_prefix state3_at2).
  - unfold queue_wf.
    replace (tasklist state3_at2) with [100; 200; 300] by reflexivity.
    split.
    + apply (bool_decide_unpack (NoDup [100; 200; 300])). exact I.
    + repeat apply Forall_cons_2; try apply Forall_nil_2;
        eexists; vm_compute; reflexivity.
  - replace (tasklist state3_at2) with [100; 200; 300] by reflexivity.
    cbn [targets_in_order].
    repeat split; repeat constructor; vm_compute; discriminate.
Defined.

(** The scenario of the specification on the sample queue: the pass
    reclaims tasks 100 and 200 and leaves task 300. *)
Example queue_update_scenario :
  tasklist state3_at2 = [100; 200; 300] /\
  tasklist (nvdla_queue_update state3_at2) = [300] /\
  completed_tasks (log (nvdla_queue_update state3_at2)) = [100; 200] /\
  power_refs (nvdla_queue_update state3_at2) = 1 /\
  queue_refs (nvdla_queue_update state3_at2) = 1 /\
  ref <$> (heap state3_at2 !! 100) = Some 2%nat /\
  ref <$> (heap (nvdla_queue_update state3_at2) !! 100) = Some 1%nat /\
  freed_tasks (log (nvdla_queue_update state3_at2)) = [].
Proof. repeat split; reflexivity. Qed.

(** ** Abort *)

(** The flush loop only adds events. *)
Lemma flush_engine_frame (e : env) (retry : nat) :
  forall (k : nat) (s : state),
  exists l : list event,
    snd (flush_engine e retry k s) =
      State (registry s) (syncpt_min s) (syncpt_max s) (power_refs s)
        (queue_refs s) (tasklist s) (heap s) (log s ++ l).
Proof.
  induction retry as [|r IH]; intros k s.
  - exists []. cbn. rewrite app_nil_r. by destruct s.
  - cbn [flush_engine]. unfold nvdla_send_cmd.
    destruct (nvdla_send_cmd_ret e k =? DLA_ERR_PROCESSOR_BUSY e).
    + destruct r as [|r'].
      * exists [ev_send_cmd (DLA_CMD_QUEUE_FLUSH (queue_id e));
                ev_mdelay NVDLA_QUEUE_ABORT_RETRY_PERIOD].
        unfold emit. cbn. by rewrite <- app_assoc.
      * destruct (IH (S k)
          (emit (ev_mdelay NVDLA_QUEUE_ABORT_RETRY_PERIOD)
             (emit (ev_send_cmd (DLA_CMD_QUEUE_FLUSH (queue_id e))) s)))
          as [l Hl].
        exists ([ev_send_cmd (DLA_CMD_QUEUE_FLUSH (queue_id e));
                 ev_mdelay NVDLA_QUEUE_ABORT_RETRY_PERIOD] ++ l).
        rewrite Hl. unfold emit. cbn. by rewrite <- !app_assoc.
    + exists [ev_send_cmd (DLA_CMD_QUEUE_FLUSH (queue_id e))]. done.
Qed.




(** After a submission that failed at power-on, the queue holds task 100
    alone, whose target is 1, while the maximum of the syncpoint is 2, the
    target of the withdrawn task 200: the abort forces the counter to 2,
    past the target of the tail of the list. *)
Example abort_counter_past_list_tail :
  tasklist state_after_failed_submit = [100] /\
  fence (task_at state_after_failed_submit 100) = 1 /\
  fst (nvdla_queue_abort_op env0 state_after_failed_submit) = 0 /\
  syncpt_min (snd (nvdla_queue_abort_op env0 state_after_failed_submit)) = 2 /\
  syncpt_min (snd (nvdla_queue_abort_op env0 state_after_failed_submit)) ≠
    fence (task_at state_after_failed_submit 100).
Proof.
  split_and!; try reflexivity. vm_compute. discriminate.
Qed.

(** The scenario of the specification, continued: with task 300 left in
    the queue, the abort forces the counter to its target 3 and the next
    pass reclaims it. *)
Example abort_scenario :
  let s := nvdla_queue_update state3_at2 in
  tasklist s = [300] /\
  fst (nvdla_queue_abort_op env0 s) = 0 /\
  syncpt_min (snd (nvdla_queue_abort_op env0 s)) = 3 /\
  tasklist (nvdla_queue_update (snd (nvdla_queue_abort_op env0 s))) = [].
Proof. repeat split; reflexivity. Qed.

(** ** Signal fence values *)

Lemma u32_sub_u32 (a b : Z) : u32 (a - u32 b) = u32 (a - b).
Proof. unfold u32. by rewrite Zminus_mod_idemp_r. Qed.

Lemma u32_congr_sub (tf c1 c2 k : Z) :
  u32 c1 = u32 c2 -> u32 (tf - (c1 - k)) = u32 (tf - (c2 - k)).
Proof.
  intros Hc.
  replace (tf - (c1 - k)) with (tf + k - c1) by lia.
  replace (tf - (c2 - k)) with (tf + k - c2) by lia.
  by rewrite <- (u32_sub_u32 _ c1), <- (u32_sub_u32 _ c2), Hc.
Qed.

Lemma is_signal_syncpt_set_syncpoint (id v : Z) (f : nvdev_fence) :
  is_signal_syncpt (set_syncpoint id v f) = is_signal_syncpt f.
Proof. reflexivity. Qed.

(** One loop: the [k]-th fence it writes to receives
    [task_fence - (counter - k)], where [counter] is the value at loop
    entry; at the exit the counter has gone down by the number of fences
    written. *)
Lemma update_signal_fences_spec (id tf : Z) (fences : list nvdev_fence) :
  forall c : Z,
  signal_values (update_signal_fences id tf fences c).1 =
    imap (fun k _ => u32 (tf - (c - Z.of_nat k)))
      (filter (fun f => is_signal_syncpt f = true) fences) /\
  u32 (update_signal_fences id tf fences c).2 =
    u32 (c - Z.of_nat
               (length (filter (fun f => is_signal_syncpt f = true) fences))).
Proof.
  unfold signal_values.
  induction fences as [|f rest IH]; intros c.
  - cbn. split; [done|]. f_equal. lia.
  - cbn [update_signal_fences]. rewrite (filter_cons _ f rest).
    assert (Hsig : is_signal_syncpt f =
              bool_decide (action f = NVDEV_FENCE_SIGNAL) &&
              is_syncpt_type f) by done.
    destruct (bool_decide (action f = NVDEV_FENCE_SIGNAL));
      cbn [negb andb] in *.
    + destruct (is_syncpt_type f).
      * destruct (IH (u32 (c - 1))) as [IHv IHc].
        destruct (update_signal_fences id tf rest (u32 (c - 1)))
          as [rest' c'].
        cbn [fst snd] in *.
        rewrite filter_cons, is_signal_syncpt_set_syncpoint.
        rewrite !decide_True by done.
        cbn [map length imap syncpoint_value set_syncpoint].
        rewrite IHv, IHc. split.
        -- f_equal; [f_equal; lia|]. apply imap_ext. intros k x _. cbn.
           replace (c - Z.of_nat (S k)) with (c - 1 - Z.of_nat k) by lia.
           apply u32_congr_sub. unfold u32. by rewrite Zmod_mod.
        -- unfold u32. rewrite Zminus_mod_idemp_l. f_equal. lia.
      * destruct (IH c) as [IHv IHc].
        destruct (update_signal_fences id tf rest c) as [rest' c'].
        cbn [fst snd] in *.
        rewrite filter_cons. rewrite !decide_False by (rewrite Hsig; done).
        by rewrite IHv, IHc.
    + destruct (IH c) as [IHv IHc].
      destruct (update_signal_fences id tf rest c) as [rest' c'].
      cbn [fst snd] in *.
      rewrite filter_cons. rewrite !decide_False by (rewrite Hsig; done).
      by rewrite IHv, IHc.
Qed.

Lemma signal_values_app (l1 l2 : list nvdev_fence) :
  signal_values (l1 ++ l2) = signal_values l1 ++ signal_values l2.
Proof. unfold signal_values. by rewrite filter_app, map_app. Qed.

(** Both loops of a function, one after the other: the counter runs on
    from the prefences into the postfences. *)
Lemma update_signal_fences_both (id tf c : Z) (pre post : list nvdev_fence) :
  signal_values
    ((update_signal_fences id tf pre c).1 ++
     (update_signal_fences id tf post (update_signal_fences id tf pre c).2).1) =
  imap (fun k _ => u32 (tf - (c - Z.of_nat k)))
    (filter (fun f => is_signal_syncpt f = true) (pre ++ post)).
Proof.
  rewrite signal_values_app, filter_app, imap_app.
  destruct (update_signal_fences_spec id tf pre c) as [Hv1 Hc1].
  destruct (update_signal_fences_spec id tf post
              (update_signal_fences id tf pre c).2) as [Hv2 _].
  rewrite Hv1, Hv2. f_equal. apply imap_ext. intros k x _. cbn.
  set (n := length _) in *.
  replace (c - Z.of_nat (n + k)) with (c - Z.of_nat n - Z.of_nat k) by lia.
  apply u32_congr_sub. exact Hc1.
Qed.

Lemma count_signal_fences_spec (fences : list nvdev_fence) :
  forall c : Z,
  (count_signal_fences fences c).1 = false ->
  u32 (count_signal_fences fences c).2 =
    u32 (c + Z.of_nat
               (length (filter (fun f => is_signal_syncpt f = true) fences))).
Proof.
  induction fences as [|f rest IH]; intros c.
  - cbn. intros _. f_equal. lia.
  - cbn [count_signal_fences]. rewrite filter_cons.
    assert (Hsig : is_signal_syncpt f =
              bool_decide (action f = NVDEV_FENCE_SIGNAL) &&
              is_syncpt_type f) by done.
    destruct (bool_decide (action f = NVDEV_FENCE_SIGNAL));
      cbn [negb andb] in *.
    + destruct (is_syncpt_type f); [|done].
      rewrite decide_True by done. intros Hok. rewrite (IH _ Hok).
      cbn [length]. unfold u32. rewrite Zplus_mod_idemp_l. f_equal. lia.
    + rewrite decide_False by (rewrite Hsig; done). apply IH.
Qed.

(** C7 (amended): in both functions the [k]-th fence written (action
    signal, syncpoint type; prefences first) receives
    [fence - (fence_counter - 1 - k)] modulo 2^32, where [fence] is the
    value computed from the reservation.  In [nvdla_emulator_submit]
    [fence_counter] is the number [n] of those fences, so the [k]-th
    receives the fence minus the [n - 1 - k] signals after it and the last
    receives the fence. *)
Theorem signal_fence_values (e : env) (maxval : Z) :
  (forall task : nvdla_task,
     let r := nvdla_get_signal_fences e maxval task in
     signal_values (prefences r.1.2 ++ postfences r.1.2) =
       imap (fun k _ => u32 (r.2 - (fence_counter r.1.2 - 1 - Z.of_nat k)))
         (filter (fun f => is_signal_syncpt f = true)
            (prefences task ++ postfences task))) /\
  (forall task : nvdla_emu_task,
     let r := nvdla_emulator_submit e maxval task in
     let n := length (filter (fun f => is_signal_syncpt f = true)
                        (emu_prefences task ++ emu_postfences task)) in
     r.1.1 = - EINVAL \/
     (r.1.1 = 0 /\
      emu_fence r.1.2 = u32 (maxval + Z.of_nat n) /\
      signal_values (emu_prefences r.1.2 ++ emu_postfences r.1.2) =
        imap (fun k _ =>
                u32 (emu_fence r.1.2 - (Z.of_nat n - 1 - Z.of_nat k)))
          (filter (fun f => is_signal_syncpt f = true)
             (emu_prefences task ++ emu_postfences task)))).
Proof.
  split.
  - intros task. unfold nvdla_get_signal_fences. cbv zeta.
    set (task1 := if fence_counter task =? 0 then _ else _).
    assert (Hpre : prefences task1 = prefences task)
      by (unfold task1; by destruct (_ =? _)).
    assert (Hpost : postfences task1 = postfences task)
      by (unfold task1; by destruct (_ =? _)).
    rewrite Hpre, Hpost.
    pose proof (update_signal_fences_both (syncpt_id e)
                  (u32 (maxval + fence_counter task1))
                  (u32 (fence_counter task1 - 1))
                  (prefences task) (postfences task)) as Hboth.
    destruct (update_signal_fences _ _ (prefences task) _) as [pre c1].
    destruct (update_signal_fences _ _ (postfences task) _) as [post c2].
    cbn [fst snd prefences postfences fence_counter set_fences] in *.
    rewrite Hboth. apply imap_ext. intros k x _. cbn.
    apply u32_congr_sub. unfold u32. by rewrite Zmod_mod.
  - intros task. unfold nvdla_emulator_submit. cbv zeta.
    pose proof (count_signal_fences_spec (emu_prefences task) 0) as H1.
    destruct (count_signal_fences (emu_prefences task) 0) as [bad1 fc1].
    destruct bad1; [by left|].
    pose proof (count_signal_fences_spec (emu_postfences task) fc1) as H2.
    destruct (count_signal_fences (emu_postfences task) fc1) as [bad2 fc2].
    destruct bad2; [by left|]. right.
    cbn [fst snd] in *. specialize (H1 eq_refl). specialize (H2 eq_refl).
    assert (Hfc : u32 fc2 =
      u32 (Z.of_nat (length (filter (fun f => is_signal_syncpt f = true)
             (emu_prefences task ++ emu_postfences task))))).
    { rewrite H2, filter_app, length_app. unfold u32 in *.
      rewrite <- Zplus_mod_idemp_l, H1, Zplus_mod_idemp_l. f_equal. lia. }
    pose proof (update_signal_fences_both (syncpt_id e)
                  (nvhost_syncpt_incr_max_ext maxval fc2)
                  (u32 (fc2 - 1))
                  (emu_prefences task) (emu_postfences task)) as Hboth.
    destruct (update_signal_fences _ _ (emu_prefences task) _) as [pre c1].
    destruct (update_signal_fences _ _ (emu_postfences task) _) as [post c2].
    cbn [fst snd emu_prefences emu_postfences emu_fence] in *.
    split; [done|]. split.
    + unfold nvhost_syncpt_incr_max_ext, u32 in *.
      by rewrite <- Zplus_mod_idemp_r, Hfc, Zplus_mod_idemp_r.
    + rewrite Hboth. apply imap_ext. intros k x _. cbn.
      apply u32_congr_sub. unfold u32 in *.
      rewrite Zmod_mod, <- Zminus_mod_idemp_l, Hfc, Zminus_mod_idemp_l.
      done.
Qed.

(** [nvdla_fill_task_desc] counts the stride prefence of [task_stride] in
    [fence_counter], [nvdla_get_signal_fences] does not write to it: the
    one fence written, the last signal of the task, receives 11 while the
    task's fence is 12. *)
Lemma last_signal_fence_misses_task_fence :
  let built := (nvdla_fill_task_desc env0 task_stride false 0 ∅).1.1.2 in
  let r := nvdla_get_signal_fences env0 10 built in
  (nvdla_fill_task_desc env0 task_stride false 0 ∅).1.1.1 = 0 /\
  fence_counter built = 2 /\
  r.2 = 12 /\
  signal_values (prefences r.1.2 ++ postfences r.1.2) = [11] /\
  last (signal_values (prefences r.1.2 ++ postfences r.1.2)) ≠ Some r.2.
Proof.
  cbv zeta. split_and!; try reflexivity. vm_compute. discriminate.
Qed.

(** The values on the task of the round-trip property, whose counter is
    the number of its signals. *)
Example signal_fence_values_task0 :
  let built := (nvdla_fill_task_desc env0 task0 false 0 ∅).1.1.2 in
  let r := nvdla_get_signal_fences env0 10 built in
  fence_counter built = 1 /\ r.2 = 11 /\
  signal_values (prefences r.1.2 ++ postfences r.1.2) = [11].
Proof. repeat split; reflexivity. Qed.

(** ** The counter increment of a task *)

Lemma get_signal_fences_counter (e : env) (maxval : Z) (task : nvdla_task) :
  fence_counter (nvdla_get_signal_fences e maxval task).1.2 =
    (if fence_counter task =? 0 then 1 else fence_counter task) /\
  (nvdla_get_signal_fences e maxval task).2 =
    u32 (maxval + (if fence_counter task =? 0 then 1 else fence_counter task)) /\
  (nvdla_get_signal_fences e maxval task).1.1 = 0.
Proof.
  unfold nvdla_get_signal_fences. cbv zeta.
  destruct (fence_counter task =? 0) eqn:Hz;
    destruct (update_signal_fences _ _ (prefences _) _) as [pre c1];
    destruct (update_signal_fences _ _ (postfences _) _) as [post c2];
    done.
Qed.

(** C10: [nvdla_get_signal_fences] forces a zero [fence_counter] to one
    and leaves any other value, so the task consumes at least one
    increment.  Its target is the previous maximum plus that count modulo
    2^32, and it is strictly later than the previous target in the
    wraparound-safe comparison of the 32-bit counter, by exactly the
    count; so a counter that stands at the previous target has not
    reached the new one.  The count of a task is the number of its
    signal fences, below 2^31.  Where the sum does not wrap, the target
    is also the greater number. *)
Theorem get_signal_fences_forces_increment (e : env) (maxval : Z)
  (task : nvdla_task) :
  0 <= maxval < 2 ^ 32 ->
  0 <= fence_counter task < 2 ^ 31 ->
  let r := nvdla_get_signal_fences e maxval task in
  r.1.1 = 0 /\
  (fence_counter task = 0 -> fence_counter r.1.2 = 1) /\
  (fence_counter task ≠ 0 -> fence_counter r.1.2 = fence_counter task) /\
  1 <= fence_counter r.1.2 /\
  r.2 = u32 (maxval + fence_counter r.1.2) /\
  r.2 ≠ maxval /\
  s32 (r.2 - maxval) = fence_counter r.1.2 /\
  0 < s32 (r.2 - maxval) /\
  s32 (maxval - r.2) < 0 /\
  (maxval + fence_counter r.1.2 < 2 ^ 32 -> maxval < r.2).
Proof.
  intros Hmax Hfc. cbv zeta.
  destruct (get_signal_fences_counter e maxval task) as (Hc & Hf & Hr).
  rewrite Hc, Hf, Hr. unfold s32, u32.
  change (2 ^ 32) with 4294967296 in *.
  change (2 ^ 31) with 2147483648 in *.
  destruct (Z.eqb_spec (fence_counter task) 0) as [Hz|Hz].
  - split_and!; try done; try lia.
    + Z.div_mod_to_equations. lia.
    + rewrite Zminus_mod_idemp_l.
      replace (maxval + 1 - maxval) with 1 by lia. reflexivity.
    + rewrite Zminus_mod_idemp_l.
      replace (maxval + 1 - maxval) with 1 by lia. reflexivity.
    + rewrite Zminus_mod_idemp_r.
      replace (maxval - (maxval + 1)) with (-1) by lia. reflexivity.
    + intros Hlt. rewrite Z.mod_small by lia. lia.
  - assert (Hmod : (fence_counter task) mod 4294967296 = fence_counter task)
      by (apply Z.mod_small; lia).
    assert (Hneg : (- fence_counter task) mod 4294967296 =
                   4294967296 - fence_counter task).
    { symmetry. apply (Z.mod_unique_pos _ _ (-1)); lia. }
    split_and!; try done; try lia.
    + Z.div_mod_to_equations. lia.
    + rewrite Zminus_mod_idemp_l.
      replace (maxval + fence_counter task - maxval)
        with (fence_counter task) by lia.
      rewrite Hmod. destruct (Z.ltb_spec (fence_counter task) 2147483648); lia.
    + rewrite Zminus_mod_idemp_l.
      replace (maxval + fence_counter task - maxval)
        with (fence_counter task) by lia.
      rewrite Hmod. destruct (Z.ltb_spec (fence_counter task) 2147483648); lia.
    + rewrite Zminus_mod_idemp_r.
      replace (maxval - (maxval + fence_counter task))
        with (- fence_counter task) by lia.
      rewrite Hneg.
      destruct (Z.ltb_spec (4294967296 - fence_counter task) 2147483648);
        lia.
    + intros Hlt. rewrite Z.mod_small by lia. lia.
Qed.

Lemma get_signal_fences_witness :
  let r := nvdla_get_signal_fences env0 4294967295 task0 in
  r.1.1 = 0 /\
  (fence_counter task0 = 0 -> fence_counter r.1.2 = 1) /\
  (fence_counter task0 ≠ 0 -> fence_counter r.1.2 = fence_counter task0) /\
  1 <= fence_counter r.1.2 /\
  r.2 = u32 (4294967295 + fence_counter r.1.2) /\
  r.2 ≠ 4294967295 /\
  s32 (r.2 - 4294967295) = fence_counter r.1.2 /\
  0 < s32 (r.2 - 4294967295) /\
  s32 (4294967295 - r.2) < 0 /\
  (4294967295 + fence_counter r.1.2 < 2 ^ 32 -> 4294967295 < r.2).
Proof.
  apply (get_signal_fences_forces_increment env0 4294967295 task0).
  - lia.
  - simpl. lia.
Defined.

(** With the maximum at 0xFFFFFFFF the forced increment wraps: the new
    target is the number 0, and it is one step later than the previous
    target in the comparison the completion notifier uses. *)
Example target_past_the_wrap :
  let r := nvdla_get_signal_fences env0 4294967295 task0 in
  fence_counter r.1.2 = 1 /\
  r.2 = 0 /\
  s32 (r.2 - 4294967295) = 1 /\
  nvhost_syncpt_is_expired_ext (set_syncpt_min 4294967295 state0) r.2 = false.
Proof. cbv zeta. split_and!; reflexivity. Qed.

(** ** Action-list builder *)

Lemma for_each_appends {A : Type} (body : A -> fill_ctx -> Z * fill_ctx)
  (out : A -> list dla_action) (l : list A) :
  appends body out -> step_appends (for_each body l) (concat (map out l)).
Proof.
  intros Hbody. induction l as [|x rest IH]; intros c.
  - right. cbn. by rewrite app_nil_r.
  - cbn [for_each]. destruct (Hbody x c) as [Hneg|[Hz Hmem]];
      destruct (body x c) as [err c1]; cbn [fst snd] in *.
    + left. destruct (Z.ltb_spec err 0); [done|lia].
    + subst err. cbn [Z.ltb Z.compare].
      destruct (IH c1) as [Hfail|(Hok & Herr & Hnext)]; [by left|right].
      rewrite Hok, Herr, Hnext, Hmem. cbn [map concat].
      by rewrite <- app_assoc.
Qed.

Lemma and_then_appends (a b : Z -> fill_ctx -> bool * Z * fill_ctx)
  (o1 o2 : list dla_action) :
  step_appends a o1 -> step_appends b o2 ->
  step_appends (and_then a b) (o1 ++ o2).
Proof.
  intros Ha Hb c. unfold and_then.
  destruct (Ha c) as [[Hf Hneg]|(Hok & Herr & Hnext)];
    destruct (a 0 c) as [[failed err] c1]; cbn [fst snd] in *; subst.
  - by left.
  - destruct (Hb c1) as [Hfail|(Hok2 & Herr2 & Hnext2)]; [by left|right].
    rewrite Hok2, Herr2, Hnext2, Hnext. by rewrite <- app_assoc.
Qed.

Lemma minus_EINVAL_neg : - EINVAL < 0.
Proof. unfold EINVAL. lia. Qed.

Lemma foreach_pt_appends (e : env) (pts : list (Z * Z)) :
  forall next : list dla_action,
    (nvhost_fence_foreach_pt e pts next).1 < 0 \/
    ((nvhost_fence_foreach_pt e pts next).1 = 0 /\
     (nvhost_fence_foreach_pt e pts next).2 =
       next ++ map (fun pt : Z * Z =>
                      action_semaphore ACTION_SEM_GE
                        (u64 (nvhost_syncpt_address e pt.1)) (u32 pt.2)) pts).
Proof.
  induction pts as [|[id thresh] rest IH]; intros next.
  - right. cbn. by rewrite app_nil_r.
  - cbn [nvhost_fence_foreach_pt nvdla_add_fence_action_cb].
    destruct ((id =? 0) || negb (nvhost_syncpt_is_valid_pt_ext e id)).
    + left. cbn. apply minus_EINVAL_neg.
    + cbn [Z.eqb fst snd]. unfold add_fence_action.
      destruct (IH (next ++
                  [action_semaphore ACTION_SEM_GE
                     (u64 (nvhost_syncpt_address e id)) (u32 thresh)]))
        as [Hneg|[Hz Hnext]]; [by left|right].
      rewrite Hz, Hnext. cbn [map fst snd]. by rewrite <- app_assoc.
Qed.

Lemma wait_fence_appends (e : env) :
  appends (nvdla_fill_wait_fence_action e) (wait_fence_records e).
Proof.
  intros f [m fc next].
  unfold nvdla_fill_wait_fence_action, wait_fence_records,
    nvdla_buffer_submit_pin, add_fence_action.
  cbn [pins counter mem_next].
  destruct (type f).
  - right. done.
  - destruct (nvhost_fence_get e (sync_fd f)) as [pts|].
    + destruct (foreach_pt_appends e pts next) as [Hneg|[Hz Hnext]];
        destruct (nvhost_fence_foreach_pt e pts next) as [err next'];
        cbn [fst snd] in *.
      * left. by destruct (err =? 0).
      * right. by subst.
    + right. cbn. by rewrite app_nil_r.
  - destruct (buffer_lookup e (semaphore_handle f)); right; cbn;
      by rewrite ?app_nil_r.
  - destruct (buffer_lookup e (semaphore_handle f)); right; cbn;
      by rewrite ?app_nil_r.
  - left. cbn. apply minus_EINVAL_neg.
Qed.

Lemma signal_fence_appends (e : env) :
  appends (nvdla_fill_signal_fence_action e) (signal_fence_records e).
Proof.
  intros f [m fc next].
  unfold nvdla_fill_signal_fence_action, signal_fence_records,
    nvdla_buffer_submit_pin, add_fence_action.
  cbn [pins counter mem_next].
  destruct (type f).
  - right. done.
  - right. done.
  - destruct (buffer_lookup e (semaphore_handle f)); cbn [negb Z.eqb];
      [destruct (decide (action f = NVDEV_FENCE_SIGNAL_STRIDE))|];
      right; cbn; by rewrite ?app_nil_r.
  - destruct (buffer_lookup e (semaphore_handle f)); right; cbn;
      by rewrite ?app_nil_r.
  - left. cbn. apply minus_EINVAL_neg.
Qed.

Lemma status_read_appends (e : env) :
  appends (nvdla_fill_taskstatus_read_action e)
    (status_records e ACTION_TASK_STATUS_EQ).
Proof.
  intros st [m fc next].
  unfold nvdla_fill_taskstatus_read_action, status_records,
    nvdla_buffer_submit_pin, add_status_action.
  cbn [pins counter mem_next].
  destruct (buffer_lookup e (sn_handle st)); [right; done|left].
  cbn. apply minus_EINVAL_neg.
Qed.

Lemma status_write_appends (e : env) :
  appends (nvdla_fill_taskstatus_write_action e)
    (status_records e ACTION_WRITE_TASK_STATUS).
Proof.
  intros st [m fc next].
  unfold nvdla_fill_taskstatus_write_action, status_records,
    nvdla_buffer_submit_pin, add_status_action.
  cbn [pins counter mem_next].
  destruct (buffer_lookup e (sn_handle st)); [right; done|left].
  cbn. apply minus_EINVAL_neg.
Qed.

Lemma timestamp_appends (e : env) :
  appends (nvdla_fill_timestamp_write_action e) (timestamp_records e).
Proof.
  intros ts [m fc next].
  unfold nvdla_fill_timestamp_write_action, timestamp_records,
    nvdla_buffer_submit_pin, add_timestamp_action.
  cbn [pins counter mem_next].
  destruct (buffer_lookup e (mh_handle ts)); [right; done|left].
  cbn. apply minus_EINVAL_neg.
Qed.

(** A list that [nvdla_fill_preactions] or [nvdla_fill_postactions]
    completes is the list of the records of its loops. *)
Lemma fill_lists_records (e : env) (task : nvdla_task)
  (m : gmap Z nat) :
  ((nvdla_fill_preactions e task m).1.1 = 0 ->
   preaction_mem (task_desc (nvdla_fill_preactions e task m).1.2) =
     preaction_records e task) /\
  ((nvdla_fill_postactions e task m).1.1 = 0 ->
   postaction_mem (task_desc (nvdla_fill_postactions e task m).1.2) =
     postaction_records e task).
Proof.
  split.
  - unfold nvdla_fill_preactions, preaction_records. cbv zeta.
    match goal with
    | |- context [and_then ?a ?b 0 ?c] =>
        pose proof
          (and_then_appends _ _ _ _
             (for_each_appends _ _
                (filter (fun f => is_wait f = true) (prefences task))
                (wait_fence_appends e))
             (and_then_appends _ _ _ _
                (for_each_appends _ _ (in_task_status task)
                   (status_read_appends e))
                (and_then_appends _ _ _ _
                   (for_each_appends _ _ (sof_task_status task)
                      (status_write_appends e))
                   (and_then_appends _ _ _ _
                      (for_each_appends _ _ (sof_timestamps task)
                         (timestamp_appends e))
                      (for_each_appends _ _
                         (filter (fun f => is_signal f = true)
                            (prefences task))
                         (signal_fence_appends e))))) c) as Hloops;
        destruct (and_then a b 0 c) as [[failed err] c1]
    end.
    cbn [fst snd] in Hloops.
    destruct Hloops as [[-> Hneg]|(-> & -> & Hnext)]; cbn [fst snd].
    + lia.
    + intros _. cbn [task_desc set_task_desc preaction_mem set_preactions].
      unfold add_opcode. rewrite Hnext. cbn [mem_next app].
      by rewrite <- !app_assoc.
  - unfold nvdla_fill_postactions, postaction_records. cbv zeta.
    match goal with
    | |- context [and_then ?a ?b 0 ?c] =>
        pose proof
          (and_then_appends _ _ _ _
             (for_each_appends _ _ (eof_timestamps task)
                (timestamp_appends e))
             (and_then_appends _ _ _ _
                (for_each_appends _ _ (eof_task_status task)
                   (status_write_appends e))
                (for_each_appends _ _ (postfences task)
                   (signal_fence_appends e))) c) as Hloops;
        destruct (and_then a b 0 c) as [[failed err] c1]
    end.
    cbn [fst snd] in Hloops.
    destruct Hloops as [[-> Hneg]|(-> & -> & Hnext)]; cbn [fst snd].
    + lia.
    + intros _. cbn [task_desc set_task_desc postaction_mem set_postactions].
      unfold add_opcode, add_status_action in *. rewrite Hnext.
      cbn [mem_next app]. by rewrite <- !app_assoc.
Qed.

(** The round-trip property of the specification: one wait action in the
    pre-list; the post-list starts with the internal status write,
    followed by the signal. *)
Example action_lists_task0 :
  let built := (nvdla_fill_task_desc env0 task0 false 0 ∅).1.1.2 in
  preaction_mem (task_desc built) =
    [action_semaphore ACTION_SEM_GE 65556 3; action_opcode ACTION_TERMINATE] /\
  postaction_mem (task_desc built) =
    [action_task_status ACTION_WRITE_TASK_STATUS 8704 0;
     action_semaphore ACTION_WRITE_SEM 65556 1;
     action_opcode ACTION_TERMINATE].
Proof. split; reflexivity. Qed.

(** ** Unwinding a failed construction *)

Section NoLeak.

Local Open Scope nat_scope.

Variable e : env.
Variable h : Z.
Hypothesis null_handle_invalid : h ≠ 0%Z \/ buffer_lookup e 0%Z = None.

Lemma pin_count_unpin (h' : Z) (m : gmap Z nat) :
  pin_count (nvdla_buffer_submit_unpin h' m) h =
    pin_count m h - (if (h' =? h)%Z then 1 else 0).
Proof.
  unfold nvdla_buffer_submit_unpin, pin_count.
  destruct (Z.eqb_spec h' h) as [->|Hne].
  - destruct (m !! h) as [[|[|n]]|] eqn:Hm;
      rewrite ?lookup_delete_eq, ?lookup_insert_eq, ?Hm; cbn; lia.
  - destruct (m !! h') as [[|[|n]]|] eqn:Hm;
      rewrite ?lookup_delete_ne, ?lookup_insert_ne by done; lia.
Qed.

Lemma pin_count_unpin_handle (h' : Z) (m : gmap Z nat) :
  pin_count (unpin_handle m h') h = pin_count m h - unpins_handle h' h.
Proof.
  unfold unpin_handle, unpins_handle.
  destruct (h' =? 0)%Z; [lia|]. apply pin_count_unpin.
Qed.

Lemma pin_count_foldl {A : Type} (g : gmap Z nat -> A -> gmap Z nat)
  (cnt : A -> nat) (l : list A) :
  (forall m x, pin_count (g m x) h = pin_count m h - cnt x) ->
  forall m, pin_count (foldl g m l) h = pin_count m h - sum_list_with cnt l.
Proof.
  intros Hg. induction l as [|x rest IH]; intros m; cbn; [lia|].
  rewrite IH, Hg. lia.
Qed.

Lemma pin_count_unmap (task : nvdla_task) (m : gmap Z nat) :
  pin_count (nvdla_unmap_task_memory task m) h =
    pin_count m h - task_unpins h task.
Proof.
  unfold nvdla_unmap_task_memory, task_unpins. cbv zeta.
  rewrite (pin_count_foldl unpin_timestamp (timestamp_unpins h)),
    (pin_count_foldl unpin_timestamp (timestamp_unpins h)),
    (pin_count_foldl unpin_status (status_unpins h)),
    (pin_count_foldl unpin_status (status_unpins h)),
    (pin_count_foldl unpin_fence (fence_unpins h)),
    (pin_count_foldl unpin_status (status_unpins h)),
    (pin_count_foldl unpin_fence (fence_unpins h)),
    (pin_count_foldl unpin_buffer (buffer_unpins h)); [lia|..].
  all: intros m' x;
    unfold unpin_buffer, buffer_unpins, unpin_fence, fence_unpins,
      unpin_status, status_unpins, unpin_timestamp, timestamp_unpins;
    repeat case_match; try apply pin_count_unpin_handle; lia.
Qed.

Lemma pin_count_pin (h' : Z) (m : gmap Z nat) :
  pin_count (nvdla_buffer_submit_pin e h' m).2 h
    <= pin_count m h + unpins_handle h' h.
Proof.
  unfold nvdla_buffer_submit_pin, unpins_handle.
  destruct (buffer_lookup e h') as [dma|] eqn:Hlook; cbn [snd]; [|lia].
  unfold pin_count at 1.
  destruct (Z.eqb_spec h' 0) as [->|Hnz].
  - destruct null_handle_invalid as [Hh|Hnone]; [|congruence].
    rewrite lookup_insert_ne by done. fold (pin_count m h). lia.
  - destruct (Z.eqb_spec h' h) as [->|Hne].
    + rewrite lookup_insert_eq. cbn. lia.
    + rewrite lookup_insert_ne by done. fold (pin_count m h). lia.
Qed.

Lemma wait_fence_pins (f : nvdev_fence) (c : fill_ctx) :
  pin_count (pins (nvdla_fill_wait_fence_action e f c).2) h
    <= pin_count (pins c) h + fence_unpins h f.
Proof.
  unfold nvdla_fill_wait_fence_action, fence_unpins, is_semaphore_fence.
  pose proof (pin_count_pin (semaphore_handle f) (pins c)) as Hpin.
  destruct (type f); cbn [bool_decide decide_rel orb];
    try (repeat case_match; cbn; lia).
  all: destruct (nvdla_buffer_submit_pin e (semaphore_handle f) (pins c))
         as [[perr dma] m'];
       cbn [snd] in Hpin; by destruct (negb (perr =? 0)%Z).
Qed.

Lemma signal_fence_pins (f : nvdev_fence) (c : fill_ctx) :
  pin_count (pins (nvdla_fill_signal_fence_action e f c).2) h
    <= pin_count (pins c) h + fence_unpins h f.
Proof.
  unfold nvdla_fill_signal_fence_action, fence_unpins, is_semaphore_fence.
  pose proof (pin_count_pin (semaphore_handle f) (pins c)) as Hpin.
  destruct (type f); cbn [bool_decide decide_rel orb];
    try (cbn; lia).
  all: destruct (nvdla_buffer_submit_pin e (semaphore_handle f) (pins c))
         as [[perr dma] m'];
       cbn [snd] in Hpin; by repeat case_match.
Qed.

Lemma status_read_pins (st : nvdla_status_notify) (c : fill_ctx) :
  pin_count (pins (nvdla_fill_taskstatus_read_action e st c).2) h
    <= pin_count (pins c) h + status_unpins h st.
Proof.
  unfold nvdla_fill_taskstatus_read_action, status_unpins.
  pose proof (pin_count_pin (sn_handle st) (pins c)) as Hpin.
  destruct (nvdla_buffer_submit_pin e (sn_handle st) (pins c))
    as [[perr dma] m'].
  cbn [snd] in Hpin. by destruct (negb (perr =? 0)%Z).
Qed.

Lemma status_write_pins (st : nvdla_status_notify) (c : fill_ctx) :
  pin_count (pins (nvdla_fill_taskstatus_write_action e st c).2) h
    <= pin_count (pins c) h + status_unpins h st.
Proof.
  unfold nvdla_fill_taskstatus_write_action, status_unpins.
  pose proof (pin_count_pin (sn_handle st) (pins c)) as Hpin.
  destruct (nvdla_buffer_submit_pin e (sn_handle st) (pins c))
    as [[perr dma] m'].
  cbn [snd] in Hpin. by destruct (negb (perr =? 0)%Z).
Qed.

Lemma timestamp_pins (ts : nvdla_mem_handle) (c : fill_ctx) :
  pin_count (pins (nvdla_fill_timestamp_write_action e ts c).2) h
    <= pin_count (pins c) h + timestamp_unpins h ts.
Proof.
  unfold nvdla_fill_timestamp_write_action, timestamp_unpins.
  pose proof (pin_count_pin (mh_handle ts) (pins c)) as Hpin.
  destruct (nvdla_buffer_submit_pin e (mh_handle ts) (pins c))
    as [[perr dma] m'].
  cbn [snd] in Hpin. by destruct (negb (perr =? 0)%Z).
Qed.

Lemma for_each_pins {A : Type} (body : A -> fill_ctx -> Z * fill_ctx)
  (cnt : A -> nat) (l : list A) :
  (forall x c,
     pin_count (pins (body x c).2) h <= pin_count (pins c) h + cnt x) ->
  step_pins (for_each body l) h (sum_list_with cnt l).
Proof.
  intros Hbody. induction l as [|x rest IH]; intros err c; cbn; [lia|].
  specialize (Hbody x c). destruct (body x c) as [err' c'].
  cbn [snd] in Hbody. destruct (err' <? 0)%Z; cbn [snd]; [lia|].
  specialize (IH err' c'). lia.
Qed.

Lemma and_then_pins (a b : Z -> fill_ctx -> bool * Z * fill_ctx)
  (n1 n2 : nat) :
  step_pins a h n1 -> step_pins b h n2 -> step_pins (and_then a b) h (n1 + n2).
Proof.
  intros Ha Hb err c. unfold and_then. specialize (Ha err c).
  destruct (a err c) as [[failed err'] c']. cbn [snd] in Ha.
  destruct failed; cbn [snd]; [lia|]. specialize (Hb err' c'). lia.
Qed.

Lemma wait_signal_unpins (l : list nvdev_fence) :
  sum_list_with (fence_unpins h) (filter (fun f => is_wait f = true) l) +
  sum_list_with (fence_unpins h) (filter (fun f => is_signal f = true) l)
    <= sum_list_with (fence_unpins h) l.
Proof.
  induction l as [|f rest IH]; [done|].
  assert (Hexcl : is_wait f = true -> is_signal f = true -> False).
  { unfold is_wait, is_signal. destruct (action f); vm_compute; congruence. }
  rewrite !filter_cons.
  destruct (decide (is_wait f = true)), (decide (is_signal f = true));
    cbn; try lia.
  exfalso. auto.
Qed.

Lemma fill_preactions_pins (task : nvdla_task) (m : gmap Z nat) :
  pin_count (nvdla_fill_preactions e task m).2 h
    <= pin_count m h +
       (sum_list_with (fence_unpins h) (prefences task) +
        sum_list_with (status_unpins h) (in_task_status task) +
        sum_list_with (status_unpins h) (sof_task_status task) +
        sum_list_with (timestamp_unpins h) (sof_timestamps task)) /\
  same_items (nvdla_fill_preactions e task m).1.2 task.
Proof.
  unfold nvdla_fill_preactions. cbv zeta.
  pose proof (wait_signal_unpins (prefences task)) as Hws.
  match goal with
  | |- context [and_then ?a ?b 0%Z ?c] =>
      pose proof
        (and_then_pins _ _ _ _
           (for_each_pins _ (fence_unpins h)
              (filter (fun f => is_wait f = true) (prefences task))
              wait_fence_pins)
           (and_then_pins _ _ _ _
              (for_each_pins _ (status_unpins h) (in_task_status task)
                 status_read_pins)
              (and_then_pins _ _ _ _
                 (for_each_pins _ (status_unpins h) (sof_task_status task)
                    status_write_pins)
                 (and_then_pins _ _ _ _
                    (for_each_pins _ (timestamp_unpins h)
                       (sof_timestamps task) timestamp_pins)
                    (for_each_pins _ (fence_unpins h)
                       (filter (fun f => is_signal f = true)
                          (prefences task))
                       signal_fence_pins)))) 0%Z c) as Hloops;
      destruct (and_then a b 0%Z c) as [[failed err] c1]
  end.
  cbn [snd pins] in Hloops.
  destruct failed; cbn [fst snd bufs]; (split; [lia|by repeat split]).
Qed.

Lemma fill_postactions_pins (task : nvdla_task) (m : gmap Z nat) :
  pin_count (nvdla_fill_postactions e task m).2 h
    <= pin_count m h +
       (sum_list_with (timestamp_unpins h) (eof_timestamps task) +
        sum_list_with (status_unpins h) (eof_task_status task) +
        sum_list_with (fence_unpins h) (postfences task)) /\
  same_items (nvdla_fill_postactions e task m).1.2 task.
Proof.
  unfold nvdla_fill_postactions. cbv zeta.
  match goal with
  | |- context [and_then ?a ?b 0%Z ?c] =>
      pose proof
        (and_then_pins _ _ _ _
           (for_each_pins _ (timestamp_unpins h) (eof_timestamps task)
              timestamp_pins)
           (and_then_pins _ _ _ _
              (for_each_pins _ (status_unpins h) (eof_task_status task)
                 status_write_pins)
              (for_each_pins _ (fence_unpins h) (postfences task)
                 signal_fence_pins)) 0%Z c) as Hloops;
      destruct (and_then a b 0%Z c) as [[failed err] c1]
  end.
  cbn [snd pins] in Hloops.
  destruct failed; cbn [fst snd]; (split; [lia|by repeat split]).
Qed.

Lemma map_address_list_pins (hs : list nvdla_mem_handle) :
  forall (err : Z) (m : gmap Z nat) (next : list Z),
  pin_count (map_address_list e hs err m next).1.2 h
    <= pin_count m h + sum_list_with (buffer_unpins h) hs.
Proof.
  induction hs as [|b rest IH]; intros err m next; cbn; [lia|].
  unfold buffer_unpins at 1.
  destruct (decide (mh_type b = NVDLA_BUFFER_TYPE_INTERNAL)).
  - specialize (IH err m (add_address next (mh_offset b))). lia.
  - destruct (mh_handle b =? 0)%Z eqn:Hz; cbn [fst snd]; [lia|].
    pose proof (pin_count_pin (mh_handle b) m) as Hpin.
    destruct (nvdla_buffer_submit_pin e (mh_handle b) m) as [[perr dma] m'].
    cbn [snd] in Hpin. destruct (negb (perr =? 0)%Z); cbn [fst snd]; [lia|].
    specialize (IH perr m' (add_address next (dma + mh_offset b)%Z)). lia.
Qed.

Lemma map_task_memory_pins (task : nvdla_task) (m : gmap Z nat) :
  pin_count (nvdla_map_task_memory e task m).2 h
    <= pin_count m h + sum_list_with (buffer_unpins h) (memory_handles task) /\
  same_items (nvdla_map_task_memory e task m).1.2 task.
Proof.
  unfold nvdla_map_task_memory. cbv zeta.
  pose proof (map_address_list_pins (memory_handles task) 0%Z m []) as Hmap.
  destruct (map_address_list e (memory_handles task) 0%Z m [])
    as [[err m'] next].
  cbn [fst snd] in *. split; [lia|by repeat split].
Qed.

Lemma task_unpins_same (t t' : nvdla_task) :
  same_items t t' -> task_unpins h t = task_unpins h t'.
Proof.
  intros (H1 & H2 & H3 & H4 & H5 & H6 & H7 & H8). unfold task_unpins.
  by rewrite H1, H2, H3, H4, H5, H6, H7, H8.
Qed.

Lemma same_items_trans (t1 t2 t3 : nvdla_task) :
  same_items t1 t2 -> same_items t2 t3 -> same_items t1 t3.
Proof.
  intros (H1 & H2 & H3 & H4 & H5 & H6 & H7 & H8)
         (K1 & K2 & K3 & K4 & K5 & K6 & K7 & K8).
  unfold same_items. rewrite H1, H2, H3, H4, H5, H6, H7, H8. by repeat split.
Qed.


End NoLeak.

(** ** Further checks on the sample configuration *)

Lemma Forall_map_all {A B : Type} (P : B -> Prop) (f : A -> B) (l : list A) :
  (forall x, P (f x)) -> Forall P (map f l).
Proof. intros HP. induction l; cbn; constructor; auto. Qed.

(** The segments of the layout are told apart by their opcodes. *)
Lemma layout_opcodes (e : env) :
  (forall f, Forall (fun a => action_op a = ACTION_SEM_GE)
               (wait_fence_records e f)) /\
  (forall f, Forall (fun a => action_op a = ACTION_WRITE_SEM \/
                              action_op a = ACTION_INCREMENT_SEM \/
                              action_op a = ACTION_WRITE_TS_SEM)
               (signal_fence_records e f)) /\
  (forall op st, Forall (fun a => action_op a = op) (status_records e op st)) /\
  (forall ts, Forall (fun a => action_op a = ACTION_WRITE_TIMESTAMP)
                (timestamp_records e ts)).
Proof.
  split_and!.
  - intros f. unfold wait_fence_records.
    destruct (type f); repeat case_match; repeat constructor.
    by apply Forall_map_all.
  - intros f. unfold signal_fence_records.
    destruct (type f); repeat case_match;
      repeat (apply Forall_cons_2; [cbn; auto|]); apply Forall_nil_2.
  - intros op st. unfold status_records. case_match; repeat constructor.
  - intros ts. unfold timestamp_records. case_match; repeat constructor.
Qed.

(** The wraparound property of the specification: a target that has
    wrapped past 0xFFFFFFFF is still in the future of a counter that has
    not, and a counter that has wrapped is past a target that has not. *)
Example expired_wraparound :
  nvhost_syncpt_is_expired_ext (set_syncpt_min 4294967280 state0) 16 = false /\
  nvhost_syncpt_is_expired_ext (set_syncpt_min 16 state0) 4294967280 = true.
Proof. split; reflexivity. Qed.

(** A wait on a semaphore whose buffer cannot be pinned: the descriptor is
    built, the construction reports success, and the pre-action list
    holds the terminate opcode alone, where the specification gives no
    list. *)
Example unpinned_wait_is_omitted :
  let task :=
    Task [semaphore_fence NVDEV_FENCE_TYPE_SEMAPHORE NVDEV_FENCE_WAIT 200 8 1]
      [] [] [] [] [] [] [] 0 0 0 null_desc 4096 1 in
  let r := nvdla_fill_task_desc env0 task false 0 ∅ in
  r.1.1.1 = 0 /\
  preaction_mem (task_desc r.1.1.2) = [action_opcode ACTION_TERMINATE] /\
  built_preactions env0 r.1.1.2 = Some [action_opcode ACTION_TERMINATE] /\
  spec_preactions env0 task = None.
Proof. cbv zeta. split_and!; reflexivity. Qed.

(** * Further properties of the file *)

(** ** Task identifiers *)

Lemma lor_shiftl_add (a b : Z) :
  0 <= a -> 0 <= b < 2 ^ 16 -> Z.lor (Z.shiftl a 16) b = a * 2 ^ 16 + b.
Proof.
  intros Ha Hb.
  assert (Hland : Z.land (Z.shiftl a 16) b = 0).
  { apply Z.bits_inj'. intros n Hn. rewrite Z.land_spec, Z.bits_0.
    destruct (Z_lt_le_dec n 16) as [Hlt|Hge].
    - rewrite Z.shiftl_spec_low by lia. done.
    - rewrite (Z.bits_above_log2 b n); [apply andb_false_r|lia|].
      destruct (Z.eq_dec b 0) as [->|Hnz]; [cbn; lia|].
      assert (Z.log2 b < 16) by (apply Z.log2_lt_pow2; lia). lia. }
  rewrite <- Z.lxor_lor by done. rewrite <- Z.add_nocarry_lxor by done.
  by rewrite Z.shiftl_mul_pow2 by lia.
Qed.

(** X1: The task identifier packs the queue id above the low 16 bits of the
    sequence number: both are read back from it, and sequence numbers that
    agree on their low 16 bits give the same identifier. *)
Theorem compute_task_id_unpack (sequence_id queue_id : Z) :
  Z.land (nvdla_compute_task_id sequence_id queue_id) 65535 = u16 sequence_id /\
  Z.shiftr (nvdla_compute_task_id sequence_id queue_id) 16 = u16 queue_id /\
  nvdla_compute_task_id (sequence_id + 65536) queue_id =
    nvdla_compute_task_id sequence_id queue_id.
Proof.
  unfold nvdla_compute_task_id.
  assert (Hs : 0 <= u16 sequence_id < 2 ^ 16) by (apply Z.mod_pos_bound; lia).
  assert (Hq : 0 <= u16 queue_id < 2 ^ 16) by (apply Z.mod_pos_bound; lia).
  rewrite lor_shiftl_add by lia.
  assert (Hsmall : u32 (u16 queue_id * 2 ^ 16 + u16 sequence_id) =
                   u16 queue_id * 2 ^ 16 + u16 sequence_id).
  { unfold u32. apply Z.mod_small. change (2 ^ 32) with (2 ^ 16 * 2 ^ 16).
    nia. }
  rewrite Hsmall. split_and!.
  - change 65535 with (Z.ones 16). rewrite Z.land_ones by lia.
    rewrite Z.add_comm, Z.mod_add by lia. by apply Z.mod_small.
  - rewrite Z.shiftr_div_pow2 by lia.
    rewrite Z.add_comm, Z.div_add by lia. rewrite Z.div_small by lia. lia.
  - replace (u16 (sequence_id + 65536)) with (u16 sequence_id).
    + by rewrite lor_shiftl_add, Hsmall by lia.
    + unfold u16. change 65536 with (1 * 2 ^ 16). by rewrite Z.mod_add by lia.
Qed.

(** ** Task memory *)

Lemma get_task_mem_retry_spec (alloc : nat -> Z * nvdla_queue_task_mem_info)
  (fuel : nat) :
  forall (n : Z) (k : nat),
  (Z.to_nat n <= fuel)%nat ->
  (k < (get_task_mem_retry alloc fuel n k).2)%nat /\
  Z.of_nat ((get_task_mem_retry alloc fuel n k).2 - k) <= Z.max 1 n /\
  (forall j : nat,
     (k <= j < (get_task_mem_retry alloc fuel n k).2 - 1)%nat ->
     (alloc j).1 = - EAGAIN) /\
  alloc ((get_task_mem_retry alloc fuel n k).2 - 1)%nat =
    (get_task_mem_retry alloc fuel n k).1.
Proof.
  induction fuel as [|fuel IH]; intros n k Hfuel.
  - cbn [get_task_mem_retry]. destruct (alloc k) as [err info] eqn:Ha.
    cbn [fst snd]. replace (S k - 1)%nat with k by lia.
    split_and!; [lia|lia| |done]. intros j Hj. lia.
  - cbn [get_task_mem_retry]. destruct (alloc k) as [err info] eqn:Ha.
    destruct ((0 <? n - 1) && (err =? - EAGAIN)) eqn:Hc.
    + apply andb_true_iff in Hc as [Hn Herr].
      apply Z.ltb_lt in Hn. apply Z.eqb_eq in Herr.
      destruct (IH (n - 1) (S k)) as (H1 & H2 & H3 & H4); [lia|].
      split_and!; [lia|lia| |done].
      intros j Hj. destruct (decide (j = k)) as [->|Hne].
      * by rewrite Ha.
      * apply H3. lia.
    + cbn [fst snd]. replace (S k - 1)%nat with k by lia.
      split_and!; [lia|lia| |done]. intros j Hj. lia.
Qed.

(** X2: [nvdla_get_task_mem] asks the pool at least once and at most
    [n_retries] times (once when that is not positive), going on only
    after [-EAGAIN].  It hands out a task only when the last answer was
    not negative, the task pointer is not null and the DMA address of the
    descriptor is 256-byte aligned; a misaligned address gives
    [-EFAULT]. *)
Theorem get_task_mem_result (timeout_ms retry_period : Z)
  (alloc : nat -> Z * nvdla_queue_task_mem_info) :
  let r := nvdla_get_task_mem timeout_ms retry_period alloc in
  (1 <= r.2)%nat /\
  Z.of_nat r.2 <= Z.max 1 (Z.quot timeout_ms retry_period) /\
  (forall j : nat, (j < r.2 - 1)%nat -> (alloc j).1 = - EAGAIN) /\
  match r.1.2 with
  | Some info =>
      alloc (r.2 - 1)%nat = (r.1.1, info) /\
      0 <= r.1.1 /\ kmem_addr info ≠ 0 /\ Z.land (dma_addr info) 255 = 0
  | None =>
      let last := alloc (r.2 - 1)%nat in
      (last.1 < 0 /\ r.1.1 = last.1) \/
      (0 <= last.1 /\ kmem_addr last.2 = 0 /\ r.1.1 = last.1) \/
      (0 <= last.1 /\ Z.land (dma_addr last.2) 255 ≠ 0 /\ r.1.1 = - EFAULT)
  end.
Proof.
  unfold nvdla_get_task_mem. cbv zeta.
  destruct (get_task_mem_retry_spec alloc
              (Z.to_nat (Z.quot timeout_ms retry_period))
              (Z.quot timeout_ms retry_period) 0) as (H1 & H2 & H3 & H4);
    [lia|].
  destruct (get_task_mem_retry alloc _ _ 0) as [[err info] calls].
  cbn [fst snd] in *. rewrite Nat.sub_0_r in H2.
  assert (Hcalls : forall j : nat, (j < calls - 1)%nat ->
                     (alloc j).1 = - EAGAIN).
  { intros j Hj. apply H3. lia. }
  destruct (Z.ltb_spec err 0) as [Hneg|Hpos]; cbn [orb].
  { cbn [fst snd]. rewrite H4. cbn. split_and!; try done; try lia.
    all: by left. }
  destruct (Z.eqb_spec (kmem_addr info) 0) as [Hnull|Hnn]; cbn [orb].
  { cbn [fst snd]. rewrite H4. cbn. split_and!; try done; try lia.
    all: right; by left. }
  destruct (Z.eqb_spec (Z.land (dma_addr info) 255) 0) as [Hal|Hmis];
    cbn [negb fst snd]; rewrite H4; cbn; split_and!; try done; try lia.
  all: right; by right.
Qed.

Lemma get_task_mem_witness :
  let r := nvdla_get_task_mem 10 2 alloc_third_time in
  r.2 = 3%nat /\
  (alloc_third_time 1).1 = - EAGAIN /\
  r.1.2 = Some (TaskMemInfo 500 600 4096 3).
Proof.
  pose proof (get_task_mem_result 10 2 alloc_third_time) as H.
  cbv zeta in H. destruct H as (_ & _ & Hretry & _).
  split; [reflexivity|]. split; [|reflexivity].
  apply Hretry. vm_compute. lia.
Defined.

(** ** Descriptor size *)

Lemma roundup_ge (x y : Z) : 0 < y -> x <= roundup x y.
Proof.
  intros Hy. unfold roundup.
  pose proof (Z.div_mod (x + (y - 1)) y ltac:(lia)) as Hdm.
  pose proof (Z.mod_pos_bound (x + (y - 1)) y Hy) as Hb.
  rewrite (Z.mul_comm _ y). lia.
Qed.

Lemma roundup_multiple (x y : Z) : 0 < y -> roundup x y mod y = 0.
Proof. intros Hy. unfold roundup. apply Z.mod_mul. lia. Qed.

Lemma roundup_least (x y z : Z) :
  0 < y -> x <= z -> z mod y = 0 -> roundup x y <= z.
Proof.
  intros Hy Hxz Hz. unfold roundup.
  apply Z.div_exact in Hz; [|lia]. set (k := z / y) in *.
  assert (Hq : (x + (y - 1)) / y <= k).
  { transitivity ((z + (y - 1)) / y); [apply Z.div_le_mono; lia|].
    rewrite Hz, Z.mul_comm, Z.div_add_l by lia.
    rewrite Z.div_small by lia. lia. }
  rewrite Hz, (Z.mul_comm y k). apply Z.mul_le_mono_nonneg_r; lia.
Qed.

Lemma multiple_256_8 (z : Z) : z mod 256 = 0 -> z mod 8 = 0.
Proof. intros Hz. Z.div_mod_to_equations. lia. Qed.

(** X3: The size of the descriptor allocation is a multiple of 256, the
    notifier that [nvdla_fill_postactions] addresses and
    [nvdla_queue_update] reads sits at a multiple of 8, and it lies
    within the allocation, whatever the structure sizes are. *)
Theorem task_desc_size_covers_notifier (e : env)
  (sizeof_nvhost_notification : Z) :
  nvdla_get_task_desc_size e sizeof_nvhost_notification mod 256 = 0 /\
  nvdla_profile_status_offset e mod 8 = 0 /\
  nvdla_profile_status_offset e + sizeof_nvhost_notification <=
    nvdla_get_task_desc_size e sizeof_nvhost_notification.
Proof.
  unfold nvdla_get_task_desc_size, nvdla_profile_status_offset. cbv zeta.
  set (base := sizeof_task_descriptor (abi e) +
               2 * MAX_NUM_ACTION_LIST (abi e) * sizeof_action_list (abi e) +
               nvdla_get_max_preaction_size e +
               nvdla_get_max_postaction_size e).
  set (bufs := MAX_NUM_NVDLA_BUFFERS_PER_TASK (abi e) *
               sizeof_mem_addr (abi e)).
  split_and!; [by apply roundup_multiple|by apply roundup_multiple|].
  assert (H1 : roundup base 8 <= roundup base 256).
  { apply roundup_least; [lia|by apply roundup_ge|].
    apply multiple_256_8. by apply roundup_multiple. }
  assert (H2 : roundup (roundup base 8 + bufs) 8 <=
               roundup (roundup base 256 + bufs) 256).
  { apply roundup_least; [lia| |].
    - pose proof (roundup_ge (roundup base 256 + bufs) 256). lia.
    - apply multiple_256_8. by apply roundup_multiple. }
  pose proof (roundup_ge
    (roundup (roundup base 256 + bufs) 256 + sizeof_nvhost_notification) 256).
  lia.
Qed.

(** ** Suspending and resuming a queue *)

(** X4: [nvdla_set_queue_state] rejects any command other than suspend and
    resume before it touches anything.  For one of the two it returns the
    power-on error, having sent nothing and changed nothing, when the
    power cannot be taken; otherwise it sends the command, once, for this
    queue, returns the answer of the engine whatever it is, and has
    taken and released one power reference.  On every path the power
    count, the task list and the counter are as before. *)
Theorem set_queue_state_balanced (e : env)
  (DLA_CMD_QUEUE_SUSPEND DLA_CMD_QUEUE_RESUME cmd : Z) (s : state) :
  let r := nvdla_set_queue_state e DLA_CMD_QUEUE_SUSPEND DLA_CMD_QUEUE_RESUME
             cmd s in
  power_refs r.1.2 = power_refs s /\
  tasklist r.1.2 = tasklist s /\
  syncpt_min r.1.2 = syncpt_min s /\
  (cmd ≠ DLA_CMD_QUEUE_SUSPEND -> cmd ≠ DLA_CMD_QUEUE_RESUME ->
   r = (- EINVAL, s, [])) /\
  (nvhost_module_busy_ret e ≠ 0 -> r.2 = [] /\ r.1.2 = s) /\
  (r.2 = [] \/
   (r.2 = [(cmd, queue_id e)] /\
    nvhost_module_busy_ret e = 0 /\
    (cmd = DLA_CMD_QUEUE_SUSPEND \/ cmd = DLA_CMD_QUEUE_RESUME) /\
    r.1.1 = nvdla_send_cmd_ret e 0)) /\
  (cmd = DLA_CMD_QUEUE_SUSPEND \/ cmd = DLA_CMD_QUEUE_RESUME ->
   nvhost_module_busy_ret e ≠ 0 ->
   r = (nvhost_module_busy_ret e, s, [])) /\
  (cmd = DLA_CMD_QUEUE_SUSPEND \/ cmd = DLA_CMD_QUEUE_RESUME ->
   nvhost_module_busy_ret e = 0 ->
   r.1.1 = nvdla_send_cmd_ret e 0 /\
   r.2 = [(cmd, queue_id e)] /\
   log r.1.2 = log s ++ [ev_module_busy; ev_module_idle] /\
   heap r.1.2 = heap s /\
   registry r.1.2 = registry s /\
   queue_refs r.1.2 = queue_refs s /\
   syncpt_max r.1.2 = syncpt_max s).
Proof.
  unfold nvdla_set_queue_state, nvhost_module_busy. cbv zeta.
  destruct (Z.eqb_spec cmd DLA_CMD_QUEUE_SUSPEND) as [Hs|Hs];
    destruct (Z.eqb_spec cmd DLA_CMD_QUEUE_RESUME) as [Hr|Hr];
    cbn [negb andb];
    try (destruct (Z.eqb_spec (nvhost_module_busy_ret e) 0) as [Hb|Hb];
         [rewrite ?Hb|
          destruct (Z.eqb_spec (nvhost_module_busy_ret e) 0) as [|_];
            [done|]]);
    cbn [negb Z.eqb fst snd];
    (split_and!; [cbn; lia|done|done|tauto|tauto|tauto|..]);
    try tauto; try done.
  all: intros _ _; cbn; by rewrite <- app_assoc.
Qed.

Lemma set_queue_state_witness :
  let r := nvdla_set_queue_state env0 20 21 20 state3 in
  r.1.1 = 0 /\
  r.2 = [(20, 3)] /\
  log r.1.2 = log state3 ++ [ev_module_busy; ev_module_idle] /\
  power_refs r.1.2 = power_refs state3.
Proof.
  pose proof (set_queue_state_balanced env0 20 21 20 state3) as H.
  cbv zeta in H. destruct H as (Hpw & _ & _ & _ & _ & _ & _ & Hsend).
  destruct Hsend as (H1 & H2 & H3 & _); [by left|reflexivity|].
  cbv zeta. split_and!; [exact H1|exact H2|exact H3|exact Hpw].
Defined.

(** ** What abort leaves alone *)

Lemma flush_engine_retry_bound (e : env) (retry : nat) :
  forall (k : nat) (s : state),
    ((flush_engine e retry k s).1.2 <= retry)%nat.
Proof.
  induction retry as [|r IH]; intros k s; [done|].
  cbn [flush_engine]. unfold nvdla_send_cmd.
  destruct (_ =? _); [|cbn; lia].
  destruct r as [|r']; [cbn; lia|].
  specialize (IH (S k)
    (emit (ev_mdelay NVDLA_QUEUE_ABORT_RETRY_PERIOD)
       (emit (ev_send_cmd (DLA_CMD_QUEUE_FLUSH (queue_id e))) s))).
  lia.
Qed.

Lemma abort_op_frame (e : env) (s : state) :
  let r := nvdla_queue_abort_op e s in
  tasklist r.2 = tasklist s /\
  heap r.2 = heap s /\
  registry r.2 = registry s /\
  queue_refs r.2 = queue_refs s /\
  power_refs r.2 = power_refs s /\
  syncpt_max r.2 = syncpt_max s /\
  (syncpt_min r.2 = syncpt_min s \/
   (r.1 = 0 /\ syncpt_min r.2 = u32 (syncpt_max s))) /\
  (r.1 ≠ 0 -> syncpt_min r.2 = syncpt_min s).
Proof.
  unfold nvdla_queue_abort_op, nvhost_module_busy. cbv zeta.
  destruct (tasklist s) as [|p0 l0] eqn:Hl.
  { cbn. rewrite ?Hl. split_and!; first [done|lia|by left|by right]. }
  destruct (Z.eqb_spec (nvhost_module_busy_ret e) 0) as [Hb|Hb].
  2: { reduce_branch.
       destruct (Z.eqb_spec (nvhost_module_busy_ret e) 0) as [|_]; [done|].
       cbn. rewrite ?Hl. split_and!; first [done|lia|by left|by right]. }
  reduce_branch.
  set (s2 := emit ev_module_busy (set_power_refs (power_refs s + 1) s)).
  destruct (flush_engine_frame e
              (Z.to_nat (NVDLA_QUEUE_ABORT_TIMEOUT /
                         NVDLA_QUEUE_ABORT_RETRY_PERIOD)) 0 s2) as [evs Hs3].
  destruct (flush_engine e _ 0 s2) as [[err retry] s3].
  cbn [fst snd] in Hs3. subst s3.
  destruct ((retry =? 0)%nat || negb (err =? 0)) eqn:Hfail.
  - cbn. rewrite ?Hl. split_and!; first [done|lia|by left|by right].
  - apply orb_false_iff in Hfail as [_ Herr].
    apply negb_false_iff, Z.eqb_eq in Herr. subst err.
    cbn [tasklist s2 set_power_refs emit]. rewrite Hl. cbn. rewrite ?Hl.
    split_and!; first [done|lia|by right|by left].
Qed.

(** X5: [nvdla_queue_abort_op] itself never removes a task, frees one or
    unpins a buffer, and it gives back the power reference it took: on
    every path the task list, the tasks, the registry, the reference
    counts, the power count and the maximum of the counter are as before.
    The counter value changes only when the call returns 0, and then to
    that maximum. *)
Theorem abort_frame (e : env) (s : state) :
  let r := nvdla_queue_abort_op e s in
  tasklist r.2 = tasklist s /\
  heap r.2 = heap s /\
  registry r.2 = registry s /\
  queue_refs r.2 = queue_refs s /\
  power_refs r.2 = power_refs s /\
  syncpt_max r.2 = syncpt_max s /\
  (syncpt_min r.2 = syncpt_min s \/
   (r.1 = 0 /\ syncpt_min r.2 = u32 (syncpt_max s))) /\
  (r.1 ≠ 0 -> syncpt_min r.2 = syncpt_min s).
Proof. exact (abort_op_frame e s). Qed.

Lemma abort_frame_witness :
  syncpt_min (nvdla_queue_abort_op env_mmio_fails state3).2 = syncpt_min state3.
Proof.
  pose proof (abort_frame env_mmio_fails state3) as H. cbv zeta in H.
  destruct H as (_ & _ & _ & _ & _ & _ & _ & Hmin).
  apply Hmin. vm_compute. discriminate.
Defined.

(** ** The retry bound of abort *)

Lemma flush_attempts_app (l1 l2 : list event) :
  flush_attempts (l1 ++ l2) = (flush_attempts l1 + flush_attempts l2)%nat.
Proof. unfold flush_attempts. by rewrite filter_app, length_app. Qed.

Lemma flush_attempts_one (ev : event) :
  flush_attempts [ev] = if is_flush_cmd ev then 1%nat else 0%nat.
Proof.
  unfold flush_attempts. rewrite filter_cons.
  destruct (is_flush_cmd ev); [by rewrite decide_True|by rewrite decide_False].
Qed.

Lemma flush_engine_attempts (e : env) (retry : nat) :
  forall (k : nat) (s : state),
  (flush_attempts (log (flush_engine e retry k s).2)
     <= flush_attempts (log s) + retry)%nat /\
  ((forall j : nat, (k <= j < k + retry)%nat ->
      nvdla_send_cmd_ret e j = DLA_ERR_PROCESSOR_BUSY e) ->
   (0 < retry)%nat ->
   (flush_engine e retry k s).1 = (DLA_ERR_PROCESSOR_BUSY e, 0%nat) /\
   flush_attempts (log (flush_engine e retry k s).2) =
     (flush_attempts (log s) + retry)%nat).
Proof.
  induction retry as [|r IH]; intros k s.
  - cbn. split; [lia|]. intros _ Hr. lia.
  - cbn [flush_engine]. unfold nvdla_send_cmd.
    set (s1 := emit (ev_send_cmd (DLA_CMD_QUEUE_FLUSH (queue_id e))) s).
    assert (H1 : flush_attempts (log s1) = S (flush_attempts (log s))).
    { unfold s1, emit. cbn [log]. rewrite flush_attempts_app, flush_attempts_one. cbn. lia. }
    set (s2 := emit (ev_mdelay NVDLA_QUEUE_ABORT_RETRY_PERIOD) s1).
    assert (H2 : flush_attempts (log s2) = S (flush_attempts (log s))).
    { unfold s2, emit. cbn [log]. rewrite flush_attempts_app.
      fold (emit (ev_send_cmd (DLA_CMD_QUEUE_FLUSH (queue_id e))) s).
      fold s1. rewrite H1, flush_attempts_one. cbn. lia. }
    split.
    + destruct (_ =? _); [|cbn [snd]; lia].
      destruct r as [|r']; [cbn [snd]; lia|].
      destruct (IH (S k) s2) as [Hle _]. lia.
    + intros Hbusy _. rewrite (Hbusy k) by lia. rewrite Z.eqb_refl.
      destruct r as [|r']; [cbn [fst snd]; split; [done|lia]|].
      destruct (IH (S k) s2) as [_ Hall].
      destruct Hall as [Hres Hcnt]; [intros j Hj; apply Hbusy; lia|lia|].
      rewrite Hres, Hcnt. split; [done|lia].
Qed.

(** X6: An abort sends at most 20 flush commands.  When the engine answers
    "processor busy" to all 20, the abort returns that status with the
    counter, the task list and the power count as before. *)
Theorem abort_retry_bound (e : env) (s : state) :
  (flush_attempts (log (nvdla_queue_abort_op e s).2)
     <= flush_attempts (log s) + 20)%nat /\
  (tasklist s ≠ [] ->
   nvhost_module_busy_ret e = 0 ->
   (forall j : nat, (j < 20)%nat ->
      nvdla_send_cmd_ret e j = DLA_ERR_PROCESSOR_BUSY e) ->
   (nvdla_queue_abort_op e s).1 = DLA_ERR_PROCESSOR_BUSY e /\
   flush_attempts (log (nvdla_queue_abort_op e s).2) =
     (flush_attempts (log s) + 20)%nat /\
   syncpt_min (nvdla_queue_abort_op e s).2 = syncpt_min s /\
   tasklist (nvdla_queue_abort_op e s).2 = tasklist s /\
   power_refs (nvdla_queue_abort_op e s).2 = power_refs s).
Proof.
  unfold nvdla_queue_abort_op, nvhost_module_busy. cbv zeta.
  change (Z.to_nat (NVDLA_QUEUE_ABORT_TIMEOUT /
                    NVDLA_QUEUE_ABORT_RETRY_PERIOD)) with 20%nat.
  destruct (tasklist s) as [|p0 l0] eqn:Hl.
  { split; [cbn; lia|done]. }
  destruct (Z.eqb_spec (nvhost_module_busy_ret e) 0) as [Hb|Hb].
  2: { reduce_branch.
       destruct (Z.eqb_spec (nvhost_module_busy_ret e) 0) as [|_]; [done|].
       split; [cbn; lia|done]. }
  reduce_branch.
  set (s2 := emit ev_module_busy (set_power_refs (power_refs s + 1) s)) in *.
  assert (H2 : flush_attempts (log s2) = flush_attempts (log s)).
  { unfold s2, emit, set_power_refs. cbn [log].
    rewrite flush_attempts_app, flush_attempts_one. cbn. lia. }
  destruct (flush_engine_attempts e 20 0 s2) as [Hle Hall].
  destruct (flush_engine_frame e 20 0 s2) as [evs Hs3].
  destruct (flush_engine e 20 0 s2) as [[err retry] s3].
  cbn [fst snd] in *. split.
  - destruct ((retry =? 0)%nat || negb (err =? 0)); cbn [snd].
    + unfold nvhost_module_idle, emit, set_power_refs. cbn [log].
      rewrite flush_attempts_app, flush_attempts_one. cbn. lia.
    + destruct (tasklist s3);
        unfold nvhost_module_idle, nvhost_syncpt_set_min_update, emit,
          set_power_refs, set_syncpt_min;
        cbn [log]; rewrite !flush_attempts_app, !flush_attempts_one; cbn; lia.
  - intros _ _ Hbusy.
    destruct Hall as [Hres Hcnt]; [intros j Hj; apply Hbusy; lia|lia|].
    injection Hres as -> ->. cbn [Nat.eqb orb fst snd] in *.
    split_and!; try done.
    + unfold nvhost_module_idle, emit, set_power_refs. cbn [log].
      rewrite flush_attempts_app, flush_attempts_one, Hcnt, H2.
      cbn [is_flush_cmd]. lia.
    + by rewrite Hs3.
    + rewrite Hs3. cbn. by rewrite Hl.
    + rewrite Hs3. cbn. lia.
Qed.

Lemma abort_retry_bound_witness :
  (nvdla_queue_abort_op env_always_busy state3).1 = 3 /\
  flush_attempts (log (nvdla_queue_abort_op env_always_busy state3).2) =
    (flush_attempts (log state3) + 20)%nat /\
  syncpt_min (nvdla_queue_abort_op env_always_busy state3).2 =
    syncpt_min state3 /\
  tasklist (nvdla_queue_abort_op env_always_busy state3).2 =
    tasklist state3 /\
  power_refs (nvdla_queue_abort_op env_always_busy state3).2 =
    power_refs state3.
Proof.
  apply (proj2 (abort_retry_bound env_always_busy state3)).
  - replace (tasklist state3) with [100; 200; 300] by reflexivity.
    discriminate.
  - reflexivity.
  - intros j Hj. reflexivity.
Defined.

(** ** The completion notifier, in general *)

Lemma queue_update_pass (s : state) :
  queue_wf s ->
  tasklist (nvdla_queue_update s) =
    filter (fun p => task_complete s p ≠ true) (tasklist s) /\
  queue_wf (nvdla_queue_update s) /\
  spare_power_refs (nvdla_queue_update s) = spare_power_refs s /\
  spare_queue_refs (nvdla_queue_update s) = spare_queue_refs s.
Proof.
  intros [Hnd Hlive].
  destruct (queue_update_scan_spec (tasklist s) [] 0 s)
    as (s' & Hscan & Htl & Hmin & Hmax & Hpw & _); try done.
  destruct (queue_update_scan_heap (tasklist s) [] 0 s) as [Hrefs Hheap];
    try done.
  rewrite Hscan in Hrefs, Hheap. cbn [snd] in Hrefs, Hheap.
  unfold nvdla_queue_update, spare_power_refs, spare_queue_refs, queue_wf.
  rewrite Hscan.
  change (tasklist (nvhost_module_idle_mult ?n s')) with (tasklist s').
  change (heap (nvhost_module_idle_mult ?n s')) with (heap s').
  change (queue_refs (nvhost_module_idle_mult ?n s')) with (queue_refs s').
  change (power_refs (nvhost_module_idle_mult ?n s'))
    with (power_refs s' - n).
  rewrite Htl, Hpw, Hrefs. cbn [app].
  pose proof (filter_length_split (fun p => task_complete s p = true)
                (tasklist s)) as Hlen.
  split_and!; [done| | |lia|lia].
  - by apply NoDup_filter.
  - apply Forall_forall. intros q Hq.
    apply list_elem_of_filter in Hq as [Hq Hin].
    rewrite Hheap by (by right).
    by apply (proj1 (Forall_forall _ _) Hlive).
Qed.

(** X7: Whatever the order of the targets, one pass of the notifier removes
    exactly the complete tasks and keeps the others in their order.  The
    list stays a well-formed kernel list of live tasks, and the queue
    still holds one power reference and one queue reference per listed
    task on top of what it held otherwise. *)
Theorem queue_update_keeps_invariants (s : state) :
  queue_wf s ->
  tasklist (nvdla_queue_update s) =
    filter (fun p => task_complete s p ≠ true) (tasklist s) /\
  queue_wf (nvdla_queue_update s) /\
  spare_power_refs (nvdla_queue_update s) = spare_power_refs s /\
  spare_queue_refs (nvdla_queue_update s) = spare_queue_refs s.
Proof.
  intros Hwf. destruct (queue_update_pass s Hwf) as (Htl & Hwf' & Hp & Hq).
  split_and!; assumption.
Qed.

(** X8: A second pass right after a pass finds nothing to reclaim: the list
    and the power count stay as the first pass left them. *)
Theorem queue_update_idempotent (s : state) :
  queue_wf s ->
  tasklist (nvdla_queue_update (nvdla_queue_update s)) =
    tasklist (nvdla_queue_update s) /\
  power_refs (nvdla_queue_update (nvdla_queue_update s)) =
    power_refs (nvdla_queue_update s).
Proof.
  intros Hwf.
  destruct (queue_update_pass s Hwf) as (Htl & Hwf' & _ & _).
  destruct (queue_update_pass _ Hwf') as (Htl2 & _ & Hp2 & _).
  assert (Hnone : Forall
            (fun p => task_complete (nvdla_queue_update s) p ≠ true)
            (tasklist (nvdla_queue_update s))).
  { rewrite Htl. apply Forall_forall. intros q Hq.
    apply list_elem_of_filter in Hq as [Hq Hin].
    destruct Hwf as [Hnd Hlive].
    destruct (queue_update_scan_spec (tasklist s) [] 0 s)
      as (s' & Hscan & _ & Hmin & _); try done.
    destruct (queue_update_scan_heap (tasklist s) [] 0 s) as [_ Hheap];
      try done.
    rewrite Hscan in Hheap. cbn [snd] in Hheap.
    unfold task_complete, nvhost_syncpt_is_expired_ext, task_at in *.
    unfold nvdla_queue_update. rewrite Hscan.
    change (heap (nvhost_module_idle_mult ?n s')) with (heap s').
    change (syncpt_min (nvhost_module_idle_mult ?n s')) with (syncpt_min s').
    rewrite Hmin, Hheap; [done|by right]. }
  assert (Hsame : tasklist (nvdla_queue_update (nvdla_queue_update s)) =
                  tasklist (nvdla_queue_update s)).
  { rewrite Htl2. by apply filter_all. }
  split; [done|]. unfold spare_power_refs in Hp2. rewrite Hsame in Hp2. lia.
Qed.

Lemma queue_update_invariants_witness :
  tasklist (nvdla_queue_update state3_at2) =
    filter (fun p => task_complete state3_at2 p ≠ true) (tasklist state3_at2) /\
  queue_wf (nvdla_queue_update state3_at2) /\
  spare_power_refs (nvdla_queue_update state3_at2) =
    spare_power_refs state3_at2 /\
  spare_queue_refs (nvdla_queue_update state3_at2) =
    spare_queue_refs state3_at2.
Proof.
  apply (queue_update_keeps_invariants state3_at2).
  unfold queue_wf.
  replace (tasklist state3_at2) with [100; 200; 300] by reflexivity.
  split.
  - apply (bool_decide_unpack (NoDup [100; 200; 300])). exact I.
  - repeat apply Forall_cons_2; try apply Forall_nil_2;
      eexists; vm_compute; reflexivity.
Defined.

Lemma queue_update_idempotent_witness :
  tasklist (nvdla_queue_update (nvdla_queue_update state3_at2)) =
    tasklist (nvdla_queue_update state3_at2) /\
  power_refs (nvdla_queue_update (nvdla_queue_update state3_at2)) =
    power_refs (nvdla_queue_update state3_at2).
Proof.
  apply (queue_update_idempotent state3_at2).
  unfold queue_wf.
  replace (tasklist state3_at2) with [100; 200; 300] by reflexivity.
  split.
  - apply (bool_decide_unpack (NoDup [100; 200; 300])). exact I.
  - repeat apply Forall_cons_2; try apply Forall_nil_2;
      eexists; vm_compute; reflexivity.
Defined.

(** ** Submission keeps the queue well formed *)

Lemma submit_enqueue_live e task s (q : Z) :
  is_Some (heap (submit_enqueue e task s) !! q) <-> is_Some (heap s !! q).
Proof.
  unfold submit_enqueue.
  destruct (decide (submit_mode e = NVDLA_SUBMIT_MODE_MMIO)); cbn;
    destruct (last (tasklist s)); cbn;
    by rewrite ?lookup_alter_is_Some.
Qed.

Ltac submit_kept :=
  split;
  [ intros q Hq; cbn; rewrite ?lookup_alter_ne by done; done
  | left; cbn; split_and!; try done; try lia;
    rewrite ?lookup_alter_is_Some; done ].

Ltac submit_unwound :=
  split;
  [ intros q Hq; rewrite heap_task_free_locked_ne by done; cbn;
    rewrite ?lookup_alter_ne by done; done
  | right;
    rewrite tasklist_task_free_locked, power_refs_task_free_locked,
      queue_refs_task_free_locked;
    cbn; split_and!; try done; lia ].

(** Every path of [nvdla_queue_submit_op] ends in one of two shapes,
    relative to the state at [list_add_tail]: the task is kept, with one
    more power reference, or the task is withdrawn again, with the power
    count as before and the queue reference given back. *)
Lemma submit_op_shape (e : env) (task : Z) (s : state) :
  let s1 := submit_enqueue e task s in
  let s' := (nvdla_queue_submit_op e task s).2 in
  (forall q : Z, q ≠ task -> heap s' !! q = heap s1 !! q) /\
  ((tasklist s' = tasklist s1 /\
    power_refs s' = power_refs s1 + 1 /\
    queue_refs s' = queue_refs s1 /\
    (is_Some (heap s1 !! task) -> is_Some (heap s' !! task))) \/
   (tasklist s' = list_del task (tasklist s1) /\
    power_refs s' = power_refs s1 /\
    queue_refs s' = queue_refs s1 - 1)).
Proof.
  cbv zeta. rewrite submit_op_unfold. cbv zeta.
  generalize (submit_enqueue e task s). intros s1.
  unfold nvhost_module_busy, nvdla_send_cmd_channel,
    nvhost_intr_register_notifier, nvdla_send_cmd.
  destruct (Z.eqb_spec (nvhost_module_busy_ret e) 0) as [Hb|Hb];
    reduce_branch.
  2: { destruct (Z.eqb_spec (nvhost_module_busy_ret e) 0) as [|_]; [done|].
       reduce_branch. submit_unwound. }
  destruct (submit_mode e) eqn:Hmode.
  - rewrite decide_False by done. reduce_branch.
    destruct (Z.eqb_spec (nvhost_intr_register_notifier_ret e) 0) as [Hr|Hr];
      reduce_branch; [|submit_unwound].
    rewrite decide_True by done. reduce_branch.
    destruct (Z.eqb_spec (nvdla_send_cmd_ret e 0) 0) as [Hs|Hs];
      reduce_branch; submit_kept.
  - rewrite decide_True by done. reduce_branch.
    destruct (Z.eqb_spec (nvdla_send_cmd_channel_ret e) 0) as [Hc|Hc];
      reduce_branch.
    + destruct (Z.eqb_spec (nvhost_intr_register_notifier_ret e) 0) as [Hr|Hr];
        reduce_branch; [|submit_unwound].
      rewrite decide_False by done. submit_kept.
    + destruct (Z.eqb_spec (nvdla_send_cmd_channel_ret e) 0) as [|_]; [done|].
      reduce_branch. submit_unwound.
Qed.

(** X9: Whatever the collaborators answer, [nvdla_queue_submit_op] called
    with a live task that is not yet queued leaves a well-formed list of
    live tasks, and the queue holds one power reference and one queue
    reference per listed task on top of what it held before: a submission
    either adds the task with both references or adds nothing. *)
Theorem submit_keeps_invariants (e : env) (task : Z) (s : state) :
  queue_wf s ->
  task ∉ tasklist s ->
  is_Some (heap s !! task) ->
  queue_wf (nvdla_queue_submit_op e task s).2 /\
  spare_power_refs (nvdla_queue_submit_op e task s).2 = spare_power_refs s /\
  spare_queue_refs (nvdla_queue_submit_op e task s).2 = spare_queue_refs s /\
  (tasklist (nvdla_queue_submit_op e task s).2 = tasklist s ++ [task] \/
   tasklist (nvdla_queue_submit_op e task s).2 = tasklist s).
Proof.
  intros [Hnd Hlive] Hfresh Htask.
  destruct (submit_op_shape e task s) as [Hheap Hshape]. cbv zeta in *.
  pose proof (submit_enqueue_tasklist e task s) as Hl.
  pose proof (submit_enqueue_power e task s) as Hp.
  pose proof (submit_enqueue_queue_refs e task s) as Hq.
  assert (Hothers : forall q, q ∈ tasklist s ->
            is_Some (heap (nvdla_queue_submit_op e task s).2 !! q)).
  { intros q Hin. rewrite Hheap by (intros ->; done).
    apply submit_enqueue_live.
    by apply (proj1 (Forall_forall _ _) Hlive). }
  unfold queue_wf, spare_power_refs, spare_queue_refs.
  destruct Hshape as [(Htl & Hpw & Hqr & Hkeep)|(Htl & Hpw & Hqr)].
  - rewrite Htl, Hpw, Hqr, Hl, Hp, Hq, length_app. cbn [length].
    split_and!; [| |lia|lia|by left].
    + apply NoDup_app. split_and!; [done| |apply NoDup_singleton].
      intros x Hx Hx'. apply list_elem_of_singleton in Hx'. by subst.
    + apply Forall_app. split; [by apply Forall_forall|].
      apply Forall_singleton. apply Hkeep. by apply submit_enqueue_live.
  - rewrite Htl, Hpw, Hqr, Hl, Hp, Hq, list_del_snoc by done.
    split_and!; [done|by apply Forall_forall|lia|lia|by right].
Qed.

Lemma submit_keeps_invariants_witness :
  queue_wf (nvdla_queue_submit_op env_channel_fails 100 state1).2 /\
  spare_power_refs (nvdla_queue_submit_op env_channel_fails 100 state1).2 =
    spare_power_refs state1 /\
  spare_queue_refs (nvdla_queue_submit_op env_channel_fails 100 state1).2 =
    spare_queue_refs state1 /\
  (tasklist (nvdla_queue_submit_op env_channel_fails 100 state1).2 =
     tasklist state1 ++ [100] \/
   tasklist (nvdla_queue_submit_op env_channel_fails 100 state1).2 =
     tasklist state1).
Proof.
  apply (submit_keeps_invariants env_channel_fails 100 state1).
  - split; [apply NoDup_nil_2 | apply Forall_nil_2].
  - apply not_elem_of_nil.
  - eexists. reflexivity.
Defined.

(** ** The hardware list and the MMIO submission *)

Lemma submit_enqueue_link (e : env) (task q : Z) (s : state)
  (t tq : nvdla_task) :
  last (tasklist s) = Some q ->
  task ∉ tasklist s ->
  heap s !! q = Some tq ->
  heap s !! task = Some t ->
  td_next (task_desc (task_at (submit_enqueue e task s) q)) =
    u64 (task_desc_pa t).
Proof.
  intros Hlast Hfresh Hq Ht.
  assert (Hne : q ≠ task).
  { intros ->. apply Hfresh. apply last_Some in Hlast as [l' ->].
    apply elem_of_app. right. left. }
  unfold submit_enqueue, task_at.
  destruct (decide (submit_mode e = NVDLA_SUBMIT_MODE_MMIO)); cbn;
    rewrite Hlast; cbn; unfold task_at; cbn;
    rewrite !lookup_alter_eq, ?lookup_alter_ne, ?lookup_alter_eq by done;
    rewrite ?lookup_alter_ne by done; rewrite Hq, ?Ht; done.
Qed.

(** X10: On every path of [nvdla_queue_submit_op] on a non-empty queue,
    the unwinding ones included, the descriptor of the former tail ends
    with its [next] field set to the descriptor address of the task that
    was submitted. *)
Theorem submit_links_former_tail (e : env) (task q : Z) (s : state)
  (t tq : nvdla_task) :
  last (tasklist s) = Some q ->
  task ∉ tasklist s ->
  heap s !! q = Some tq ->
  heap s !! task = Some t ->
  td_next (task_desc (task_at (nvdla_queue_submit_op e task s).2 q)) =
    u64 (task_desc_pa t).
Proof.
  intros Hlast Hfresh Hq Ht.
  assert (Hne : q ≠ task).
  { intros ->. apply Hfresh. apply last_Some in Hlast as [l' ->].
    apply elem_of_app. right. left. }
  destruct (submit_op_shape e task s) as [Hheap _]. cbv zeta in Hheap.
  pose proof (submit_enqueue_link e task q s t tq Hlast Hfresh Hq Ht) as Hl.
  unfold task_at in *. by rewrite Hheap.
Qed.

Lemma submit_links_former_tail_witness :
  td_next (task_desc (task_at state_after_failed_submit 100)) = u64 8192 /\
  tasklist state_after_failed_submit = [100].
Proof.
  split; [|reflexivity].
  eapply (submit_links_former_tail env_poweron_fails 200 100
            (nvdla_queue_submit_op env0 100 state1).2 (mk_task 8192)).
  - reflexivity.
  - replace (tasklist (nvdla_queue_submit_op env0 100 state1).2)
      with [100] by reflexivity.
    apply not_elem_of_cons. split; [discriminate|apply not_elem_of_nil].
  - vm_compute. reflexivity.
  - vm_compute. reflexivity.
Defined.

Lemma submit_enqueue_mmio (e : env) (task : Z) (s : state) (t : nvdla_task) :
  submit_mode e = NVDLA_SUBMIT_MODE_MMIO ->
  task ∉ tasklist s ->
  heap s !! task = Some t ->
  heap (submit_enqueue e task s) !! task =
    Some (set_fence (u32 (syncpt_max s + fence_counter t))
            (set_ref (S (ref t)) t)) /\
  syncpt_max (submit_enqueue e task s) =
    u32 (syncpt_max s + fence_counter t) /\
  syncpt_min (submit_enqueue e task s) = syncpt_min s /\
  log (submit_enqueue e task s) =
    log s ++ [ev_syncpt_incr_max (fence_counter t)].
Proof.
  intros Hmode Hfresh Ht. unfold submit_enqueue.
  assert (Hlast : forall q, last (tasklist s) = Some q -> q ≠ task).
  { intros q Hq <-. apply Hfresh. apply last_Some in Hq as [l' ->].
    apply elem_of_app. right. left. }
  rewrite decide_True by done. cbn.
  unfold task_at, nvhost_syncpt_incr_max_ext, nvhost_syncpt_read_maxval.
  cbn. rewrite !lookup_alter_eq, Ht. cbn.
  destruct (last (tasklist s)) as [q|] eqn:Hq; cbn;
    rewrite ?lookup_alter_ne by (by apply Hlast);
    rewrite ?lookup_alter_eq, ?Ht; done.
Qed.

(** X11: A submission in MMIO mode that meets no failure returns 0 and does
    the following, in this order: it reserves [fence_counter] increments
    on the counter and takes the new maximum as the task's target, puts
    the task at the tail of the list, takes a power reference, registers
    the notifier for exactly that target, and sends the submit command
    for the task's descriptor.  The counter value itself is not
    touched. *)
Theorem submit_mmio_success (e : env) (task : Z) (s : state)
  (t : nvdla_task) :
  submit_mode e = NVDLA_SUBMIT_MODE_MMIO ->
  nvhost_module_busy_ret e = 0 ->
  nvhost_intr_register_notifier_ret e = 0 ->
  nvdla_send_cmd_ret e 0 = 0 ->
  task ∉ tasklist s ->
  heap s !! task = Some t ->
  let target := u32 (syncpt_max s + fence_counter t) in
  let r := nvdla_queue_submit_op e task s in
  r.1 = 0 /\
  tasklist r.2 = tasklist s ++ [task] /\
  heap r.2 !! task = Some (set_fence target (set_ref (S (ref t)) t)) /\
  syncpt_max r.2 = target /\
  syncpt_min r.2 = syncpt_min s /\
  log r.2 =
    log s ++
    [ev_syncpt_incr_max (fence_counter t);
     ev_module_busy;
     ev_register_notifier target;
     ev_send_cmd (DLA_CMD_SUBMIT_TASK (task_desc_pa t))].
Proof.
  intros Hmode Hbusy Hreg Hsend Hfresh Ht. cbv zeta.
  rewrite submit_op_unfold. cbv zeta.
  destruct (submit_enqueue_mmio e task s t Hmode Hfresh Ht)
    as (Hheap & Hmax & Hmin & Hlog).
  pose proof (submit_enqueue_tasklist e task s) as Hl.
  generalize dependent (submit_enqueue e task s). intros s1 Hheap Hmax Hmin
    Hlog Hl.
  unfold nvhost_module_busy, nvhost_intr_register_notifier, nvdla_send_cmd.
  rewrite Hbusy, Hmode. reduce_branch.
  rewrite decide_False by done. reduce_branch.
  rewrite Hreg. reduce_branch. rewrite decide_True by done. reduce_branch.
  rewrite Hsend. reduce_branch.
  unfold task_at. cbn. rewrite Hheap. cbn. rewrite Hlog, <- !app_assoc.
  done.
Qed.

Lemma submit_mmio_success_witness :
  let r := nvdla_queue_submit_op env0 100 state1 in
  r.1 = 0 /\
  tasklist r.2 = [100] /\
  heap r.2 !! 100 = Some (set_fence 1 (set_ref 2 (mk_task 4096))) /\
  syncpt_max r.2 = 1 /\
  syncpt_min r.2 = 0 /\
  log r.2 =
    [ev_syncpt_incr_max 1; ev_module_busy; ev_register_notifier 1;
     ev_send_cmd (DLA_CMD_SUBMIT_TASK 4096)].
Proof.
  apply (submit_mmio_success env0 100 state1 (mk_task 4096));
    try reflexivity.
  apply not_elem_of_nil.
Defined.

(** ** Which tasks the construction accepts *)

Lemma u32_range (x : Z) : 0 <= u32 x < 2 ^ 32.
Proof. unfold u32. apply Z.mod_pos_bound. lia. Qed.

Lemma u32_small (x : Z) : 0 <= x < 2 ^ 32 -> u32 x = x.
Proof. unfold u32. apply Z.mod_small. Qed.

Lemma u32_add_u32 (a b : Z) : u32 (u32 a + b) = u32 (a + b).
Proof. unfold u32. by rewrite Zplus_mod_idemp_l. Qed.

Lemma for_each_spec {A : Type} (body : A -> fill_ctx -> Z * fill_ctx)
  (rej : A -> bool) (cnt : A -> nat) (l : list A) :
  body_spec body rej cnt ->
  step_spec (for_each body l) (existsb rej l) (sum_list_with cnt l).
Proof.
  intros Hbody. induction l as [|x rest IH]; intros c Hc.
  - cbn. split_and!; try done. rewrite Z.add_0_r. by rewrite u32_small.
  - cbn [for_each existsb sum_list_with]. specialize (Hbody x c Hc).
    destruct (rej x); cbn [orb].
    + destruct (body x c) as [err c1]. cbn [fst] in Hbody. subst err.
      done.
    + destruct Hbody as [Herr Hcnt].
      destruct (body x c) as [err c1]. cbn [fst snd] in *. subst err.
      cbn [Z.ltb Z.compare].
      assert (Hc1 : 0 <= counter c1 < 2 ^ 32)
        by (rewrite Hcnt; apply u32_range).
      specialize (IH c1 Hc1). destruct (existsb rej rest); [done|].
      destruct IH as (Hf & He & Hk). split_and!; try done.
      rewrite Hk, Hcnt, u32_add_u32. f_equal. lia.
Qed.

Lemma and_then_spec (a b : Z -> fill_ctx -> bool * Z * fill_ctx)
  (r1 r2 : bool) (k1 k2 : nat) :
  step_spec a r1 k1 -> step_spec b r2 k2 ->
  step_spec (and_then a b) (r1 || r2) (k1 + k2).
Proof.
  intros Ha Hb c Hc. unfold and_then. specialize (Ha c Hc).
  destruct r1; cbn [orb].
  - destruct (a 0 c) as [[failed err] c1]. cbn [fst snd] in Ha.
    destruct Ha as [-> ->]. done.
  - destruct (a 0 c) as [[failed err] c1]. cbn [fst snd] in Ha.
    destruct Ha as (-> & -> & Hk).
    assert (Hc1 : 0 <= counter c1 < 2 ^ 32) by (rewrite Hk; apply u32_range).
    specialize (Hb c1 Hc1). destruct r2; [done|].
    destruct Hb as (Hf & He & Hk2). split_and!; try done.
    rewrite Hk2, Hk, u32_add_u32. f_equal. lia.
Qed.

Lemma foreach_pt_code (e : env) (pts : list (Z * Z)) :
  forall next : list dla_action,
    (nvhost_fence_foreach_pt e pts next).1 =
      (if existsb (pt_rejected e) pts then - EINVAL else 0).
Proof.
  induction pts as [|[id thresh] rest IH]; intros next; [done|].
  cbn [nvhost_fence_foreach_pt nvdla_add_fence_action_cb existsb].
  unfold pt_rejected at 1. cbn [fst].
  destruct ((id =? 0) || negb (nvhost_syncpt_is_valid_pt_ext e id));
    cbn [orb]; [done|].
  cbn [Z.eqb]. apply IH.
Qed.

Lemma wait_fence_spec (e : env) :
  body_spec (nvdla_fill_wait_fence_action e) (wait_fence_rejected e)
    (fun _ => 0%nat).
Proof.
  intros f [m fc next] Hc. cbn [counter] in Hc.
  unfold nvdla_fill_wait_fence_action, wait_fence_rejected,
    nvdla_buffer_submit_pin.
  cbn [pins counter mem_next]. rewrite Z.add_0_r, (u32_small fc Hc).
  destruct (type f); try done.
  - destruct (nvhost_fence_get e (sync_fd f)) as [pts|]; [|done].
    pose proof (foreach_pt_code e pts next) as Hcode.
    destruct (nvhost_fence_foreach_pt e pts next) as [err next'].
    cbn [fst snd] in *. subst err.
    by destruct (existsb (pt_rejected e) pts).
  - by destruct (buffer_lookup e (semaphore_handle f)).
  - by destruct (buffer_lookup e (semaphore_handle f)).
Qed.

Lemma signal_fence_spec (e : env) :
  body_spec (nvdla_fill_signal_fence_action e) signal_fence_rejected
    signal_incrs.
Proof.
  intros f [m fc next] Hc. cbn [counter] in Hc.
  unfold nvdla_fill_signal_fence_action, signal_fence_rejected,
    signal_incrs, is_syncpt_type, nvdla_buffer_submit_pin.
  cbn [pins counter mem_next].
  destruct (type f); cbn [bool_decide decide_rel orb]; try done.
  - destruct (buffer_lookup e (semaphore_handle f)); cbn [negb Z.eqb];
      [destruct (decide (action f = NVDEV_FENCE_SIGNAL_STRIDE))|];
      cbn [fst snd counter]; by rewrite Z.add_0_r, (u32_small fc Hc).
  - destruct (buffer_lookup e (semaphore_handle f)); cbn [negb Z.eqb];
      cbn [fst snd counter]; by rewrite Z.add_0_r, (u32_small fc Hc).
Qed.

Lemma status_read_spec (e : env) :
  body_spec (nvdla_fill_taskstatus_read_action e) (status_rejected e)
    (fun _ => 0%nat).
Proof.
  intros st [m fc next] Hc. cbn [counter] in Hc.
  unfold nvdla_fill_taskstatus_read_action, status_rejected, handle_rejected,
    nvdla_buffer_submit_pin.
  cbn [pins counter mem_next]. rewrite Z.add_0_r, (u32_small fc Hc).
  by destruct (buffer_lookup e (sn_handle st)).
Qed.

Lemma status_write_spec (e : env) :
  body_spec (nvdla_fill_taskstatus_write_action e) (status_rejected e)
    (fun _ => 0%nat).
Proof.
  intros st [m fc next] Hc. cbn [counter] in Hc.
  unfold nvdla_fill_taskstatus_write_action, status_rejected, handle_rejected,
    nvdla_buffer_submit_pin.
  cbn [pins counter mem_next]. rewrite Z.add_0_r, (u32_small fc Hc).
  by destruct (buffer_lookup e (sn_handle st)).
Qed.

Lemma timestamp_spec (e : env) :
  body_spec (nvdla_fill_timestamp_write_action e) (timestamp_rejected e)
    (fun _ => 0%nat).
Proof.
  intros ts [m fc next] Hc. cbn [counter] in Hc.
  unfold nvdla_fill_timestamp_write_action, timestamp_rejected,
    handle_rejected, nvdla_buffer_submit_pin.
  cbn [pins counter mem_next]. rewrite Z.add_0_r, (u32_small fc Hc).
  by destruct (buffer_lookup e (mh_handle ts)).
Qed.

Lemma sum_list_with_zero {A : Type} (l : list A) :
  sum_list_with (fun _ : A => 0%nat) l = 0%nat.
Proof. induction l; cbn; lia. Qed.

(** [nvdla_fill_preactions]: the code, [fence_counter], and what it
    leaves as it was. *)
Lemma fill_preactions_spec (e : env) (task : nvdla_task) (m : gmap Z nat) :
  0 <= fence_counter task < 2 ^ 32 ->
  let r := nvdla_fill_preactions e task m in
  (if preactions_rejected e task then r.1.1 = - EINVAL
   else r.1.1 = 0 /\
        fence_counter r.1.2 =
          u32 (fence_counter task +
               Z.of_nat (sum_list_with signal_incrs
                           (filter (fun f => is_signal f = true)
                              (prefences task)))) /\
        preactionl (task_desc r.1.2) =
          Some (ActionList
                  (u16 (td_postactions (task_desc task) +
                        sizeof_action_list (abi e)))
                  (region_size e (preaction_mem (task_desc r.1.2))))).
Proof.
  intros Hc. unfold nvdla_fill_preactions, preactions_rejected. cbv zeta.
  match goal with
  | |- context [and_then ?a ?b 0 ?c] =>
      pose proof
        (and_then_spec _ _ _ _ _ _
           (for_each_spec _ _ _
              (filter (fun f => is_wait f = true) (prefences task))
              (wait_fence_spec e))
           (and_then_spec _ _ _ _ _ _
              (for_each_spec _ _ _ (in_task_status task)
                 (status_read_spec e))
              (and_then_spec _ _ _ _ _ _
                 (for_each_spec _ _ _ (sof_task_status task)
                    (status_write_spec e))
                 (and_then_spec _ _ _ _ _ _
                    (for_each_spec _ _ _ (sof_timestamps task)
                       (timestamp_spec e))
                    (for_each_spec _ _ _
                       (filter (fun f => is_signal f = true)
                          (prefences task))
                       (signal_fence_spec e))))) c Hc) as Hloops;
      destruct (and_then a b 0 c) as [[failed err] c1]
  end.
  cbn [fst snd counter] in Hloops.
  rewrite !sum_list_with_zero in Hloops. cbn [Nat.add] in Hloops.
  match type of Hloops with
  | if ?r then _ else _ => destruct r
  end.
  - destruct Hloops as [-> ->]. done.
  - destruct Hloops as (-> & -> & Hk). done.
Qed.

Lemma fill_postactions_spec (e : env) (task : nvdla_task) (m : gmap Z nat) :
  0 <= fence_counter task < 2 ^ 32 ->
  let r := nvdla_fill_postactions e task m in
  (if postactions_rejected e task then r.1.1 = - EINVAL
   else r.1.1 = 0 /\
        fence_counter r.1.2 =
          u32 (fence_counter task +
               Z.of_nat (sum_list_with signal_incrs (postfences task))) /\
        postactionl (task_desc r.1.2) =
          Some (ActionList
                  (u16 (td_postactions (task_desc task) +
                        sizeof_action_list (abi e) +
                        nvdla_get_max_preaction_size e))
                  (region_size e (postaction_mem (task_desc r.1.2))))).
Proof.
  intros Hc. unfold nvdla_fill_postactions, postactions_rejected. cbv zeta.
  match goal with
  | |- context [and_then ?a ?b 0 ?c] =>
      pose proof
        (and_then_spec _ _ _ _ _ _
           (for_each_spec _ _ _ (eof_timestamps task) (timestamp_spec e))
           (and_then_spec _ _ _ _ _ _
              (for_each_spec _ _ _ (eof_task_status task)
                 (status_write_spec e))
              (for_each_spec _ _ _ (postfences task)
                 (signal_fence_spec e))) c Hc) as Hloops;
      destruct (and_then a b 0 c) as [[failed err] c1]
  end.
  cbn [fst snd counter] in Hloops.
  rewrite !sum_list_with_zero in Hloops. cbn [Nat.add] in Hloops.
  match type of Hloops with
  | if ?r then _ else _ => destruct r
  end.
  - destruct Hloops as [-> ->]. done.
  - destruct Hloops as (-> & -> & Hk). done.
Qed.

Lemma fill_preactions_frame (e : env) (task : nvdla_task) (m : gmap Z nat) :
  let t' := (nvdla_fill_preactions e task m).1.2 in
  same_items t' task /\
  same_header (task_desc t') (task_desc task) /\
  task_desc_pa t' = task_desc_pa task.
Proof.
  unfold nvdla_fill_preactions. cbv zeta.
  match goal with
  | |- context [and_then ?a ?b 0 ?c] =>
      destruct (and_then a b 0 c) as [[failed err] c1]
  end.
  by destruct failed.
Qed.

Lemma fill_postactions_frame (e : env) (task : nvdla_task) (m : gmap Z nat) :
  let t' := (nvdla_fill_postactions e task m).1.2 in
  same_items t' task /\
  same_header (task_desc t') (task_desc task) /\
  task_desc_pa t' = task_desc_pa task /\
  preaction_mem (task_desc t') = preaction_mem (task_desc task) /\
  preactionl (task_desc t') = preactionl (task_desc task).
Proof.
  unfold nvdla_fill_postactions. cbv zeta.
  match goal with
  | |- context [and_then ?a ?b 0 ?c] =>
      destruct (and_then a b 0 c) as [[failed err] c1]
  end.
  by destruct failed.
Qed.

Lemma map_task_memory_frame (e : env) (task : nvdla_task) (m : gmap Z nat) :
  let t' := (nvdla_map_task_memory e task m).1.2 in
  same_items t' task /\
  same_header (task_desc t') (task_desc task) /\
  task_desc_pa t' = task_desc_pa task /\
  fence_counter t' = fence_counter task /\
  preaction_mem (task_desc t') = preaction_mem (task_desc task) /\
  preactionl (task_desc t') = preactionl (task_desc task) /\
  postaction_mem (task_desc t') = postaction_mem (task_desc task) /\
  postactionl (task_desc t') = postactionl (task_desc task).
Proof.
  unfold nvdla_map_task_memory. cbv zeta.
  destruct (map_address_list e (memory_handles task) 0 m [])
    as [[err m'] next].
  done.
Qed.

(** ** The address list *)

Lemma map_address_list_spec (e : env) (hs : list nvdla_mem_handle) :
  forall (m : gmap Z nat) (next : list Z),
  let r := map_address_list e hs 0 m next in
  if existsb (buffer_rejected e) hs then
    (r.1.1 = - EFAULT /\
     exists b, b ∈ hs /\ mh_type b ≠ NVDLA_BUFFER_TYPE_INTERNAL /\
               mh_handle b = 0) \/
    (r.1.1 = - EINVAL /\
     exists b, b ∈ hs /\ mh_type b ≠ NVDLA_BUFFER_TYPE_INTERNAL /\
               buffer_lookup e (mh_handle b) = None)
  else r.1.1 = 0 /\ r.2 = next ++ map (buffer_address e) hs.
Proof.
  induction hs as [|b rest IH]; intros m next; cbv zeta.
  - cbn. by rewrite app_nil_r.
  - cbn [map_address_list existsb map].
    unfold buffer_rejected at 1, buffer_address at 1, handle_rejected,
      nvdla_buffer_submit_pin.
    destruct (decide (mh_type b = NVDLA_BUFFER_TYPE_INTERNAL)) as [Hi|Hi];
      cbn [orb].
    + specialize (IH m (add_address next (mh_offset b))). cbv zeta in IH.
      destruct (existsb (buffer_rejected e) rest).
      * destruct IH as [[Hr (b' & Hin & Hb')]|[Hr (b' & Hin & Hb')]];
          [left|right]; (split; [done|]); exists b';
          (split; [by apply elem_of_cons; right|done]).
      * destruct IH as [Hr Hnext]. split; [done|]. rewrite Hnext.
        unfold add_address. by rewrite <- app_assoc.
    + destruct (Z.eqb_spec (mh_handle b) 0) as [Hz|Hz]; cbn [orb].
      { left. split; [done|]. exists b. split_and!; try done.
        apply elem_of_cons. by left. }
      destruct (buffer_lookup e (mh_handle b)) as [dma|] eqn:Hlook;
        cbn [negb Z.eqb fst snd bool_decide decide_rel orb].
      * rewrite bool_decide_eq_false_2 by done. cbn [orb default].
        specialize (IH (<[mh_handle b:=S (pin_count m (mh_handle b))]> m)
                      (add_address next (dma + mh_offset b))).
        cbv zeta in IH.
        destruct (existsb (buffer_rejected e) rest).
        -- destruct IH as [[Hr (b' & Hin & Hb')]|[Hr (b' & Hin & Hb')]];
             [left|right]; (split; [done|]); exists b';
             (split; [by apply elem_of_cons; right|done]).
        -- destruct IH as [Hr Hnext]. split; [done|]. rewrite Hnext.
           unfold add_address. by rewrite <- app_assoc.
      * rewrite bool_decide_eq_true_2 by done. cbn [orb].
        right. split; [done|]. exists b. split_and!; try done.
        apply elem_of_cons. by left.
Qed.

(** X12: [nvdla_map_task_memory] returns 0 exactly when every buffer that is
    not internal has a non-null handle the registry can pin.  It then
    has written one entry per buffer, in order: the offset of an internal
    buffer, the DMA address plus the offset of any other.  A null handle
    gives [-EFAULT], a handle the registry refuses its error.  The
    descriptor announces [num_addresses] entries on every path. *)
Theorem map_task_memory_result (e : env) (task : nvdla_task)
  (m : gmap Z nat) :
  let r := nvdla_map_task_memory e task m in
  let d := task_desc r.1.2 in
  td_num_addresses d = Z.of_nat (length (memory_handles task)) /\
  (r.1.1 = 0 <-> existsb (buffer_rejected e) (memory_handles task) = false) /\
  (r.1.1 = 0 ->
   address_mem d = map (buffer_address e) (memory_handles task) /\
   Z.of_nat (length (address_mem d)) = td_num_addresses d) /\
  (r.1.1 ≠ 0 ->
   (r.1.1 = - EFAULT /\
    exists b, b ∈ memory_handles task /\
              mh_type b ≠ NVDLA_BUFFER_TYPE_INTERNAL /\ mh_handle b = 0) \/
   (r.1.1 = - EINVAL /\
    exists b, b ∈ memory_handles task /\
              mh_type b ≠ NVDLA_BUFFER_TYPE_INTERNAL /\
              buffer_lookup e (mh_handle b) = None)).
Proof.
  cbv zeta. unfold nvdla_map_task_memory. cbv zeta.
  pose proof (map_address_list_spec e (memory_handles task) m []) as Hspec.
  cbv zeta in Hspec.
  destruct (map_address_list e (memory_handles task) 0 m [])
    as [[err m'] next].
  cbn [fst snd task_desc set_task_desc td_num_addresses address_mem
       set_address_list] in *.
  destruct (existsb (buffer_rejected e) (memory_handles task)).
  - assert (Herr : err ≠ 0).
    { destruct Hspec as [[-> _]|[-> _]]; unfold EFAULT, EINVAL; lia. }
    split_and!; try done.
  - destruct Hspec as [-> ->]. cbn [app].
    split_and!; try done. intros _. split; [done|]. by rewrite length_map.
Qed.

(** ** The outcome of a construction *)

Lemma fill_task_desc_spec (e : env) (task : nvdla_task) (bypass_exec : bool)
  (sequence : Z) (m : gmap Z nat) :
  let r := nvdla_fill_task_desc e task bypass_exec sequence m in
  let d := task_desc r.1.1.2 in
  if task_rejected e task then
    r.1.1.1 = - EINVAL \/
    (r.1.1.1 = - EFAULT /\
     exists b, b ∈ memory_handles task /\
               mh_type b ≠ NVDLA_BUFFER_TYPE_INTERNAL /\ mh_handle b = 0)
  else
    r.1.1.1 = 0 /\
    fence_counter r.1.1.2 = u32 (Z.of_nat (task_incrs task)) /\
    td_address_list d = u64 (task_desc_pa task + address_list_offset e) /\
    td_num_addresses d = Z.of_nat (length (memory_handles task)) /\
    address_mem d = map (buffer_address e) (memory_handles task).
Proof.
  cbv zeta. unfold nvdla_fill_task_desc, task_rejected. cbv zeta.
  set (seq' := if _ >=? _ then 0 else _).
  set (task1 := set_fence_counter 0 _).
  assert (Hc1 : 0 <= fence_counter task1 < 2 ^ 32) by (cbn; lia).
  pose proof (fill_preactions_spec e task1 m Hc1) as H1.
  pose proof (fill_preactions_frame e task1 m) as F1.
  cbv zeta in H1, F1.
  change (preactions_rejected e task1) with (preactions_rejected e task) in H1.
  destruct (nvdla_fill_preactions e task1 m) as [[err1 task2] m1].
  cbn [fst snd] in H1, F1.
  destruct (preactions_rejected e task); cbn [orb].
  { subst err1. by left. }
  destruct H1 as (-> & Hk1 & _). cbn [negb Z.eqb].
  destruct F1 as (I1 & Hd1 & Hpa1).
  assert (Hc2 : 0 <= fence_counter task2 < 2 ^ 32)
    by (rewrite Hk1; apply u32_range).
  pose proof (fill_postactions_spec e task2 m1 Hc2) as H2.
  pose proof (fill_postactions_frame e task2 m1) as F2.
  cbv zeta in H2, F2.
  assert (Hrej2 : postactions_rejected e task2 = postactions_rejected e task).
  { unfold postactions_rejected.
    destruct I1 as (_ & _ & _ & -> & _ & -> & _ & ->). done. }
  rewrite Hrej2 in H2.
  assert (Hpost2 : postfences task2 = postfences task)
    by (destruct I1 as (_ & _ & _ & -> & _); done).
  rewrite Hpost2 in H2.
  destruct (nvdla_fill_postactions e task2 m1) as [[err2 task3] m2].
  cbn [fst snd] in H2, F2.
  destruct (postactions_rejected e task); cbn [orb].
  { subst err2. by left. }
  destruct H2 as (-> & Hk2 & _). cbn [negb Z.eqb].
  destruct F2 as (I2 & Hd2 & Hpa2 & _).
  assert (Hmh : memory_handles task3 = memory_handles task).
  { destruct I2 as (-> & _). destruct I1 as (-> & _). done. }
  assert (Hpost : td_postactions (task_desc task3) =
            sizeof_task_descriptor (abi e) + sizeof_action_list (abi e)).
  { destruct Hd2 as (_ & _ & _ & _ & _ & -> & _).
    destruct Hd1 as (_ & _ & _ & _ & _ & -> & _). done. }
  unfold nvdla_map_task_memory. cbv zeta. rewrite Hmh, Hpost, Hpa2, Hpa1.
  pose proof (map_address_list_spec e (memory_handles task) m2 []) as H3.
  cbv zeta in H3.
  destruct (map_address_list e (memory_handles task) 0 m2 [])
    as [[err3 m3] next].
  cbn [fst snd] in H3.
  destruct (existsb (buffer_rejected e) (memory_handles task)).
  - destruct H3 as [[-> Hb]|[-> _]]; cbn; [by right|by left].
  - destruct H3 as [-> ->]. cbn [negb Z.eqb fst snd app].
    cbn [task_desc set_task_desc fence_counter td_address_list
         td_num_addresses address_mem set_address_list].
    split_and!; try done.
    rewrite Hk2, Hk1, u32_add_u32. unfold task_incrs.
    f_equal. change (fence_counter task1) with 0.
    change (prefences task1) with (prefences task). lia.
Qed.

(** X13: [nvdla_fill_task_desc] returns 0 exactly when the task holds no item
    a fill function refuses: a wait prefence of an unknown type or on a
    sync fd with an invalid point, a signal prefence or a postfence of an
    unknown type, a status or timestamp buffer the registry cannot pin, a
    memory buffer with a null handle or one the registry cannot pin.  A
    semaphore fence whose buffer cannot be pinned is no such item.  The
    only error codes are [-EINVAL] and [-EFAULT], the latter for a null
    memory handle alone. *)
Theorem fill_task_desc_succeeds_iff (e : env) (task : nvdla_task)
  (bypass_exec : bool) (sequence : Z) (m : gmap Z nat) :
  let r := nvdla_fill_task_desc e task bypass_exec sequence m in
  (r.1.1.1 = 0 <-> task_rejected e task = false) /\
  (r.1.1.1 = 0 \/ r.1.1.1 = - EINVAL \/ r.1.1.1 = - EFAULT) /\
  (r.1.1.1 = - EFAULT ->
   exists b, b ∈ memory_handles task /\
             mh_type b ≠ NVDLA_BUFFER_TYPE_INTERNAL /\ mh_handle b = 0) /\
  (forall f, f ∈ postfences task -> signal_fence_rejected f = true ->
             r.1.1.1 ≠ 0).
Proof.
  cbv zeta.
  pose proof (fill_task_desc_spec e task bypass_exec sequence m) as Hspec.
  cbv zeta in Hspec.
  assert (Hpostf : forall f, f ∈ postfences task ->
            signal_fence_rejected f = true -> task_rejected e task = true).
  { intros f Hin Hf. unfold task_rejected, postactions_rejected.
    assert (existsb signal_fence_rejected (postfences task) = true) as ->.
    { apply existsb_exists. exists f. split; [|done].
      by apply list_elem_of_In. }
    by rewrite !orb_true_r. }
  destruct (task_rejected e task).
  - assert (Herr : (nvdla_fill_task_desc e task bypass_exec sequence m).1.1.1
                   ≠ 0).
    { destruct Hspec as [->|[-> _]]; unfold EFAULT, EINVAL; lia. }
    split_and!.
    + split; [done|discriminate].
    + destruct Hspec as [->|[-> _]]; auto.
    + intros HF. destruct Hspec as [Hr|[_ Hb]]; [|done].
      rewrite Hr in HF. unfold EFAULT, EINVAL in HF. lia.
    + done.
  - destruct Hspec as (Hr & _). split_and!.
    + done.
    + by left.
    + rewrite Hr. unfold EFAULT. lia.
    + intros f Hin Hf. by specialize (Hpostf f Hin Hf).
Qed.

(** X14: After a construction that succeeds, [fence_counter] is the number of
    signals of a syncpoint type (syncpoint or sync fd) the task holds,
    modulo 2^32: those among the prefences whose action is signal or
    signal-stride, and those among all the postfences, whatever their
    action is. *)
Theorem fill_task_desc_counts_signals (e : env) (task : nvdla_task)
  (bypass_exec : bool) (sequence : Z) (m : gmap Z nat) :
  (nvdla_fill_task_desc e task bypass_exec sequence m).1.1.1 = 0 ->
  fence_counter (nvdla_fill_task_desc e task bypass_exec sequence m).1.1.2 =
    u32 (Z.of_nat (task_incrs task)).
Proof.
  intros Hok.
  pose proof (fill_task_desc_spec e task bypass_exec sequence m) as Hspec.
  cbv zeta in Hspec. destruct (task_rejected e task).
  - rewrite Hok in Hspec. unfold EFAULT, EINVAL in Hspec.
    destruct Hspec as [?|[? _]]; lia.
  - by destruct Hspec as (_ & Hfc & _).
Qed.

Lemma fill_task_desc_counts_signals_witness :
  fence_counter (nvdla_fill_task_desc env0 task_stride false 0 ∅).1.1.2 = 2.
Proof.
  apply (fill_task_desc_counts_signals env0 task_stride false 0 ∅).
  reflexivity.
Defined.

Lemma fill_task_desc_succeeds_witness :
  (nvdla_fill_task_desc env0 task_buffers false 0 ∅).1.1.1 = 0.
Proof.
  apply (proj1 (fill_task_desc_succeeds_iff env0 task_buffers false 0 ∅)).
  reflexivity.
Defined.

Lemma map_task_memory_witness :
  address_mem (task_desc (nvdla_map_task_memory env0 task_buffers ∅).1.2) =
    [12304; 64].
Proof.
  destruct (map_task_memory_result env0 task_buffers ∅) as (_ & _ & H & _).
  destruct H as [-> _]; reflexivity.
Defined.

Lemma same_header_trans (d1 d2 d3 : dla_task_descriptor) :
  same_header d1 d2 -> same_header d2 d3 -> same_header d1 d3.
Proof.
  intros (H1 & H2 & H3 & H4 & H5 & H6 & H7)
         (K1 & K2 & K3 & K4 & K5 & K6 & K7).
  unfold same_header. rewrite H1, H2, H3, H4, H5, H6, H7. by repeat split.
Qed.

(** The header fields of the descriptor, on every path. *)
Lemma fill_task_desc_fields (e : env) (task : nvdla_task)
  (bypass_exec : bool) (sequence : Z) (m : gmap Z nat) :
  let r := nvdla_fill_task_desc e task bypass_exec sequence m in
  let d := task_desc r.1.1.2 in
  td_timeout d = timeout task /\
  td_queue_id d = queue_id e /\
  td_flags d =
    (if bypass_exec then DLA_DESC_FLAGS_BYPASS_EXEC (abi e) else 0) /\
  td_sequence d = r.1.2 /\
  0 <= r.1.2 < UINT_MAX - 1 /\
  (r.1.2 = u32 (sequence + 1) \/
   (r.1.2 = 0 /\ UINT_MAX - 1 <= u32 (sequence + 1))) /\
  td_preactions d = sizeof_task_descriptor (abi e) /\
  td_postactions d =
    sizeof_task_descriptor (abi e) + sizeof_action_list (abi e) /\
  td_next d = td_next (task_desc task) /\
  task_desc_pa r.1.1.2 = task_desc_pa task /\
  same_items r.1.1.2 task.
Proof.
  cbv zeta. unfold nvdla_fill_task_desc. cbv zeta.
  set (seq' := if _ >=? _ then 0 else _).
  assert (Hseq : 0 <= seq' < UINT_MAX - 1 /\
                 (seq' = u32 (sequence + 1) \/
                  (seq' = 0 /\ UINT_MAX - 1 <= u32 (sequence + 1)))).
  { unfold seq'. pose proof (u32_range (sequence + 1)) as Hr.
    destruct (u32 (sequence + 1) >=? UINT_MAX - 1) eqn:Hge.
    - apply Z.geb_le in Hge. unfold UINT_MAX in *. lia.
    - rewrite Z.geb_leb in Hge. apply Z.leb_gt in Hge. lia. }
  set (task1 := set_fence_counter 0 _).
  assert (P1 : same_items task1 task /\
               task_desc_pa task1 = task_desc_pa task) by (by repeat split).
  pose proof (fill_preactions_frame e task1 m) as F1. cbv zeta in F1.
  destruct (nvdla_fill_preactions e task1 m) as [[err1 task2] m1].
  cbn [fst snd] in F1. destruct F1 as (I1 & D1 & A1).
  pose proof (fill_postactions_frame e task2 m1) as F2. cbv zeta in F2.
  destruct (nvdla_fill_postactions e task2 m1) as [[err2 task3] m2].
  cbn [fst snd] in F2. destruct F2 as (I2 & D2 & A2 & _).
  pose proof (map_task_memory_frame e task3 m2) as F3. cbv zeta in F3.
  destruct (nvdla_map_task_memory e task3 m2) as [[err3 task4] m3].
  cbn [fst snd] in F3. destruct F3 as (I3 & D3 & A3 & _).
  destruct P1 as [I0 A0].
  pose proof (same_items_trans _ _ _ I1 I0) as J2.
  pose proof (same_items_trans _ _ _ I2 J2) as J3.
  pose proof (same_items_trans _ _ _ I3 J3) as J4.
  pose proof (same_header_trans _ _ _ D2 D1) as E3.
  pose proof (same_header_trans _ _ _ D3 E3) as E4.
  assert (Hfinal : forall t : nvdla_task,
            same_header (task_desc t) (task_desc task1) ->
            task_desc_pa t = task_desc_pa task ->
            same_items t task ->
            td_timeout (task_desc t) = timeout task /\
            td_queue_id (task_desc t) = queue_id e /\
            td_flags (task_desc t) =
              (if bypass_exec then DLA_DESC_FLAGS_BYPASS_EXEC (abi e)
               else 0) /\
            td_sequence (task_desc t) = seq' /\
            0 <= seq' < UINT_MAX - 1 /\
            (seq' = u32 (sequence + 1) \/
             (seq' = 0 /\ UINT_MAX - 1 <= u32 (sequence + 1))) /\
            td_preactions (task_desc t) = sizeof_task_descriptor (abi e) /\
            td_postactions (task_desc t) =
              sizeof_task_descriptor (abi e) + sizeof_action_list (abi e) /\
            td_next (task_desc t) = td_next (task_desc task) /\
            task_desc_pa t = task_desc_pa task /\
            same_items t task).
  { intros t (H1 & H2 & H3 & H4 & H5 & H6 & H7) Hpa Hit.
    rewrite H1, H2, H3, H4, H5, H6, H7.
    split_and!; first [done | apply Hseq | by destruct bypass_exec]. }
  destruct (negb (err1 =? 0)); cbn [fst snd].
  { apply Hfinal; [done|congruence|done]. }
  destruct (negb (err2 =? 0)); cbn [fst snd].
  { apply Hfinal; [done|congruence|done]. }
  destruct (negb (err3 =? 0)); cbn [fst snd];
    (apply Hfinal; [done|congruence|done]).
Qed.

(** X15: On every path [nvdla_fill_task_desc] leaves a descriptor whose header
    carries the task's timeout, the queue's id, the bypass flag alone,
    the two list headers right behind the descriptor, and the sequence
    number the queue has moved to: the successor of the previous one
    modulo 2^32, or 0 in place of 0xFFFFFFFE and 0xFFFFFFFF, which are
    never used.  The link to the next descriptor, the task's address and
    its items are not touched. *)
Theorem fill_task_desc_header (e : env) (task : nvdla_task)
  (bypass_exec : bool) (sequence : Z) (m : gmap Z nat) :
  let r := nvdla_fill_task_desc e task bypass_exec sequence m in
  let d := task_desc r.1.1.2 in
  td_timeout d = timeout task /\
  td_queue_id d = queue_id e /\
  td_flags d =
    (if bypass_exec then DLA_DESC_FLAGS_BYPASS_EXEC (abi e) else 0) /\
  td_sequence d = r.1.2 /\
  0 <= r.1.2 < UINT_MAX - 1 /\
  (r.1.2 = u32 (sequence + 1) \/
   (r.1.2 = 0 /\ UINT_MAX - 1 <= u32 (sequence + 1))) /\
  td_preactions d = sizeof_task_descriptor (abi e) /\
  td_postactions d =
    sizeof_task_descriptor (abi e) + sizeof_action_list (abi e) /\
  td_next d = td_next (task_desc task) /\
  task_desc_pa r.1.1.2 = task_desc_pa task /\
  same_items r.1.1.2 task.
Proof. exact (fill_task_desc_fields e task bypass_exec sequence m). Qed.

(** ** The action lists stay inside their regions *)

Section Regions.

Variable e : env.
Hypothesis sizes_ok : action_sizes_ok (abi e).

Lemma region_size_app (l1 l2 : list dla_action) :
  region_size e (l1 ++ l2) = region_size e l1 + region_size e l2.
Proof.
  unfold region_size. induction l1 as [|a l1 IH]; cbn [foldr app]; lia.
Qed.

Lemma region_size_nonneg (l : list dla_action) : 0 <= region_size e l.
Proof.
  destruct sizes_ok as (H1 & H2 & H3 & H4 & _).
  unfold region_size. induction l as [|a l IH]; cbn [foldr]; [lia|].
  unfold action_size at 1. destruct a; lia.
Qed.

Lemma region_size_one (a : dla_action) :
  region_size e [a] = action_size e a.
Proof. unfold region_size. cbn [foldr]. lia. Qed.

Ltac region_step :=
  try change (- EINVAL =? 0) with false;
  cbn [fst snd mem_next pins counter negb Z.eqb];
  rewrite ?region_size_app, ?region_size_one;
  unfold action_size; lia.

Lemma for_each_size {A : Type} (body : A -> fill_ctx -> Z * fill_ctx)
  (b : Z) (l : list A) :
  0 <= b ->
  (forall x c, x ∈ l ->
     region_size e (mem_next (body x c).2) <= region_size e (mem_next c) + b) ->
  step_size e (for_each body l) (Z.of_nat (length l) * b).
Proof.
  intros Hb. induction l as [|x rest IH]; intros Hbody err c.
  - cbn. lia.
  - cbn [for_each length].
    assert (Hx : x ∈ x :: rest) by (apply elem_of_cons; by left).
    specialize (Hbody x c Hx) as Hstep.
    destruct (body x c) as [err' c']. cbn [snd] in Hstep.
    destruct (err' <? 0); cbn [snd]; [nia|].
    assert (Hrest : forall y c0, y ∈ rest ->
              region_size e (mem_next (body y c0).2)
                <= region_size e (mem_next c0) + b).
    { intros y c0 Hy. apply Hbody. apply elem_of_cons. by right. }
    specialize (IH Hrest err' c'). nia.
Qed.

Lemma and_then_size (a b : Z -> fill_ctx -> bool * Z * fill_ctx)
  (n1 n2 : Z) :
  0 <= n2 ->
  step_size e a n1 -> step_size e b n2 -> step_size e (and_then a b) (n1 + n2).
Proof.
  intros Hn Ha Hb err c. unfold and_then. specialize (Ha err c).
  destruct (a err c) as [[failed err'] c']. cbn [snd] in Ha.
  destruct failed; cbn [snd]; [lia|]. specialize (Hb err' c'). lia.
Qed.

Lemma foreach_pt_size (pts : list (Z * Z)) :
  forall next : list dla_action,
    region_size e (nvhost_fence_foreach_pt e pts next).2 <=
      region_size e next +
      Z.of_nat (length pts) *
        (sizeof_action_opcode (abi e) + sizeof_action_semaphore (abi e)).
Proof.
  destruct sizes_ok as (H1 & H2 & _).
  induction pts as [|[id thresh] rest IH]; intros next.
  - cbn [nvhost_fence_foreach_pt snd length]. lia.
  - cbn [nvhost_fence_foreach_pt nvdla_add_fence_action_cb length].
    destruct ((id =? 0) || negb (nvhost_syncpt_is_valid_pt_ext e id)).
    + change (- EINVAL =? 0) with false. cbn [snd]. nia.
    + cbn [Z.eqb]. unfold add_fence_action.
      match goal with
      | |- context [nvhost_fence_foreach_pt e rest ?n] =>
          specialize (IH n); rewrite region_size_app in IH
      end.
      rewrite region_size_one in IH. unfold action_size in IH. nia.
Qed.

Lemma wait_fence_size (task : nvdla_task) (f : nvdev_fence) (c : fill_ctx) :
  single_point_waits e task ->
  f ∈ filter (fun f => is_wait f = true) (prefences task) ->
  region_size e (mem_next (nvdla_fill_wait_fence_action e f c).2) <=
    region_size e (mem_next c) +
    (sizeof_action_opcode (abi e) + sizeof_action_semaphore (abi e)).
Proof.
  destruct sizes_ok as (H1 & H2 & _).
  intros Hsingle Hin. apply list_elem_of_filter in Hin as [_ Hin].
  unfold nvdla_fill_wait_fence_action, nvdla_buffer_submit_pin,
    add_fence_action.
  destruct (type f).
  - region_step.
  - destruct (nvhost_fence_get e (sync_fd f)) as [pts|] eqn:Hget;
      [|region_step].
    pose proof (Hsingle f pts Hin Hget) as Hlen.
    pose proof (foreach_pt_size pts (mem_next c)) as Hsz.
    destruct (nvhost_fence_foreach_pt e pts (mem_next c)) as [err next'].
    destruct (negb (err =? 0)); cbn [fst snd mem_next] in *; nia.
  - destruct (buffer_lookup e (semaphore_handle f)); region_step.
  - destruct (buffer_lookup e (semaphore_handle f)); region_step.
  - region_step.
Qed.

Lemma signal_fence_size (f : nvdev_fence) (c : fill_ctx) :
  region_size e (mem_next (nvdla_fill_signal_fence_action e f c).2) <=
    region_size e (mem_next c) +
    (sizeof_action_opcode (abi e) + sizeof_action_semaphore (abi e)).
Proof.
  destruct sizes_ok as (H1 & H2 & _).
  unfold nvdla_fill_signal_fence_action, nvdla_buffer_submit_pin,
    add_fence_action.
  destruct (type f).
  - region_step.
  - region_step.
  - destruct (buffer_lookup e (semaphore_handle f)); cbn [negb Z.eqb];
      [destruct (decide (action f = NVDEV_FENCE_SIGNAL_STRIDE))|];
      region_step.
  - destruct (buffer_lookup e (semaphore_handle f)); region_step.
  - region_step.
Qed.

Lemma status_read_size (st : nvdla_status_notify) (c : fill_ctx) :
  region_size e (mem_next (nvdla_fill_taskstatus_read_action e st c).2) <=
    region_size e (mem_next c) +
    (sizeof_action_opcode (abi e) + sizeof_action_task_status (abi e)).
Proof.
  destruct sizes_ok as (H1 & H2 & H3 & _).
  unfold nvdla_fill_taskstatus_read_action, nvdla_buffer_submit_pin,
    add_status_action.
  destruct (buffer_lookup e (sn_handle st)); region_step.
Qed.

Lemma status_write_size (st : nvdla_status_notify) (c : fill_ctx) :
  region_size e (mem_next (nvdla_fill_taskstatus_write_action e st c).2) <=
    region_size e (mem_next c) +
    (sizeof_action_opcode (abi e) + sizeof_action_task_status (abi e)).
Proof.
  destruct sizes_ok as (H1 & H2 & H3 & _).
  unfold nvdla_fill_taskstatus_write_action, nvdla_buffer_submit_pin,
    add_status_action.
  destruct (buffer_lookup e (sn_handle st)); region_step.
Qed.

Lemma timestamp_size (ts : nvdla_mem_handle) (c : fill_ctx) :
  region_size e (mem_next (nvdla_fill_timestamp_write_action e ts c).2) <=
    region_size e (mem_next c) +
    (sizeof_action_opcode (abi e) + sizeof_action_timestamp (abi e)).
Proof.
  destruct sizes_ok as (H1 & H2 & H3 & H4 & _).
  unfold nvdla_fill_timestamp_write_action, nvdla_buffer_submit_pin,
    add_timestamp_action.
  destruct (buffer_lookup e (mh_handle ts)); region_step.
Qed.

Lemma wait_signal_length (l : list nvdev_fence) :
  (length (filter (fun f => is_wait f = true) l) +
   length (filter (fun f => is_signal f = true) l) <= length l)%nat.
Proof.
  induction l as [|f rest IH]; [done|].
  assert (Hexcl : is_wait f = true -> is_signal f = true -> False).
  { unfold is_wait, is_signal. destruct (action f); vm_compute; congruence. }
  rewrite !filter_cons.
  destruct (decide (is_wait f = true)), (decide (is_signal f = true));
    cbn; try lia.
  exfalso. auto.
Qed.

Lemma fill_preactions_size (task : nvdla_task) (m : gmap Z nat) :
  within_limits e task ->
  single_point_waits e task ->
  region_size e
    (preaction_mem (task_desc (nvdla_fill_preactions e task m).1.2))
    <= nvdla_get_max_preaction_size e.
Proof.
  destruct sizes_ok as (H1 & H2 & H3 & H4 & _).
  intros (L1 & _ & L3 & L4 & _ & L6 & _) Hsingle.
  cbv zeta in *.
  pose proof (wait_signal_length (prefences task)) as Hws.
  unfold nvdla_fill_preactions, nvdla_get_max_preaction_size. cbv zeta.
  set (bsem := sizeof_action_opcode (abi e) + sizeof_action_semaphore (abi e)).
  set (bst :=
         sizeof_action_opcode (abi e) + sizeof_action_task_status (abi e)).
  set (bts := sizeof_action_opcode (abi e) + sizeof_action_timestamp (abi e)).
  assert (S1 : step_size e
            (for_each (nvdla_fill_wait_fence_action e)
               (filter (fun f => is_wait f = true) (prefences task)))
            (Z.of_nat (length (filter (fun f => is_wait f = true)
                                 (prefences task))) * bsem)).
  { apply for_each_size; [unfold bsem; lia|].
    intros x c Hx. by apply (wait_fence_size task). }
  assert (S2 : step_size e
            (for_each (nvdla_fill_taskstatus_read_action e)
               (in_task_status task))
            (Z.of_nat (length (in_task_status task)) * bst)).
  { apply for_each_size; [unfold bst; lia|].
    intros x c _. apply status_read_size. }
  assert (S3 : step_size e
            (for_each (nvdla_fill_taskstatus_write_action e)
               (sof_task_status task))
            (Z.of_nat (length (sof_task_status task)) * bst)).
  { apply for_each_size; [unfold bst; lia|].
    intros x c _. apply status_write_size. }
  assert (S4 : step_size e
            (for_each (nvdla_fill_timestamp_write_action e)
               (sof_timestamps task))
            (Z.of_nat (length (sof_timestamps task)) * bts)).
  { apply for_each_size; [unfold bts; lia|].
    intros x c _. apply timestamp_size. }
  assert (S5 : step_size e
            (for_each (nvdla_fill_signal_fence_action e)
               (filter (fun f => is_signal f = true) (prefences task)))
            (Z.of_nat (length (filter (fun f => is_signal f = true)
                                 (prefences task))) * bsem)).
  { apply for_each_size; [unfold bsem; lia|].
    intros x c _. apply signal_fence_size. }
  assert (Hb1 : 0 <= bsem) by (unfold bsem; lia).
  assert (Hb2 : 0 <= bst) by (unfold bst; lia).
  assert (Hb3 : 0 <= bts) by (unfold bts; lia).
  unshelve epose proof (and_then_size _ _ _ _ _ S4 S5) as T4; [nia|].
  unshelve epose proof (and_then_size _ _ _ _ _ S3 T4) as T3; [nia|].
  unshelve epose proof (and_then_size _ _ _ _ _ S2 T3) as T2; [nia|].
  unshelve epose proof (and_then_size _ _ _ _ _ S1 T2) as T1; [nia|].
  match goal with
  | |- context [and_then ?a ?b 0 ?c] =>
      specialize (T1 0 c); destruct (and_then a b 0 c) as [[failed err] c1]
  end.
  cbn [snd mem_next] in T1.
  change (region_size e []) with 0 in T1.
  destruct failed;
    cbn [fst snd task_desc set_task_desc preaction_mem set_preactions];
    unfold add_opcode; rewrite ?region_size_app, ?region_size_one;
    unfold action_size, bsem, bst, bts in *; nia.
Qed.

Lemma fill_postactions_size (task : nvdla_task) (m : gmap Z nat) :
  within_limits e task ->
  region_size e
    (postaction_mem (task_desc (nvdla_fill_postactions e task m).1.2))
    <= nvdla_get_max_postaction_size e.
Proof.
  destruct sizes_ok as (H1 & H2 & H3 & H4 & H5).
  intros (_ & L2 & _ & _ & L5 & _ & L7).
  cbv zeta in *.
  unfold nvdla_fill_postactions, nvdla_get_max_postaction_size. cbv zeta.
  set (bsem := sizeof_action_opcode (abi e) + sizeof_action_semaphore (abi e)).
  set (bst :=
         sizeof_action_opcode (abi e) + sizeof_action_task_status (abi e)).
  set (bts := sizeof_action_opcode (abi e) + sizeof_action_timestamp (abi e)).
  assert (S1 : step_size e
            (for_each (nvdla_fill_timestamp_write_action e)
               (eof_timestamps task))
            (Z.of_nat (length (eof_timestamps task)) * bts)).
  { apply for_each_size; [unfold bts; lia|].
    intros x c _. apply timestamp_size. }
  assert (S2 : step_size e
            (for_each (nvdla_fill_taskstatus_write_action e)
               (eof_task_status task))
            (Z.of_nat (length (eof_task_status task)) * bst)).
  { apply for_each_size; [unfold bst; lia|].
    intros x c _. apply status_write_size. }
  assert (S3 : step_size e
            (for_each (nvdla_fill_signal_fence_action e) (postfences task))
            (Z.of_nat (length (postfences task)) * bsem)).
  { apply for_each_size; [unfold bsem; lia|].
    intros x c _. apply signal_fence_size. }
  assert (Hb1 : 0 <= bsem) by (unfold bsem; lia).
  assert (Hb2 : 0 <= bst) by (unfold bst; lia).
  assert (Hb3 : 0 <= bts) by (unfold bts; lia).
  unshelve epose proof (and_then_size _ _ _ _ _ S2 S3) as T2; [nia|].
  unshelve epose proof (and_then_size _ _ _ _ _ S1 T2) as T1; [nia|].
  match goal with
  | |- context [and_then ?a ?b 0 ?c] =>
      specialize (T1 0 c); destruct (and_then a b 0 c) as [[failed err] c1]
  end.
  cbn [snd mem_next] in T1. unfold add_status_action in T1.
  cbn [app] in T1. rewrite region_size_one in T1.
  destruct failed;
    cbn [fst snd task_desc set_task_desc postaction_mem set_postactions];
    unfold add_opcode; rewrite ?region_size_app, ?region_size_one;
    unfold action_size, bsem, bst, bts in *; nia.
Qed.

End Regions.

(** A construction that succeeds has gone through its three stages. *)
Lemma fill_task_desc_stages (e : env) (task : nvdla_task) (bypass_exec : bool)
  (sequence : Z) (m : gmap Z nat) :
  let r := nvdla_fill_task_desc e task bypass_exec sequence m in
  r.1.1.1 = 0 ->
  exists (task1 task2 task3 : nvdla_task) (m1 : resources)
    (m2 : gmap Z nat),
    same_items task1 task /\
    fence_counter task1 = 0 /\
    td_postactions (task_desc task1) =
      sizeof_task_descriptor (abi e) + sizeof_action_list (abi e) /\
    task_desc_pa task1 = task_desc_pa task /\
    nvdla_fill_preactions e task1 m = (0, task2, m1) /\
    nvdla_fill_postactions e task2 m1 = (0, task3, m2) /\
    nvdla_map_task_memory e task3 m2 = (0, r.1.1.2, bufs r.2).
Proof.
  cbv zeta. unfold nvdla_fill_task_desc. cbv zeta.
  set (seq' := if _ >=? _ then 0 else _).
  set (task1 := set_fence_counter 0 _).
  destruct (nvdla_fill_preactions e task1 m) as [[err1 task2] m1] eqn:E1.
  destruct (Z.eqb_spec err1 0) as [->|Hne]; cbn [negb fst snd]; [|done].
  destruct (nvdla_fill_postactions e task2 m1) as [[err2 task3] m2] eqn:E2.
  destruct (Z.eqb_spec err2 0) as [->|Hne]; cbn [negb fst snd]; [|done].
  destruct (nvdla_map_task_memory e task3 m2) as [[err3 task4] m3] eqn:E3.
  destruct (Z.eqb_spec err3 0) as [->|Hne]; cbn [negb fst snd]; [|done].
  intros _. exists task1, task2, task3, m1, m2.
  split_and!; try done.
Qed.

Lemma within_limits_same (e : env) (t t' : nvdla_task) :
  same_items t t' -> within_limits e t' -> within_limits e t.
Proof.
  intros (H1 & H2 & H3 & H4 & H5 & H6 & H7 & H8). unfold within_limits.
  cbv zeta. by rewrite H2, H3, H4, H5, H6, H7, H8.
Qed.

(** X16: In a descriptor that [nvdla_fill_task_desc] has built, each of the
    two list headers gives the offset of its region (the pre-action
    region right behind the headers, the post-action region behind the
    largest pre-action list) and the number of bytes written to it, and
    that number is within what [nvdla_get_max_preaction_size] and
    [nvdla_get_max_postaction_size] reserve: provided the task keeps the
    per-task maxima and no sync fd it waits on holds more than one
    syncpoint. *)
Theorem fill_task_desc_lists_fit (e : env) (task : nvdla_task)
  (bypass_exec : bool) (sequence : Z) (m : gmap Z nat) :
  action_sizes_ok (abi e) ->
  within_limits e task ->
  single_point_waits e task ->
  (nvdla_fill_task_desc e task bypass_exec sequence m).1.1.1 = 0 ->
  let d :=
    task_desc (nvdla_fill_task_desc e task bypass_exec sequence m).1.1.2 in
  let lists :=
    sizeof_task_descriptor (abi e) + sizeof_action_list (abi e) +
    sizeof_action_list (abi e) in
  preactionl d =
    Some (ActionList (u16 lists) (region_size e (preaction_mem d))) /\
  postactionl d =
    Some (ActionList (u16 (lists + nvdla_get_max_preaction_size e))
            (region_size e (postaction_mem d))) /\
  region_size e (preaction_mem d) <= nvdla_get_max_preaction_size e /\
  region_size e (postaction_mem d) <= nvdla_get_max_postaction_size e.
Proof.
  intros Hsizes Hlim Hsingle Hok. cbv zeta.
  destruct (fill_task_desc_stages e task bypass_exec sequence m Hok)
    as (task1 & task2 & task3 & m1 & m2 & I0 & Hfc & Hpo & Hpa & E1 & E2
        & E3).
  assert (Hc1 : 0 <= fence_counter task1 < 2 ^ 32) by (rewrite Hfc; lia).
  pose proof (fill_preactions_spec e task1 m Hc1) as P1.
  pose proof (fill_preactions_frame e task1 m) as F1.
  assert (Hlim1 : within_limits e task1) by (by apply (within_limits_same e _ task)).
  assert (Hsingle1 : single_point_waits e task1).
  { intros f pts Hin. apply Hsingle.
    destruct I0 as (_ & Hpre & _). by rewrite <- Hpre. }
  pose proof (fill_preactions_size e Hsizes task1 m Hlim1 Hsingle1) as Z1.
  cbv zeta in P1, F1. rewrite E1 in P1, F1, Z1. cbn [fst snd] in P1, F1, Z1.
  destruct (preactions_rejected e task1).
  { unfold EINVAL in P1. lia. }
  destruct P1 as (_ & Hk1 & Hl1). destruct F1 as (I1 & D1 & _).
  assert (Hc2 : 0 <= fence_counter task2 < 2 ^ 32)
    by (rewrite Hk1; apply u32_range).
  pose proof (fill_postactions_spec e task2 m1 Hc2) as P2.
  pose proof (fill_postactions_frame e task2 m1) as F2.
  pose proof (same_items_trans _ _ _ I1 I0) as J2.
  assert (Hlim2 : within_limits e task2) by (by apply (within_limits_same e _ task)).
  pose proof (fill_postactions_size e Hsizes task2 m1 Hlim2) as Z2.
  cbv zeta in P2, F2. rewrite E2 in P2, F2, Z2. cbn [fst snd] in P2, F2, Z2.
  destruct (postactions_rejected e task2).
  { unfold EINVAL in P2. lia. }
  destruct P2 as (_ & _ & Hl2). destruct F2 as (_ & _ & _ & M2 & L2).
  pose proof (map_task_memory_frame e task3 m2) as F3.
  cbv zeta in F3. rewrite E3 in F3. cbn [fst snd] in F3.
  destruct F3 as (_ & _ & _ & _ & M3 & L3 & M3' & L3').
  assert (Hpo2 : td_postactions (task_desc task2) =
            sizeof_task_descriptor (abi e) + sizeof_action_list (abi e)).
  { destruct D1 as (_ & _ & _ & _ & _ & -> & _). done. }
  rewrite L3, M3, L3', M3', L2, M2, Hl1, Hl2, Hpo, Hpo2.
  split_and!; try done.
Qed.

Lemma fill_task_desc_lists_fit_witness :
  let d := task_desc (nvdla_fill_task_desc env0 task_buffers false 0 ∅).1.1.2 in
  preactionl d = Some (ActionList 80 (region_size env0 (preaction_mem d))) /\
  postactionl d =
    Some (ActionList (80 + nvdla_get_max_preaction_size env0)
            (region_size env0 (postaction_mem d))) /\
  region_size env0 (preaction_mem d) <= nvdla_get_max_preaction_size env0 /\
  region_size env0 (postaction_mem d) <= nvdla_get_max_postaction_size env0.
Proof.
  apply (fill_task_desc_lists_fit env0 task_buffers false 0 ∅).
  - vm_compute. repeat split; discriminate.
  - vm_compute. repeat split; discriminate.
  - intros f pts Hin Hget. apply list_elem_of_singleton in Hin. subst f.
    vm_compute in Hget. discriminate.
  - reflexivity.
Defined.

(** ** Releasing a built task *)

(** X17: Whatever the outcome of [nvdla_fill_task_desc], once
    [nvdla_unmap_task_memory] has run on the task it leaves (as
    [nvdla_task_free_locked] does for a task that was built and
    submitted), no handle holds more pins than before the construction:
    every pin a construction takes is one the unmap of the same task
    gives back. *)
Theorem fill_then_unmap_releases_pins (e : env) (task : nvdla_task)
  (bypass_exec : bool) (sequence : Z) (m : gmap Z nat) (h : Z) :
  buffer_lookup e 0 = None ->
  let r := nvdla_fill_task_desc e task bypass_exec sequence m in
  (pin_count (nvdla_unmap_task_memory r.1.1.2 r.2) h <= pin_count m h)%nat.
Proof.
  intros Hnull. cbv zeta. unfold nvdla_fill_task_desc. cbv zeta.
  set (task1 := set_fence_counter 0 _).
  assert (Hs1 : same_items task1 task) by (by repeat split).
  pose proof (wait_signal_unpins h (prefences task)) as Hws.
  destruct (fill_preactions_pins e h (or_intror Hnull) task1 m) as [Hp1 Hs2].
  destruct (nvdla_fill_preactions e task1 m) as [[err1 task2] m1].
  cbn [fst snd] in Hp1, Hs2.
  pose proof (same_items_trans _ _ _ Hs2 Hs1) as Hs2'.
  destruct Hs1 as (_ & E1 & E2 & _ & E3 & _ & E4 & _).
  rewrite E1, E2, E3, E4 in Hp1.
  destruct (negb (err1 =? 0)%Z); cbn [fst snd bufs].
  { rewrite !(pin_count_unmap h), (task_unpins_same h _ _ Hs2').
    unfold task_unpins. lia. }
  destruct (fill_postactions_pins e h (or_intror Hnull) task2 m1) as [Hp2 Hs3].
  destruct (nvdla_fill_postactions e task2 m1) as [[err2 task3] m2].
  cbn [fst snd] in Hp2, Hs3.
  pose proof (same_items_trans _ _ _ Hs3 Hs2') as Hs3'.
  destruct Hs2' as (_ & _ & _ & E5 & _ & E6 & _ & E7).
  rewrite E5, E6, E7 in Hp2.
  destruct (negb (err2 =? 0)%Z); cbn [fst snd bufs].
  { rewrite !(pin_count_unmap h), (task_unpins_same h _ _ Hs3').
    unfold task_unpins. lia. }
  destruct (map_task_memory_pins e h (or_intror Hnull) task3 m2) as [Hp3 Hs4].
  destruct (nvdla_map_task_memory e task3 m2) as [[err3 task4] m3].
  cbn [fst snd] in Hp3, Hs4.
  pose proof (same_items_trans _ _ _ Hs4 Hs3') as Hs4'.
  destruct Hs3' as (E8 & _). rewrite E8 in Hp3.
  destruct (negb (err3 =? 0)%Z); cbn [fst snd bufs];
    rewrite !(pin_count_unmap h), (task_unpins_same h _ _ Hs4');
    unfold task_unpins; lia.
Qed.

Lemma fill_then_unmap_witness :
  let r := nvdla_fill_task_desc env0 task_buffers false 0 ∅ in
  (pin_count r.2 3 = 1 /\
   pin_count (nvdla_unmap_task_memory r.1.1.2 r.2) 3 <= pin_count ∅ 3)%nat.
Proof.
  split; [reflexivity|].
  apply (fill_then_unmap_releases_pins env0 task_buffers false 0 ∅ 3).
  reflexivity.
Defined.

(** ** What the emulator refuses *)

Lemma count_signal_fences_invalid (fences : list nvdev_fence) :
  forall c : Z,
    (count_signal_fences fences c).1 = existsb is_signal_other fences.
Proof.
  induction fences as [|f rest IH]; intros c; [done|].
  cbn [count_signal_fences existsb]. unfold is_signal_other at 1.
  destruct (bool_decide (action f = NVDEV_FENCE_SIGNAL)); cbn [negb andb orb].
  - destruct (is_syncpt_type f); cbn [negb orb]; [apply IH|done].
  - apply IH.
Qed.

(** X18: [nvdla_emulator_submit] returns [-EINVAL] exactly when one of the
    task's fences has action signal and a type other than syncpoint or
    sync fd, and 0 otherwise.  When it refuses a task it has reserved
    nothing on the counter and has written to no fence. *)
Theorem emulator_submit_rejects (e : env) (maxval : Z)
  (task : nvdla_emu_task) :
  let r := nvdla_emulator_submit e maxval task in
  (r.1.1 = - EINVAL <->
   existsb is_signal_other (emu_prefences task ++ emu_postfences task)
     = true) /\
  (r.1.1 = 0 \/ r.1.1 = - EINVAL) /\
  (r.1.1 = - EINVAL ->
   r.2 = maxval /\
   emu_prefences r.1.2 = emu_prefences task /\
   emu_postfences r.1.2 = emu_postfences task /\
   emu_fence r.1.2 = emu_fence task).
Proof.
  cbv zeta. unfold nvdla_emulator_submit. rewrite existsb_app.
  pose proof (count_signal_fences_invalid (emu_prefences task) 0) as H1.
  destruct (count_signal_fences (emu_prefences task) 0) as [bad1 fc1].
  cbn [fst] in H1. rewrite <- H1.
  destruct bad1; cbn [orb fst snd].
  { split_and!; [done|by right|done]. }
  pose proof (count_signal_fences_invalid (emu_postfences task) fc1) as H2.
  destruct (count_signal_fences (emu_postfences task) fc1) as [bad2 fc2].
  cbn [fst] in H2. rewrite <- H2.
  destruct bad2; cbn [orb fst snd].
  { split_and!; [done|by right|done]. }
  destruct (update_signal_fences _ _ (emu_prefences task) _) as [pre c1].
  destruct (update_signal_fences _ _ (emu_postfences task) _) as [post c2].
  cbn [fst snd]. unfold EINVAL.
  split_and!; [split; [lia|discriminate]|by left|lia].
Qed.

Lemma emulator_submit_rejects_witness :
  let r := nvdla_emulator_submit env0 10 emu_task_semaphore in
  r.1.1 = - EINVAL /\ r.2 = 10.
Proof.
  cbv zeta.
  destruct (emulator_submit_rejects env0 10 emu_task_semaphore)
    as (Hiff & _ & Hkeep).
  assert (Hr : (nvdla_emulator_submit env0 10 emu_task_semaphore).1.1
               = - EINVAL) by (apply Hiff; reflexivity).
  split; [exact Hr|]. by destruct (Hkeep Hr).
Defined.

(** ** Where the completion status is written *)

Lemma roundup_lt (x y : Z) : 0 < y -> roundup x y < x + y.
Proof.
  intros Hy. unfold roundup.
  pose proof (Z.div_mod (x + (y - 1)) y ltac:(lia)) as Hdm.
  pose proof (Z.mod_pos_bound (x + (y - 1)) y Hy) as Hb.
  rewrite (Z.mul_comm _ y). lia.
Qed.

Lemma roundup_fixed (x y : Z) : 0 < y -> x mod y = 0 -> roundup x y = x.
Proof.
  intros Hy Hx. pose proof (roundup_ge x y Hy).
  pose proof (roundup_least x y x Hy ltac:(lia) Hx). lia.
Qed.

Lemma fill_postactions_layout (e : env) (task : nvdla_task)
  (m : gmap Z nat) :
  (nvdla_fill_postactions e task m).1.1 = 0 ->
  postaction_mem (task_desc (nvdla_fill_postactions e task m).1.2) =
    postaction_records e task.
Proof.
  unfold nvdla_fill_postactions, postaction_records. cbv zeta.
  match goal with
  | |- context [and_then ?a ?b 0 ?c] =>
      pose proof
        (and_then_appends _ _ _ _
           (for_each_appends _ _ (eof_timestamps task)
              (timestamp_appends e))
           (and_then_appends _ _ _ _
              (for_each_appends _ _ (eof_task_status task)
                 (status_write_appends e))
              (for_each_appends _ _ (postfences task)
                 (signal_fence_appends e))) c) as Hloops;
      destruct (and_then a b 0 c) as [[failed err] c1]
  end.
  cbn [fst snd] in Hloops.
  destruct Hloops as [[-> Hneg]|(-> & -> & Hnext)]; cbn [fst snd].
  - lia.
  - intros _. cbn [task_desc set_task_desc postaction_mem set_postactions].
    unfold add_opcode, add_status_action in *. rewrite Hnext.
    cbn [mem_next app]. by rewrite <- !app_assoc.
Qed.

(** X19: The address list and the completion status of a built descriptor.
    [nvdla_map_task_memory] puts the address list at a multiple of 256
    behind the two action regions; the first post-action writes the
    completion status at [nvdla_profile_status_offset], which rounds the
    same sum up to 8 only.  With one action list of each kind and room
    for the largest address list of at least 256 bytes plus a list
    header, the status word lies behind the start of the address list
    and no further than the end of the largest address list; it lies
    before that end when a list header takes 8 bytes or more. *)
Theorem status_word_in_address_region (e : env) (task : nvdla_task)
  (bypass_exec : bool) (sequence : Z) (m : gmap Z nat) :
  let a := abi e in
  let room := MAX_NUM_NVDLA_BUFFERS_PER_TASK a * sizeof_mem_addr a in
  MAX_NUM_ACTION_LIST a = 1 ->
  0 <= sizeof_action_list a ->
  room mod 8 = 0 ->
  256 + sizeof_action_list a <= room ->
  (nvdla_fill_task_desc e task bypass_exec sequence m).1.1.1 = 0 ->
  let d :=
    task_desc (nvdla_fill_task_desc e task bypass_exec sequence m).1.1.2 in
  head (postaction_mem d) =
    Some (action_task_status ACTION_WRITE_TASK_STATUS
            (u64 (task_desc_pa task + nvdla_profile_status_offset e))
            (u16 0)) /\
  td_address_list d = u64 (task_desc_pa task + address_list_offset e) /\
  address_list_offset e mod 256 = 0 /\
  address_list_offset e < nvdla_profile_status_offset e /\
  nvdla_profile_status_offset e <= address_list_offset e + room /\
  (8 <= sizeof_action_list a ->
   nvdla_profile_status_offset e < address_list_offset e + room).
Proof.
  cbv zeta. intros HM HL Hroom8 Hroom Hok.
  split_and!.
  - destruct (fill_task_desc_stages e task bypass_exec sequence m Hok)
      as (task1 & task2 & task3 & m1 & m2 & I0 & Hfc & Hpo & Hpa & E1 & E2
        & E3).
    pose proof (fill_preactions_frame e task1 m) as F1.
    pose proof (fill_postactions_layout e task2 m1) as P2.
    pose proof (map_task_memory_frame e task3 m2) as F3.
    cbv zeta in F1, F3. rewrite E1 in F1. rewrite E2 in P2. rewrite E3 in F3.
    cbn [fst snd] in F1, P2, F3.
    destruct F3 as (_ & _ & _ & _ & _ & _ & -> & _).
    rewrite (P2 eq_refl). destruct F1 as (_ & _ & Hpa2).
    unfold postaction_records. cbn [app head]. by rewrite Hpa2, Hpa.
  - pose proof (fill_task_desc_spec e task bypass_exec sequence m) as Hspec.
    cbv zeta in Hspec. destruct (task_rejected e task).
    + rewrite Hok in Hspec. unfold EFAULT, EINVAL in Hspec.
      destruct Hspec as [?|[? _]]; lia.
    + by destruct Hspec as (_ & _ & Ha & _).
  - apply roundup_multiple. lia.
  - unfold address_list_offset, nvdla_profile_status_offset. cbv zeta.
    rewrite HM.
    set (X := sizeof_task_descriptor (abi e) +
              2 * 1 * sizeof_action_list (abi e) +
              nvdla_get_max_preaction_size e +
              nvdla_get_max_postaction_size e).
    replace (sizeof_task_descriptor (abi e) + sizeof_action_list (abi e) +
             sizeof_action_list (abi e) + nvdla_get_max_preaction_size e +
             sizeof_action_list (abi e) + nvdla_get_max_postaction_size e)
      with (X + sizeof_action_list (abi e)) by (unfold X; lia).
    pose proof (roundup_lt (X + sizeof_action_list (abi e)) 256 ltac:(lia)).
    pose proof (roundup_ge X 8 ltac:(lia)).
    pose proof (roundup_ge
                  (roundup X 8 +
                   MAX_NUM_NVDLA_BUFFERS_PER_TASK (abi e) *
                   sizeof_mem_addr (abi e)) 8 ltac:(lia)).
    lia.
  - unfold address_list_offset, nvdla_profile_status_offset. cbv zeta.
    rewrite HM.
    set (X := sizeof_task_descriptor (abi e) +
              2 * 1 * sizeof_action_list (abi e) +
              nvdla_get_max_preaction_size e +
              nvdla_get_max_postaction_size e).
    replace (sizeof_task_descriptor (abi e) + sizeof_action_list (abi e) +
             sizeof_action_list (abi e) + nvdla_get_max_preaction_size e +
             sizeof_action_list (abi e) + nvdla_get_max_postaction_size e)
      with (X + sizeof_action_list (abi e)) by (unfold X; lia).
    set (A := roundup (X + sizeof_action_list (abi e)) 256).
    set (room := MAX_NUM_NVDLA_BUFFERS_PER_TASK (abi e) *
                 sizeof_mem_addr (abi e)) in *.
    assert (HA : A mod 256 = 0) by (apply roundup_multiple; lia).
    pose proof (roundup_ge (X + sizeof_action_list (abi e)) 256 ltac:(lia))
      as HgeA. fold A in HgeA.
    assert (H8 : roundup X 8 <= A).
    { apply roundup_least; [lia|lia|by apply multiple_256_8]. }
    assert (Hsum : (roundup X 8 + room) mod 8 = 0).
    { pose proof (roundup_multiple X 8 ltac:(lia)).
      rewrite Z.add_mod, H, Hroom8 by lia. done. }
    rewrite (roundup_fixed _ 8 ltac:(lia) Hsum). lia.
  - intros HL8.
    unfold address_list_offset, nvdla_profile_status_offset. cbv zeta.
    rewrite HM.
    set (X := sizeof_task_descriptor (abi e) +
              2 * 1 * sizeof_action_list (abi e) +
              nvdla_get_max_preaction_size e +
              nvdla_get_max_postaction_size e).
    replace (sizeof_task_descriptor (abi e) + sizeof_action_list (abi e) +
             sizeof_action_list (abi e) + nvdla_get_max_preaction_size e +
             sizeof_action_list (abi e) + nvdla_get_max_postaction_size e)
      with (X + sizeof_action_list (abi e)) by (unfold X; lia).
    set (room := MAX_NUM_NVDLA_BUFFERS_PER_TASK (abi e) *
                 sizeof_mem_addr (abi e)) in *.
    pose proof (roundup_ge (X + sizeof_action_list (abi e)) 256 ltac:(lia)).
    pose proof (roundup_lt X 8 ltac:(lia)).
    assert (Hsum : (roundup X 8 + room) mod 8 = 0).
    { pose proof (roundup_multiple X 8 ltac:(lia)) as H8.
      rewrite Z.add_mod, H8, Hroom8 by lia. done. }
    rewrite (roundup_fixed _ 8 ltac:(lia) Hsum). lia.
Qed.

Lemma status_word_witness :
  let d := task_desc (nvdla_fill_task_desc env0 task_buffers false 0 ∅).1.1.2 in
  head (postaction_mem d) =
    Some (action_task_status ACTION_WRITE_TASK_STATUS 8704 0) /\
  td_address_list d = 6912 /\
  address_list_offset env0 = 2816 /\
  nvdla_profile_status_offset env0 = 4608.
Proof.
  cbv zeta.
  destruct (status_word_in_address_region env0 task_buffers false 0 ∅)
    as (H1 & H2 & _).
  - reflexivity.
  - cbn. lia.
  - reflexivity.
  - cbn. lia.
  - reflexivity.
  - split_and!; [exact H1|exact H2|reflexivity|reflexivity].
Defined.

(** ** Task references *)

(** X20: A reference taken with [nvdla_task_get] and given back with
    [nvdla_task_put] leaves the state as it was, for a task somebody
    holds; and the put that drops the last reference of a task hands its
    memory back, once, while the queue reference goes down all the
    same. *)
Theorem task_get_put_round_trip (task : Z) (s : state) (t : nvdla_task) :
  heap s !! task = Some t ->
  ((0 < ref t)%nat -> nvdla_task_put task (nvdla_task_get task s) = s) /\
  ((ref t <= 1)%nat ->
   heap (nvdla_task_put task s) !! task = None /\
   log (nvdla_task_put task s) = log s ++ [ev_task_free task] /\
   queue_refs (nvdla_task_put task s) = queue_refs s - 1).
Proof.
  intros Ht. split.
  - intros Href. unfold nvdla_task_get, nvdla_task_put. cbv zeta.
    cbn [heap set_heap set_queue_refs]. rewrite lookup_alter_eq, Ht.
    cbn [fmap option_fmap option_map ref set_ref].
    destruct (ref t) as [|n] eqn:Hn; [lia|].
    destruct s as [reg mn mx pw qr tl hp lg]. cbn in *.
    unfold set_queue_refs, set_heap. cbn. f_equal; [lia|].
    apply map_eq. intros k. destruct (decide (k = task)) as [->|Hne].
    + rewrite lookup_insert_eq, Ht. f_equal.
      rewrite <- Hn. destruct t. cbn in *. by subst.
    + by rewrite lookup_insert_ne, lookup_alter_ne.
  - intros Href. unfold nvdla_task_put. cbv zeta. rewrite Ht.
    destruct (ref t) as [|[|n]]; [| |lia];
      cbn; by rewrite lookup_delete_eq.
Qed.

Lemma task_get_put_witness :
  nvdla_task_put 100 (nvdla_task_get 100 state1) = state1.
Proof.
  apply (proj1 (task_get_put_round_trip 100 state1 (mk_task 4096) eq_refl)).
  cbn. lia.
Defined.

(** ** The life of a task *)

Lemma submit_enqueue_frame (e : env) (task : Z) (s : state) :
  tasklist s = [] ->
  registry (submit_enqueue e task s) = registry s /\
  (forall q : Z, q ≠ task ->
     heap (submit_enqueue e task s) !! q = heap s !! q).
Proof.
  intros Hl. unfold submit_enqueue.
  destruct (decide (submit_mode e = NVDLA_SUBMIT_MODE_MMIO)); cbn;
    rewrite Hl; cbn; (split; [done|]); intros q Hq;
    by rewrite !lookup_alter_ne.
Qed.

(** The state an MMIO submission leaves when nothing fails, in terms of
    the state at [list_add_tail]. *)
Lemma submit_mmio_state (e : env) (task : Z) (s : state) :
  submit_mode e = NVDLA_SUBMIT_MODE_MMIO ->
  nvhost_module_busy_ret e = 0 ->
  nvhost_intr_register_notifier_ret e = 0 ->
  nvdla_send_cmd_ret e 0 = 0 ->
  let s1 := submit_enqueue e task s in
  let s2 := emit ev_module_busy (set_power_refs (power_refs s1 + 1) s1) in
  (nvdla_queue_submit_op e task s).2 =
    emit (ev_send_cmd (DLA_CMD_SUBMIT_TASK (task_desc_pa (task_at s1 task))))
      (emit (ev_register_notifier (fence (task_at s2 task))) s2).
Proof.
  intros Hmode Hbusy Hreg Hsend. cbv zeta.
  rewrite submit_op_unfold. cbv zeta.
  generalize (submit_enqueue e task s). intros s1.
  unfold nvhost_module_busy, nvhost_intr_register_notifier, nvdla_send_cmd.
  rewrite Hbusy, Hmode. reduce_branch.
  rewrite decide_False by done. reduce_branch.
  rewrite Hreg. reduce_branch. rewrite decide_True by done. reduce_branch.
  rewrite Hsend. reduce_branch. done.
Qed.

(** One pass of the notifier over a queue that holds one task, complete
    and held by somebody else as well. *)
Lemma queue_update_single (task : Z) (s : state) (t : nvdla_task) (n : nat) :
  tasklist s = [task] ->
  heap s !! task = Some t ->
  syncpt_min s = fence t ->
  ref t = S (S n) ->
  tasklist (nvdla_queue_update s) = [] /\
  power_refs (nvdla_queue_update s) = power_refs s - 1 /\
  queue_refs (nvdla_queue_update s) = queue_refs s - 1 /\
  heap (nvdla_queue_update s) = <[task := set_ref (S n) t]> (heap s) /\
  registry (nvdla_queue_update s) =
    nvdla_unmap_task_memory t (registry s) /\
  log (nvdla_queue_update s) =
    log s ++ [ev_task_completed task; ev_module_idle_mult 1].
Proof.
  intros Hl Ht Hmin Href. unfold nvdla_queue_update. rewrite Hl.
  cbn [queue_update_scan]. rewrite Ht.
  unfold nvhost_syncpt_is_expired_ext. rewrite Hmin, (Z.sub_diag (fence t)).
  change (0 <=? s32 0) with true. cbn iota.
  unfold nvdla_task_free_locked. cbn. rewrite Ht. cbn.
  unfold nvdla_task_put. cbn. rewrite Ht, Href. cbn. rewrite Hl.
  unfold list_del. rewrite filter_cons, decide_False by (intros H; by apply H).
  rewrite filter_nil, <- app_assoc. split_and!; try done; lia.
Qed.

(** X21: A task submitted to an empty queue in MMIO mode, completed by the
    engine (the counter reaches the task's target) and reclaimed by
    [nvdla_queue_update]: the queue is empty again, the power and queue
    reference counts are what they were before the submission, the task
    is still there with the reference count its submitter holds and its
    target recorded, its buffers have been unmapped once, and its memory
    has not been freed: between them the two functions made six calls
    into the collaborators, none of them a free. *)
Theorem submit_complete_update_round_trip (e : env) (task : Z) (s : state)
  (t : nvdla_task) :
  submit_mode e = NVDLA_SUBMIT_MODE_MMIO ->
  nvhost_module_busy_ret e = 0 ->
  nvhost_intr_register_notifier_ret e = 0 ->
  nvdla_send_cmd_ret e 0 = 0 ->
  tasklist s = [] ->
  heap s !! task = Some t ->
  (0 < ref t)%nat ->
  let target := u32 (syncpt_max s + fence_counter t) in
  let s1 := (nvdla_queue_submit_op e task s).2 in
  let s3 := nvdla_queue_update (set_syncpt_min target s1) in
  tasklist s1 = [task] /\
  tasklist s3 = [] /\
  power_refs s3 = power_refs s /\
  queue_refs s3 = queue_refs s /\
  heap s3 = <[task := set_fence target t]> (heap s) /\
  registry s3 = nvdla_unmap_task_memory t (registry s) /\
  log s3 =
    log s ++
    [ev_syncpt_incr_max (fence_counter t); ev_module_busy;
     ev_register_notifier target;
     ev_send_cmd (DLA_CMD_SUBMIT_TASK (task_desc_pa t));
     ev_task_completed task; ev_module_idle_mult 1].
Proof.
  intros Hmode Hbusy Hreg Hsend Hl Ht Href. cbv zeta.
  set (target := u32 (syncpt_max s + fence_counter t)).
  assert (Hfresh : task ∉ tasklist s) by (rewrite Hl; apply not_elem_of_nil).
  rewrite (submit_mmio_state e task s Hmode Hbusy Hreg Hsend).
  destruct (submit_enqueue_mmio e task s t Hmode Hfresh Ht)
    as (Hheap & Hmax & Hmin & Hlog).
  destruct (submit_enqueue_frame e task s Hl) as [Hregis Hothers].
  pose proof (submit_enqueue_tasklist e task s) as Htl.
  pose proof (submit_enqueue_power e task s) as Hpw.
  pose proof (submit_enqueue_queue_refs e task s) as Hqr.
  fold target in Hheap, Hmax.
  assert (Hmap : heap (submit_enqueue e task s) =
            <[task := set_fence target (set_ref (S (ref t)) t)]> (heap s)).
  { apply map_eq. intros k. destruct (decide (k = task)) as [->|Hne].
    - by rewrite lookup_insert_eq.
    - rewrite lookup_insert_ne by done. by apply Hothers. }
  generalize dependent (submit_enqueue e task s).
  intros s1 Hheap Hmax Hmin Hlog Hregis Hothers Htl Hpw Hqr Hmap.
  rewrite Hl in Htl. cbn [app] in Htl.
  destruct (ref t) as [|n] eqn:Hn; [lia|].
  match goal with
  | |- context [nvdla_queue_update ?s2] =>
      destruct (queue_update_single task s2
                  (set_fence target (set_ref (S (S n)) t)) n)
        as (U1 & U2 & U3 & U4 & U5 & U6)
  end.
  { cbn. done. }
  { cbn. done. }
  { cbn. done. }
  { cbn. done. }
  rewrite U1, U2, U3, U4, U5, U6. cbn.
  unfold task_at. cbn. rewrite !Hheap. cbn.
  rewrite Hmap, Hregis, Hlog, Hpw, Hqr.
  rewrite insert_insert_eq, <- !app_assoc. cbn [app].
  split_and!; try done; try lia.
  f_equal. destruct t. cbn in *. by subst.
Qed.

Lemma submit_complete_update_witness :
  let s1 := (nvdla_queue_submit_op env0 100 state1).2 in
  let s3 := nvdla_queue_update (set_syncpt_min 1 s1) in
  tasklist s1 = [100] /\
  tasklist s3 = [] /\
  power_refs s3 = 0 /\
  queue_refs s3 = 0 /\
  heap s3 = <[100 := set_fence 1 (mk_task 4096)]> heap1 /\
  registry s3 = ∅ /\
  log s3 =
    [ev_syncpt_incr_max 1; ev_module_busy; ev_register_notifier 1;
     ev_send_cmd (DLA_CMD_SUBMIT_TASK 4096);
     ev_task_completed 100; ev_module_idle_mult 1].
Proof.
  apply (submit_complete_update_round_trip env0 100 state1 (mk_task 4096));
    try reflexivity.
  cbn. lia.
Defined.

(** * The abort of a running queue *)









(** * The unwind of a failed construction *)

Section Unwind.

Variable e : env.
Variable h : Z.
















End Unwind.

Section Refs.

Variable e : env.












End Refs.









(** The pin the failed construction of [task_second_status_bad] took on
    buffer 3 is released by the unwind; the reference on the fence of
    sync fd 7 is not. *)
Example failed_construction_releases_pin :
  let r := nvdla_fill_task_desc env0 task_second_status_bad false 0 ∅ in
  pin_count (nvdla_fill_preactions env0 task_second_status_bad ∅).2 3
    = 1%nat /\
  r.1.1.1 = - EINVAL /\
  pin_count r.2 3 = 0%nat /\
  fence_refs r.2 = [7] /\
  preactionl (task_desc r.1.1.2) = None.
Proof. cbv zeta. split_and!; reflexivity. Qed.


(** * The action lists of a built descriptor *)

(** ** The records of the code are those of the specification *)

Lemma spec_segment_records {A : Type} (resolve : A -> option (list dla_action))
  (records : A -> list dla_action) (items : list A) :
  (forall x o, resolve x = Some o -> records x = o) ->
  forall out, spec_segment resolve items = Some out ->
  concat (map records items) = out.
Proof.
  intros Hres. induction items as [|x rest IH]; intros out Hout.
  - cbn in Hout. by injection Hout as <-.
  - cbn [spec_segment] in Hout.
    destruct (resolve x) as [o|] eqn:Hx; [|done].
    destruct (spec_segment resolve rest) as [more|]; [|done].
    injection Hout as <-. cbn. by rewrite (Hres x o Hx), (IH more).
Qed.

Lemma spec_wait_records (e : env) (f : nvdev_fence) (o : list dla_action) :
  spec_wait_actions e f = Some o -> wait_fence_records e f = o.
Proof.
  unfold spec_wait_actions, wait_fence_records.
  destruct (type f); repeat case_match; congruence.
Qed.

Lemma spec_signal_records (e : env) (f : nvdev_fence) (o : list dla_action) :
  spec_signal_actions e f = Some o -> signal_fence_records e f = o.
Proof.
  unfold spec_signal_actions, signal_fence_records.
  destruct (type f); repeat case_match; congruence.
Qed.

Lemma spec_status_records (e : env) (op : opcode) (st : nvdla_status_notify)
  (o : list dla_action) :
  spec_status_actions e op st = Some o -> status_records e op st = o.
Proof.
  unfold spec_status_actions, status_records. case_match; congruence.
Qed.

Lemma spec_timestamp_records (e : env) (ts : nvdla_mem_handle)
  (o : list dla_action) :
  spec_timestamp_actions e ts = Some o -> timestamp_records e ts = o.
Proof.
  unfold spec_timestamp_actions, timestamp_records. case_match; congruence.
Qed.

Lemma spec_preactions_records (e : env) (task : nvdla_task)
  (pre : list dla_action) :
  spec_preactions e task = Some pre -> preaction_records e task = pre.
Proof.
  unfold spec_preactions, preaction_records.
  destruct (forallb known_action (prefences task)); [|done].
  destruct (spec_segment (spec_wait_actions e) _) as [w|] eqn:Hw; [|done].
  destruct (spec_segment (spec_status_actions e ACTION_TASK_STATUS_EQ) _)
    as [c|] eqn:Hc; [|done].
  destruct (spec_segment (spec_status_actions e ACTION_WRITE_TASK_STATUS) _)
    as [s|] eqn:Hs; [|done].
  destruct (spec_segment (spec_timestamp_actions e) _) as [t|] eqn:Ht;
    [|done].
  destruct (spec_segment (spec_signal_actions e) _) as [g|] eqn:Hg; [|done].
  intros [= <-].
  rewrite (spec_segment_records _ _ _ (spec_wait_records e) w Hw),
    (spec_segment_records _ _ _ (spec_status_records e _) c Hc),
    (spec_segment_records _ _ _ (spec_status_records e _) s Hs),
    (spec_segment_records _ _ _ (spec_timestamp_records e) t Ht),
    (spec_segment_records _ _ _ (spec_signal_records e) g Hg).
  done.
Qed.

Lemma spec_postactions_records (e : env) (task : nvdla_task)
  (post : list dla_action) :
  spec_postactions e task = Some post -> postaction_records e task = post.
Proof.
  unfold spec_postactions, postaction_records.
  destruct (forallb is_signal (postfences task)); [|done].
  destruct (spec_segment (spec_timestamp_actions e) _) as [t|] eqn:Ht;
    [|done].
  destruct (spec_segment (spec_status_actions e ACTION_WRITE_TASK_STATUS) _)
    as [s|] eqn:Hs; [|done].
  destruct (spec_segment (spec_signal_actions e) _) as [g|] eqn:Hg; [|done].
  intros [= <-].
  rewrite (spec_segment_records _ _ _ (spec_timestamp_records e) t Ht),
    (spec_segment_records _ _ _ (spec_status_records e _) s Hs),
    (spec_segment_records _ _ _ (spec_signal_records e) g Hg).
  done.
Qed.

(** ** Loads from the task memory *)

Section Image.

Variable e : env.
Hypothesis sizes : layout_ok e.

Lemma layout_sizes_ok : action_sizes_ok (abi e).
Proof.
  destruct sizes as (_ & _ & H3 & H4 & H5 & H6 & _ & H8 & _).
  unfold action_sizes_ok. lia.
Qed.

Lemma action_size_pos (a : dla_action) : 0 < action_size e a.
Proof.
  destruct sizes as (_ & _ & H3 & H4 & H5 & H6 & _).
  unfold action_size. destruct a; lia.
Qed.

Lemma region_size_cons (a : dla_action) (l : list dla_action) :
  region_size e (a :: l) = action_size e a + region_size e l.
Proof. reflexivity. Qed.

Lemma load_from_app (s1 s2 : list (Z * dla_cell)) (o : Z) :
  forall cur,
    load_from e (s1 ++ s2) o cur = load_from e s2 o (load_from e s1 o cur).
Proof.
  induction s1 as [|[o' c'] s1 IH]; intros cur; [done|].
  cbn [app load_from]. apply IH.
Qed.

(** A cell stays as stored when every later store leaves its bytes
    alone. *)
Lemma load_from_kept (s2 : list (Z * dla_cell)) (o : Z) (c : dla_cell) :
  0 < cell_size e c ->
  Forall (store_outside e o (o + cell_size e c)) s2 ->
  load_from e s2 o (Some c) = Some c.
Proof.
  intros Hc. induction s2 as [|[o' c'] s2 IH]; intros Hout; [done|].
  apply Forall_cons in Hout as [Hst Hrest]. cbn [load_from].
  unfold store_outside in Hst. cbn [fst snd] in Hst.
  destruct (Z.eqb_spec o' o) as [->|Hne]; [lia|].
  replace (overlaps o (cell_size e c) o' (cell_size e c')) with false.
  - by apply IH.
  - unfold overlaps. symmetry. apply andb_false_iff.
    destruct Hst as [[_ Hlo]|Hhi]; [left|right]; apply Z.ltb_ge; lia.
Qed.

Lemma load_stored (s1 s2 : list (Z * dla_cell)) (o : Z) (c : dla_cell) :
  0 < cell_size e c ->
  Forall (store_outside e o (o + cell_size e c)) s2 ->
  load e (s1 ++ (o, c) :: s2) o = Some c.
Proof.
  intros Hc Hout. unfold load. rewrite load_from_app. cbn [load_from].
  rewrite Z.eqb_refl. by apply load_from_kept.
Qed.

Lemma store_outside_shrink (lo hi lo' hi' : Z) (st : Z * dla_cell) :
  lo <= lo' -> hi' <= hi ->
  store_outside e lo hi st -> store_outside e lo' hi' st.
Proof. unfold store_outside. lia. Qed.

Lemma place_actions_outside (mem : list dla_action) :
  forall (start lo hi : Z),
    hi <= start ->
    Forall (store_outside e lo hi) (place_actions e start mem).
Proof.
  induction mem as [|a rest IH]; intros start lo hi Hhi; cbn; [done|].
  pose proof (action_size_pos a).
  apply Forall_cons. split; [right; cbn; lia|]. apply IH. lia.
Qed.

Lemma place_addresses_outside (mem : list Z) :
  forall (start lo hi : Z),
    hi <= start ->
    Forall (store_outside e lo hi) (place_addresses e start mem).
Proof.
  destruct sizes as (_ & _ & _ & _ & _ & _ & H7 & _).
  induction mem as [|a rest IH]; intros start lo hi Hhi; cbn; [done|].
  apply Forall_cons. split; [right; cbn; lia|]. apply IH. lia.
Qed.

Lemma length_le_region_size (mem : list dla_action) :
  Z.of_nat (length mem) <= region_size e mem.
Proof.
  induction mem as [|a rest IH]; [done|].
  rewrite region_size_cons. pose proof (action_size_pos a).
  cbn [length]. lia.
Qed.

(** The records a cursor stored are read back as long as no later store
    touches their bytes. *)
Lemma read_placed (mem : list dla_action) :
  forall (s1 s2 : list (Z * dla_cell)) (start : Z) (fuel : nat),
    (length mem <= fuel)%nat ->
    Forall (store_outside e start (start + region_size e mem)) s2 ->
    read_actions e (s1 ++ place_actions e start mem ++ s2) fuel start
      (region_size e mem) = Some mem.
Proof.
  induction mem as [|a rest IH]; intros s1 s2 start fuel Hfuel Hout.
  - by destruct fuel.
  - pose proof (action_size_pos a) as Ha.
    pose proof (region_size_nonneg e layout_sizes_ok rest) as Hrest.
    rewrite region_size_cons in *.
    destruct fuel as [|fuel]; [cbn in Hfuel; lia|].
    cbn [read_actions].
    destruct (Z.leb_spec (action_size e a + region_size e rest) 0); [lia|].
    cbn [place_actions app].
    rewrite (load_stored s1 _ start (cell_action a)); [|done|].
    2: { cbn [cell_size]. apply Forall_app. split.
         - apply place_actions_outside. lia.
         - eapply Forall_impl; [exact Hout|]. intros st.
           apply store_outside_shrink; lia. }
    replace (action_size e a + region_size e rest - action_size e a)
      with (region_size e rest) by lia.
    change (s1 ++ (start, cell_action a) ::
              place_actions e (start + action_size e a) rest ++ s2)
      with (s1 ++ [(start, cell_action a)] ++
              place_actions e (start + action_size e a) rest ++ s2).
    rewrite app_assoc, IH; [done|cbn in Hfuel; lia|].
    eapply Forall_impl; [exact Hout|]. intros st.
    apply store_outside_shrink; lia.
Qed.

End Image.

(** ** The descriptor of a construction that succeeds *)

(** The stores of the three stages. *)
Lemma fill_preactions_mem (e : env) (task : nvdla_task) (m : gmap Z nat) :
  let r := nvdla_fill_preactions e task m in
  let d := task_desc task in
  r.1.1 = 0 ->
  td_mem (task_desc r.1.2) =
    td_mem d ++
    place_actions e (preaction_start e d) (preaction_mem (task_desc r.1.2)) ++
    place_list (td_preactions d) (preactionl (task_desc r.1.2)).
Proof.
  cbv zeta. unfold nvdla_fill_preactions, preaction_start. cbv zeta.
  match goal with
  | |- context [and_then ?a ?b 0 ?c] =>
      pose proof
        (and_then_appends _ _ _ _
           (for_each_appends _ _
              (filter (fun f => is_wait f = true) (prefences task))
              (wait_fence_appends e))
           (and_then_appends _ _ _ _
              (for_each_appends _ _ (in_task_status task)
                 (status_read_appends e))
              (and_then_appends _ _ _ _
                 (for_each_appends _ _ (sof_task_status task)
                    (status_write_appends e))
                 (and_then_appends _ _ _ _
                    (for_each_appends _ _ (sof_timestamps task)
                       (timestamp_appends e))
                    (for_each_appends _ _
                       (filter (fun f => is_signal f = true)
                          (prefences task))
                       (signal_fence_appends e))))) c) as Hloops;
      destruct (and_then a b 0 c) as [[failed err] c1]
  end.
  cbn [fst snd] in Hloops.
  destruct Hloops as [[-> Hneg]|(-> & -> & Hnext)]; cbn [fst snd]; [lia|].
  done.
Qed.

Lemma fill_postactions_mem (e : env) (task : nvdla_task) (m : gmap Z nat) :
  let r := nvdla_fill_postactions e task m in
  let d := task_desc task in
  r.1.1 = 0 ->
  td_mem (task_desc r.1.2) =
    td_mem d ++
    place_actions e (postaction_start e d)
      (postaction_mem (task_desc r.1.2)) ++
    place_list (td_postactions d) (postactionl (task_desc r.1.2)).
Proof.
  cbv zeta. unfold nvdla_fill_postactions, postaction_start. cbv zeta.
  match goal with
  | |- context [and_then ?a ?b 0 ?c] =>
      pose proof
        (and_then_appends _ _ _ _
           (for_each_appends _ _ (eof_timestamps task)
              (timestamp_appends e))
           (and_then_appends _ _ _ _
              (for_each_appends _ _ (eof_task_status task)
                 (status_write_appends e))
              (for_each_appends _ _ (postfences task)
                 (signal_fence_appends e))) c) as Hloops;
      destruct (and_then a b 0 c) as [[failed err] c1]
  end.
  cbn [fst snd] in Hloops.
  destruct Hloops as [[-> Hneg]|(-> & -> & Hnext)]; cbn [fst snd]; [lia|].
  done.
Qed.

Lemma map_task_memory_mem (e : env) (task : nvdla_task) (m : gmap Z nat) :
  let r := nvdla_map_task_memory e task m in
  let d := task_desc task in
  td_mem (task_desc r.1.2) =
    td_mem d ++
    place_addresses e (address_start e d) (address_mem (task_desc r.1.2)).
Proof.
  cbv zeta. unfold nvdla_map_task_memory, address_start. cbv zeta.
  by destruct (map_address_list e (memory_handles task) 0 m [])
    as [[err m'] next].
Qed.

(** The three stages of a construction that succeeds, with the memory
    they start from. *)
Lemma fill_task_desc_stages_mem (e : env) (task : nvdla_task)
  (bypass_exec : bool) (sequence : Z) (m : gmap Z nat) :
  let r := nvdla_fill_task_desc e task bypass_exec sequence m in
  r.1.1.1 = 0 ->
  exists (task1 task2 task3 : nvdla_task) (m1 : resources)
    (m2 : gmap Z nat),
    td_mem (task_desc task1) = td_mem (task_desc task) /\
    td_preactions (task_desc task1) = sizeof_task_descriptor (abi e) /\
    same_items task1 task /\
    fence_counter task1 = 0 /\
    td_postactions (task_desc task1) =
      sizeof_task_descriptor (abi e) + sizeof_action_list (abi e) /\
    task_desc_pa task1 = task_desc_pa task /\
    nvdla_fill_preactions e task1 m = (0, task2, m1) /\
    nvdla_fill_postactions e task2 m1 = (0, task3, m2) /\
    nvdla_map_task_memory e task3 m2 = (0, r.1.1.2, bufs r.2).
Proof.
  cbv zeta. unfold nvdla_fill_task_desc. cbv zeta.
  set (seq' := if _ >=? _ then 0 else _).
  set (task1 := set_fence_counter 0 _).
  destruct (nvdla_fill_preactions e task1 m) as [[err1 task2] m1] eqn:E1.
  destruct (Z.eqb_spec err1 0) as [->|Hne]; cbn [negb fst snd]; [|done].
  destruct (nvdla_fill_postactions e task2 m1) as [[err2 task3] m2] eqn:E2.
  destruct (Z.eqb_spec err2 0) as [->|Hne]; cbn [negb fst snd]; [|done].
  destruct (nvdla_map_task_memory e task3 m2) as [[err3 task4] m3] eqn:E3.
  destruct (Z.eqb_spec err3 0) as [->|Hne]; cbn [negb fst snd]; [|done].
  intros _. exists task1, task2, task3, m1, m2.
  split_and!; try done.
Qed.

Lemma fill_task_desc_built (e : env) (task : nvdla_task) (bypass_exec : bool)
  (sequence : Z) (m : gmap Z nat) :
  let r := nvdla_fill_task_desc e task bypass_exec sequence m in
  let d := task_desc r.1.1.2 in
  let lists :=
    sizeof_task_descriptor (abi e) + sizeof_action_list (abi e) +
    sizeof_action_list (abi e) in
  r.1.1.1 = 0 ->
  td_preactions d = sizeof_task_descriptor (abi e) /\
  td_postactions d =
    sizeof_task_descriptor (abi e) + sizeof_action_list (abi e) /\
  preaction_mem d = preaction_records e task /\
  postaction_mem d = postaction_records e task /\
  preactionl d =
    Some (ActionList (u16 lists) (region_size e (preaction_mem d))) /\
  postactionl d =
    Some (ActionList (u16 (lists + nvdla_get_max_preaction_size e))
            (region_size e (postaction_mem d))) /\
  address_mem d = map (buffer_address e) (memory_handles task) /\
  (action_sizes_ok (abi e) -> within_limits e task ->
   region_size e (postaction_mem d) <= nvdla_get_max_postaction_size e) /\
  td_mem d =
    td_mem (task_desc task) ++
    place_actions e (preaction_start e d) (preaction_mem d) ++
    place_list (td_preactions d) (preactionl d) ++
    place_actions e (postaction_start e d) (postaction_mem d) ++
    place_list (td_postactions d) (postactionl d) ++
    place_addresses e (address_start e d) (address_mem d).
Proof.
  cbv zeta. intros Hok.
  pose proof (fill_task_desc_fields e task bypass_exec sequence m) as Hf.
  pose proof (fill_task_desc_spec e task bypass_exec sequence m) as Hs.
  cbv zeta in Hf, Hs.
  destruct Hf as (_ & _ & _ & _ & _ & _ & Hpre & Hpost & _).
  destruct (fill_task_desc_stages_mem e task bypass_exec sequence m Hok)
    as (task1 & task2 & task3 & m1 & m2 & G0 & Gp & I0 & Hfc & Hpo & Hpa
        & E1 & E2 & E3).
  assert (Hc1 : 0 <= fence_counter task1 < 2 ^ 32) by (rewrite Hfc; lia).
  pose proof (fill_preactions_spec e task1 m Hc1) as P1.
  pose proof (fill_preactions_frame e task1 m) as F1.
  pose proof (proj1 (fill_lists_records e task1 m)) as R1.
  cbv zeta in P1, F1. rewrite E1 in P1, F1, R1. cbn [fst snd] in P1, F1, R1.
  specialize (R1 eq_refl).
  destruct (preactions_rejected e task1).
  { unfold EINVAL in P1. lia. }
  destruct P1 as (_ & Hk1 & Hl1). destruct F1 as (I1 & D1 & A1).
  assert (Hc2 : 0 <= fence_counter task2 < 2 ^ 32)
    by (rewrite Hk1; apply u32_range).
  pose proof (fill_postactions_spec e task2 m1 Hc2) as P2.
  pose proof (fill_postactions_frame e task2 m1) as F2.
  pose proof (proj2 (fill_lists_records e task2 m1)) as R2.
  pose proof (same_items_trans _ _ _ I1 I0) as J2.
  cbv zeta in P2, F2. rewrite E2 in P2, F2, R2. cbn [fst snd] in P2, F2, R2.
  specialize (R2 eq_refl).
  destruct (postactions_rejected e task2).
  { unfold EINVAL in P2. lia. }
  destruct P2 as (_ & _ & Hl2). destruct F2 as (_ & _ & _ & M2 & L2).
  pose proof (map_task_memory_frame e task3 m2) as F3.
  cbv zeta in F3. rewrite E3 in F3. cbn [fst snd] in F3.
  destruct F3 as (_ & _ & _ & _ & M3 & L3 & M3' & L3').
  assert (Hpo2 : td_postactions (task_desc task2) =
            sizeof_task_descriptor (abi e) + sizeof_action_list (abi e)).
  { destruct D1 as (_ & _ & _ & _ & _ & -> & _). done. }
  assert (Hrec1 : preaction_records e task1 = preaction_records e task).
  { destruct I0 as (_ & K2 & K3 & _ & K5 & _ & K7 & _).
    unfold preaction_records. by rewrite K2, K3, K5, K7. }
  assert (Hrec2 : postaction_records e task2 = postaction_records e task).
  { destruct J2 as (_ & _ & _ & K4 & _ & K6 & _ & K8).
    unfold postaction_records. by rewrite K4, K6, K8, A1, Hpa. }
  assert (Hmem :
    td_mem (task_desc
              (nvdla_fill_task_desc e task bypass_exec sequence m).1.1.2) =
    td_mem (task_desc task) ++
    place_actions e
      (preaction_start e
         (task_desc
            (nvdla_fill_task_desc e task bypass_exec sequence m).1.1.2))
      (preaction_mem (task_desc task2)) ++
    place_list (sizeof_task_descriptor (abi e))
      (preactionl (task_desc task2)) ++
    place_actions e
      (postaction_start e
         (task_desc
            (nvdla_fill_task_desc e task bypass_exec sequence m).1.1.2))
      (postaction_mem (task_desc task3)) ++
    place_list
      (sizeof_task_descriptor (abi e) + sizeof_action_list (abi e))
      (postactionl (task_desc task3)) ++
    place_addresses e
      (address_start e
         (task_desc
            (nvdla_fill_task_desc e task bypass_exec sequence m).1.1.2))
      (address_mem
         (task_desc
            (nvdla_fill_task_desc e task bypass_exec sequence m).1.1.2))).
  { pose proof (fill_preactions_mem e task1 m) as K1.
    pose proof (fill_preactions_frame e task1 m) as W1.
    cbv zeta in K1, W1. rewrite E1 in K1, W1. cbn [fst snd] in K1, W1.
    specialize (K1 eq_refl). destruct W1 as (_ & W1 & _).
    pose proof (fill_postactions_mem e task2 m1) as K2.
    pose proof (fill_postactions_frame e task2 m1) as W2.
    cbv zeta in K2, W2. rewrite E2 in K2, W2. cbn [fst snd] in K2, W2.
    specialize (K2 eq_refl). destruct W2 as (_ & W2 & _).
    pose proof (map_task_memory_mem e task3 m2) as K3.
    pose proof (map_task_memory_frame e task3 m2) as W3.
    cbv zeta in K3, W3. rewrite E3 in K3, W3. cbn [fst snd] in K3, W3.
    destruct W3 as (_ & W3 & _).
    destruct W1 as (_ & _ & _ & _ & Wp1 & Wq1 & _).
    destruct W2 as (_ & _ & _ & _ & Wp2 & Wq2 & _).
    destruct W3 as (_ & _ & _ & _ & Wp3 & Wq3 & _).
    rewrite K3, K2, K1, G0.
    unfold preaction_start, postaction_start, address_start.
    rewrite Wq3, Wq2, Wq1, Hpo, Gp.
    by rewrite <- !app_assoc. }
  rewrite Hmem.
  rewrite L3, M3, L3', M3', L2, M2, Hl1, Hl2, Hpo, Hpo2, R1, R2, Hrec1, Hrec2.
  rewrite Hpre, Hpost.
  split_and!; try done.
  - destruct (task_rejected e task).
    + destruct Hs as [Hs|[Hs _]]; rewrite Hok in Hs; unfold EINVAL, EFAULT in Hs;
        lia.
    + by destruct Hs as (_ & _ & _ & _ & ->).
  - intros Hsizes Hlim.
    assert (Hlim2 : within_limits e task2)
      by (by apply (within_limits_same e _ task)).
    pose proof (fill_postactions_size e Hsizes task2 m1 Hlim2) as Z2.
    rewrite E2 in Z2. cbn [fst snd] in Z2. by rewrite R2, Hrec2 in Z2.
Qed.

Lemma u16_small (x : Z) : 0 <= x < 2 ^ 16 -> u16 x = x.
Proof. unfold u16. apply Z.mod_small. Qed.

Lemma max_preaction_size_pos (e : env) (task : nvdla_task) :
  layout_ok e -> within_limits e task -> 0 < nvdla_get_max_preaction_size e.
Proof.
  intros (_ & _ & H3 & H4 & H5 & H6 & _) (L1 & _ & L3 & L4 & _ & L6 & _).
  cbv zeta in *. unfold nvdla_get_max_preaction_size. cbv zeta.
  pose proof (Nat2Z.is_nonneg (length (prefences task))).
  pose proof (Nat2Z.is_nonneg (length (in_task_status task))).
  pose proof (Nat2Z.is_nonneg (length (sof_task_status task))).
  pose proof (Nat2Z.is_nonneg (length (sof_timestamps task))).
  nia.
Qed.

(** C3: the action lists of a built descriptor.  For a task within the
    per-task maxima, every item of which resolves as the specification
    says and which the construction accepts, [nvdla_fill_task_desc]
    returns 0 and the post-action list the engine finds behind its header
    is the list of the specification: the completion-status write, the
    end-of-frame timestamp writes, the end-of-frame status writes, the
    postfence signals, the terminate opcode.  The pre-action list it finds
    is the list of the specification (wait prefences, input status
    checks, start-of-frame status writes, start-of-frame timestamp
    writes, signal prefences, terminate) as long as that list fits the
    region [nvdla_get_max_preaction_size] reserves.  When it does not
    fit, which a sync fd with several syncpoints brings about, the
    post-action region starts inside the pre-action list and holds the
    completion-status write of the post-action list there. *)
Theorem built_lists_follow_layout (e : env) (task : nvdla_task)
  (bypass_exec : bool) (sequence : Z) (m : gmap Z nat)
  (pre post : list dla_action) :
  layout_ok e ->
  within_limits e task ->
  spec_preactions e task = Some pre ->
  spec_postactions e task = Some post ->
  task_rejected e task = false ->
  let r := nvdla_fill_task_desc e task bypass_exec sequence m in
  let d := task_desc r.1.1.2 in
  r.1.1.1 = 0 /\
  built_postactions e r.1.1.2 = Some post /\
  (region_size e pre <= nvdla_get_max_preaction_size e ->
   built_preactions e r.1.1.2 = Some pre) /\
  (nvdla_get_max_preaction_size e < region_size e pre ->
   load e (td_mem d) (postaction_start e d) =
     option_map cell_action (head post) /\
   preaction_start e d < postaction_start e d <
     preaction_start e d + region_size e pre).
Proof.
  intros Hlay Hlim Hpre Hpost Hacc. cbv zeta.
  pose proof (fill_task_desc_spec e task bypass_exec sequence m) as Hs.
  cbv zeta in Hs. rewrite Hacc in Hs. destruct Hs as (Hok & _).
  destruct (fill_task_desc_built e task bypass_exec sequence m Hok)
    as (Htp & Htq & Hmp & Hmq & Hlp & Hlq & Hma & Hfit & Hmem).
  apply spec_preactions_records in Hpre as Hrp.
  apply spec_postactions_records in Hpost as Hrq.
  rewrite Hrp in Hmp. rewrite Hrq in Hmq. rewrite Hmp in Hlp.
  rewrite Hmq in Hlq, Hfit.
  specialize (Hfit (layout_sizes_ok e Hlay) Hlim).
  pose proof (max_preaction_size_pos e task Hlay Hlim) as Hmax.
  set (D := sizeof_task_descriptor (abi e)) in *.
  set (L := sizeof_action_list (abi e)) in *.
  set (Mp := nvdla_get_max_preaction_size e) in *.
  set (Mq := nvdla_get_max_postaction_size e) in *.
  set (dd := task_desc (nvdla_fill_task_desc e task bypass_exec sequence m).1.1.2) in *.
  assert (HDL : 0 <= D /\ 0 < L /\ D + 2 * L + Mp < 2 ^ 16).
  { destruct Hlay as (H1 & H2 & _ & _ & _ & _ & _ & _ & H9).
    cbv zeta in H9. done. }
  destruct HDL as (HD & HL & H16).
  assert (HP0 : preaction_start e dd = D + 2 * L).
  { unfold preaction_start. rewrite Htq. fold L. rewrite u16_small; lia. }
  assert (HQ0 : postaction_start e dd = D + 2 * L + Mp).
  { unfold postaction_start. rewrite Htq. fold L Mp.
    rewrite u16_small; lia. }
  assert (HA0 : D + 3 * L + Mp + Mq <= address_start e dd).
  { unfold address_start. rewrite Htq. fold L Mp Mq.
    pose proof (roundup_ge (D + L + L + Mp + L + Mq) 256 ltac:(lia)). lia. }
  assert (Hu1 : u16 (D + L + L) = D + 2 * L) by (rewrite u16_small; lia).
  assert (Hu2 : u16 (D + L + L + Mp) = D + 2 * L + Mp)
    by (rewrite u16_small; lia).
  rewrite Hu1 in Hlp. rewrite Hu2 in Hlq.
  pose proof (region_size_nonneg e (layout_sizes_ok e Hlay) pre) as Hpre0.
  pose proof (region_size_nonneg e (layout_sizes_ok e Hlay) post) as Hpost0.
  set (S0 := td_mem (task_desc task)) in *.
  assert (Hstores : td_mem dd =
            S0 ++
            place_actions e (D + 2 * L) pre ++
            [(D, cell_list (ActionList (D + 2 * L) (region_size e pre)))] ++
            place_actions e (D + 2 * L + Mp) post ++
            [(D + L,
              cell_list (ActionList (D + 2 * L + Mp) (region_size e post)))] ++
            place_addresses e (address_start e dd) (address_mem dd)).
  { rewrite Hmem. by rewrite HP0, HQ0, Hmp, Hmq, Hlp, Hlq, Htp, Htq. }
  split; [done|].
  set (A0 := address_start e dd) in *.
  set (addrs := address_mem dd) in *.
  set (h1 := cell_list (ActionList (D + 2 * L) (region_size e pre))) in *.
  set (h2 := cell_list (ActionList (D + 2 * L + Mp) (region_size e post)))
    in *.
  assert (Hz : forall lo hi, hi <= A0 ->
            Forall (store_outside e lo hi) (place_addresses e A0 addrs)).
  { intros lo hi Hhi. by apply place_addresses_outside. }
  assert (Hh2 : forall lo hi, D + 2 * L <= lo ->
            store_outside e lo hi (D + L, h2)).
  { intros lo hi Hlo. left. cbn. fold L. lia. }
  assert (Hlen : forall l, (length l <= Z.to_nat (region_size e l))%nat).
  { intros l. pose proof (length_le_region_size e Hlay l). lia. }
  split_and!.
  - unfold built_postactions, read_list. fold dd. rewrite Hstores, Htq.
    replace (S0 ++ place_actions e (D + 2 * L) pre ++ [(D, h1)] ++
             place_actions e (D + 2 * L + Mp) post ++ [(D + L, h2)] ++
             place_addresses e A0 addrs)
      with ((S0 ++ place_actions e (D + 2 * L) pre ++ [(D, h1)] ++
             place_actions e (D + 2 * L + Mp) post) ++ (D + L, h2) ::
             place_addresses e A0 addrs)
      by (by rewrite <- !app_assoc).
    rewrite (load_stored e); [|cbn; fold L; lia|apply Hz; cbn; fold L; lia].
    unfold h2 at 1. cbn [al_size al_offset].
    replace ((S0 ++ place_actions e (D + 2 * L) pre ++ [(D, h1)] ++
              place_actions e (D + 2 * L + Mp) post) ++ (D + L, h2) ::
             place_addresses e A0 addrs)
      with ((S0 ++ place_actions e (D + 2 * L) pre ++ [(D, h1)]) ++
            place_actions e (D + 2 * L + Mp) post ++
            ([(D + L, h2)] ++ place_addresses e A0 addrs))
      by (by rewrite <- !app_assoc).
    apply (read_placed e Hlay); [apply Hlen|].
    apply Forall_app. split; [|apply Hz; lia].
    apply Forall_singleton. apply Hh2. lia.
  - intros Hfits. unfold built_preactions, read_list. fold dd.
    rewrite Hstores, Htp.
    replace (S0 ++ place_actions e (D + 2 * L) pre ++ [(D, h1)] ++
             place_actions e (D + 2 * L + Mp) post ++ [(D + L, h2)] ++
             place_addresses e A0 addrs)
      with ((S0 ++ place_actions e (D + 2 * L) pre) ++ (D, h1) ::
            (place_actions e (D + 2 * L + Mp) post ++ [(D + L, h2)] ++
             place_addresses e A0 addrs))
      by (by rewrite <- !app_assoc).
    rewrite (load_stored e); [|cbn; fold L; lia|].
    2: { cbn [cell_size h1]. fold L. apply Forall_app. split.
         - apply (place_actions_outside e Hlay). lia.
         - apply Forall_app. split; [|apply Hz; lia].
           apply Forall_singleton. right. cbn. lia. }
    unfold h1 at 1. cbn [al_size al_offset].
    replace ((S0 ++ place_actions e (D + 2 * L) pre) ++ (D, h1) ::
             (place_actions e (D + 2 * L + Mp) post ++ [(D + L, h2)] ++
              place_addresses e A0 addrs))
      with (S0 ++ place_actions e (D + 2 * L) pre ++
            ([(D, h1)] ++ place_actions e (D + 2 * L + Mp) post ++
             [(D + L, h2)] ++ place_addresses e A0 addrs))
      by (by rewrite <- !app_assoc).
    apply (read_placed e Hlay); [apply Hlen|].
    apply Forall_app. split.
    { apply Forall_singleton. left. cbn. fold L. lia. }
    apply Forall_app. split.
    { apply (place_actions_outside e Hlay). lia. }
    apply Forall_app. split; [|apply Hz; lia].
    apply Forall_singleton. apply Hh2. lia.
  - intros Hover. rewrite HP0, HQ0. split; [|lia].
    rewrite Hstores.
    destruct post as [|a0 rest].
    { exfalso. clear -Hpost. unfold spec_postactions in Hpost.
      repeat case_match; try done. }
    cbn [head option_map place_actions].
    rewrite (region_size_cons e) in Hfit, Hpost0.
    pose proof (region_size_nonneg e (layout_sizes_ok e Hlay) rest) as Hr0.
    pose proof (action_size_pos e Hlay a0) as Ha0.
    replace (S0 ++ place_actions e (D + 2 * L) pre ++ [(D, h1)] ++
             ((D + 2 * L + Mp, cell_action a0) ::
              place_actions e (D + 2 * L + Mp + action_size e a0) rest) ++
             [(D + L, h2)] ++ place_addresses e A0 addrs)
      with ((S0 ++ place_actions e (D + 2 * L) pre ++ [(D, h1)]) ++
            (D + 2 * L + Mp, cell_action a0) ::
            (place_actions e (D + 2 * L + Mp + action_size e a0) rest ++
             [(D + L, h2)] ++ place_addresses e A0 addrs))
      by (by rewrite <- !app_assoc).
    apply (load_stored e); [done|]. cbn [cell_size].
    apply Forall_app. split.
    { apply (place_actions_outside e Hlay). lia. }
    apply Forall_app. split; [|apply Hz; lia].
    apply Forall_singleton. apply Hh2. lia.
Qed.

Lemma built_lists_witness :
  let r := nvdla_fill_task_desc env0 task_full false 0 ∅ in
  r.1.1.1 = 0 /\
  built_preactions env0 r.1.1.2 =
    Some [action_semaphore ACTION_SEM_GE 65556 3;
          action_semaphore ACTION_SEM_GE 65544 10;
          action_semaphore ACTION_SEM_GE 65552 20;
          action_semaphore ACTION_SEM_GE 36880 2;
          action_task_status ACTION_TASK_STATUS_EQ 12288 1;
          action_task_status ACTION_WRITE_TASK_STATUS 16392 2;
          action_timestamp ACTION_WRITE_TIMESTAMP 24576;
          action_semaphore ACTION_WRITE_SEM 65556 1;
          action_semaphore ACTION_INCREMENT_SEM 40960 1;
          action_opcode ACTION_TERMINATE] /\
  built_postactions env0 r.1.1.2 =
    Some [action_task_status ACTION_WRITE_TASK_STATUS 8704 0;
          action_timestamp ACTION_WRITE_TIMESTAMP 24584;
          action_task_status ACTION_WRITE_TASK_STATUS 20480 3;
          action_semaphore ACTION_WRITE_SEM 65556 1;
          action_semaphore ACTION_WRITE_SEM 28672 1;
          action_semaphore ACTION_WRITE_TS_SEM 32772 1;
          action_opcode ACTION_TERMINATE].
Proof.
  cbv zeta.
  destruct (built_lists_follow_layout env0 task_full false 0 ∅
    [action_semaphore ACTION_SEM_GE 65556 3;
     action_semaphore ACTION_SEM_GE 65544 10;
     action_semaphore ACTION_SEM_GE 65552 20;
     action_semaphore ACTION_SEM_GE 36880 2;
     action_task_status ACTION_TASK_STATUS_EQ 12288 1;
     action_task_status ACTION_WRITE_TASK_STATUS 16392 2;
     action_timestamp ACTION_WRITE_TIMESTAMP 24576;
     action_semaphore ACTION_WRITE_SEM 65556 1;
     action_semaphore ACTION_INCREMENT_SEM 40960 1;
     action_opcode ACTION_TERMINATE]
    [action_task_status ACTION_WRITE_TASK_STATUS 8704 0;
     action_timestamp ACTION_WRITE_TIMESTAMP 24584;
     action_task_status ACTION_WRITE_TASK_STATUS 20480 3;
     action_semaphore ACTION_WRITE_SEM 65556 1;
     action_semaphore ACTION_WRITE_SEM 28672 1;
     action_semaphore ACTION_WRITE_TS_SEM 32772 1;
     action_opcode ACTION_TERMINATE])
    as (Hret & Hpost & Hpre & _).
  - unfold layout_ok. cbv zeta.
    split_and!; first [reflexivity | vm_compute; discriminate].
  - unfold within_limits. cbv zeta. split_and!; vm_compute; discriminate.
  - reflexivity.
  - reflexivity.
  - reflexivity.
  - split_and!; [exact Hret | | exact Hpost].
    apply Hpre. vm_compute. discriminate.
Defined.

(** The lists of [task_full] as the engine finds them, and their
    extents. *)
Example built_lists_task_full :
  let r := nvdla_fill_task_desc env0 task_full false 0 ∅ in
  let d := task_desc r.1.1.2 in
  built_preactions env0 r.1.1.2 = spec_preactions env0 task_full /\
  built_postactions env0 r.1.1.2 = spec_postactions env0 task_full /\
  preactionl d = Some (ActionList 80 110) /\
  postactionl d = Some (ActionList 1489 71) /\
  nvdla_get_max_preaction_size env0 = 1409.
Proof. cbv zeta. split_and!; reflexivity. Qed.

(** With 32 waits on a sync fd of four syncpoints the construction
    succeeds and the header of the pre-action list announces 1665 bytes
    from offset 80, while the region ends at offset 1489, where the
    post-action list starts: the completion-status write stored there
    lies inside the pre-action list, whose record at offset 1484 is
    gone, and the list the engine finds is not the list of the
    specification. *)
Lemma preaction_list_overwritten :
  let r := nvdla_fill_task_desc env_wide_fd task_wide false 0 ∅ in
  let d := task_desc r.1.1.2 in
  length (prefences task_wide) = 32%nat /\
  MAX_NVDLA_PREFENCES_PER_TASK (abi env_wide_fd) = 32 /\
  r.1.1.1 = 0 /\
  preactionl d = Some (ActionList 80 1665) /\
  nvdla_get_max_preaction_size env_wide_fd = 1409 /\
  postaction_start env_wide_fd d = 1489 /\
  load env_wide_fd (td_mem d) 1489 =
    Some (cell_action (action_task_status ACTION_WRITE_TASK_STATUS 8704 0)) /\
  load env_wide_fd (td_mem d) 1484 = None /\
  spec_preactions env_wide_fd task_wide = Some (preaction_mem d) /\
  built_preactions env_wide_fd r.1.1.2 = None /\
  built_preactions env_wide_fd r.1.1.2 ≠ spec_preactions env_wide_fd task_wide.
Proof. cbv zeta. split_and!; try reflexivity. vm_compute. discriminate. Qed.
